(** * SkiMeister: acquisition pipeline and search engine

    A shallow embedding of the Python sources

      - [app.py]                       (filter pipeline, search, sort),
      - [scrapers/base_scraper.py]     (rate limit, cache, retries),
      - [scrapers/bergfex_scraper.py]  (resort and forecast extraction),
      - [scrapers/weather_service.py]  (coordinate based forecast),
      - [config.py], [models.py]       (constants and rows),

    followed by the properties of the specification that concern them.

    Conventions.  A Python [float] is modelled by the rational number it
    denotes, or is an infinity or NaN; a Python [int] by [Z], [str] by
    [string], a dictionary used as a map by a [gmap].  An exception is a
    value of [exn]; code that may raise lives in the [result] monad.
    Library code that is not part of the repository ([int], [float],
    geopy, SQLAlchemy, BeautifulSoup, datetime, md5) is taken as an
    interface, see [PyRuntime], [Database] and [Markup]. *)

From Stdlib Require Import ZArith QArith Qround Qabs List Sorted Permutation.
From Stdlib Require Import Lia Lqa.
From Stdlib Require Import Strings.String Strings.Ascii DecimalString DecimalZ.
From stdpp Require Import base option gmap strings list fin_maps sorting.

Local Open Scope Z_scope.
Local Set Warnings "-register-all".

(* ===================================================================== *)
(** * Part I.  The embedding                                             *)
(* ===================================================================== *)

(** ** Python values and control flow *)

Module Py.

(** The exception classes that the modelled code raises or catches. *)
Inductive exn : Set :=
| JSONDecodeError
| TypeError
| ValueError
| KeyError
| IndexError
| AttributeError
| NameError
| OverflowError
| OperationalError
| RequestException.

#[global] Instance exn_eq_dec : EqDecision exn.
Proof. solve_decision. Defined.

(** A computation either returns or raises. *)
Inductive result (A : Type) : Type :=
| Ok (a : A)
| Raise (e : exn).
Arguments Ok {A} a.
Arguments Raise {A} e.

#[global] Instance result_ret : MRet result := fun A a => Ok a.
#[global] Instance result_bind : MBind result := fun A B f m =>
  match m with
  | Ok a => f a
  | Raise e => Raise e
  end.

(** [option] results of a library call that signals failure by [e]. *)
Definition or_raise {A} (e : exn) (o : option A) : result A :=
  match o with
  | Some a => Ok a
  | None => Raise e
  end.

(** [try: m  except (e1, e2, ...): h] *)
Definition try_except {A} (m : result A) (caught : list exn) (h : result A)
  : result A :=
  match m with
  | Ok a => Ok a
  | Raise e => if bool_decide (e ∈ caught) then h else Raise e
  end.

(** A [float]: a finite number, [inf] or [-inf], or NaN. *)
Inductive float : Type :=
| Fin (q : Q)
| Inf (negative : bool)
| NaN.

Coercion Fin : Q >-> float.

(** [a < b] and [a <= b] on numbers; a comparison with NaN is false. *)
Definition float_lt (a b : float) : bool :=
  match a, b with
  | Fin p, Fin q => negb (Qle_bool q p)
  | Fin _, Inf negative => negb negative
  | Inf negative, Fin _ => negative
  | Inf n1, Inf n2 => n1 && negb n2
  | _, _ => false
  end.

Definition float_le (a b : float) : bool :=
  match a, b with
  | Fin p, Fin q => Qle_bool p q
  | Fin _, Inf negative => negb negative
  | Inf negative, Fin _ => negative
  | Inf n1, Inf n2 => n1 || negb n2
  | _, _ => false
  end.

(** Values produced by [json.loads] / [response.json()]; a number is an
    [int] or a [float], the literals [NaN] and [Infinity] included. *)
Inductive json : Type :=
| JNull
| JBool (b : bool)
| JNum (x : float)
| JStr (s : string)
| JArr (l : list json)
| JObj (kv : list (string * json)).

(** An object is kept as its members in document order; as in
    [json.loads], the last member with a given name wins. *)
Fixpoint obj_get (k : string) (kv : list (string * json)) : option json :=
  match kv with
  | [] => None
  | (k', v) :: rest =>
      match obj_get k rest with
      | Some w => Some w
      | None => if String.eqb k k' then Some v else None
      end
  end.

(** Truth value of a JSON value used as a condition. *)
Definition truthy (j : json) : bool :=
  match j with
  | JNull => false
  | JBool b => b
  | JNum (Fin q) => negb (Qeq_bool q 0)
  | JNum _ => true
  | JStr s => negb (String.eqb s "")
  | JArr l => negb (Nat.eqb (length l) 0)
  | JObj kv => negb (Nat.eqb (length kv) 0)
  end.

(** [x.get(k)] : only dictionaries have the method. *)
Definition dict_get (x : json) (k : string) : result json :=
  match x with
  | JObj kv => Ok (default JNull (obj_get k kv))
  | _ => Raise AttributeError
  end.

(** [x.get(k, d)] *)
Definition dict_get_default (x : json) (k : string) (d : json) : result json :=
  match x with
  | JObj kv => Ok (default d (obj_get k kv))
  | _ => Raise AttributeError
  end.

(** [json_eqb_str x s] is [x == s] for a string literal [s]. *)
Definition json_eqb_str (x : json) (s : string) : bool :=
  match x with
  | JStr t => String.eqb t s
  | _ => false
  end.

(** [k in x] for a string [k]: key membership on a dictionary, element
    membership on a list, substring on a string, [TypeError] on the
    values that are not containers. *)
Fixpoint is_prefix (p s : string) : bool :=
  match p, s with
  | EmptyString, _ => true
  | String a p', String b s' => if Ascii.eqb a b then is_prefix p' s' else false
  | String _ _, EmptyString => false
  end.

Fixpoint contains (needle hay : string) : bool :=
  if is_prefix needle hay then true
  else match hay with
       | EmptyString => false
       | String _ hay' => contains needle hay'
       end.

Definition str_in (k : string) (x : json) : result bool :=
  match x with
  | JObj kv => Ok (bool_decide (is_Some (obj_get k kv)))
  | JArr l => Ok (existsb (fun y => json_eqb_str y k) l)
  | JStr s => Ok (contains k s)
  | _ => Raise TypeError
  end.

(** [x[k]] for a string key [k]. *)
Definition getitem (x : json) (k : string) : result json :=
  match x with
  | JObj kv => or_raise KeyError (obj_get k kv)
  | _ => Raise TypeError
  end.

(** [x[i]] for an index [i >= 0]. *)
Definition getindex (x : json) (i : nat) : result json :=
  match x with
  | JArr l => or_raise IndexError (l !! i)
  | JStr s => match String.get i s with
              | Some c => Ok (JStr (String c EmptyString))
              | None => Raise IndexError
              end
  | JObj kv => Raise KeyError
  | _ => Raise TypeError
  end.

(** [len(x)] *)
Definition len (x : json) : result nat :=
  match x with
  | JArr l => Ok (length l)
  | JStr s => Ok (String.length s)
  | JObj kv => Ok (length kv)
  | _ => Raise TypeError
  end.

(** [s[:n]] on a string. *)
Fixpoint str_take (n : nat) (s : string) : string :=
  match n, s with
  | O, _ => EmptyString
  | S n', String c s' => String c (str_take n' s')
  | S _, EmptyString => EmptyString
  end.

(** [x[:n]] : sequences are sliced, anything else is a [TypeError]. *)
Definition slice_to (n : nat) (x : json) : result json :=
  match x with
  | JStr s => Ok (JStr (str_take n s))
  | JArr l => Ok (JArr (take n l))
  | _ => Raise TypeError
  end.

(** Truncation toward zero, the integer part taken by [int(x)] on a
    float. *)
Definition Qtrunc (q : Q) : Z :=
  if Qle_bool 0 q then Qfloor q else Qceiling q.

(** [min(a, b)] and [max(a, b)] on numbers: the first argument unless
    the second is strictly smaller (larger). *)
Definition min_float (a b : float) : float := if float_lt b a then b else a.
Definition max_float (a b : float) : float := if float_lt a b then b else a.

(** ASCII lower-casing, and the digit scanners behind the patterns
    [(\d+)] and [(-?\d+)] used with [re.search]. *)
Definition lower_ascii (c : ascii) : ascii :=
  let n := nat_of_ascii c in
  if (Nat.leb 65 n && Nat.leb n 90)%bool then ascii_of_nat (n + 32) else c.

Fixpoint lower (s : string) : string :=
  match s with
  | EmptyString => EmptyString
  | String c s' => String (lower_ascii c) (lower s')
  end.

Definition digit_of (c : ascii) : option Z :=
  let n := nat_of_ascii c in
  if (Nat.leb 48 n && Nat.leb n 57)%bool then Some (Z.of_nat (n - 48)) else None.

(** Value of the maximal run of digits at the head of [s], continuing
    the number [acc]. *)
Fixpoint digits_from (acc : Z) (s : string) : Z :=
  match s with
  | EmptyString => acc
  | String c s' =>
      match digit_of c with
      | Some d => digits_from (10 * acc + d) s'
      | None => acc
      end
  end.

(** [re.search(r'(\d+)', s)] then [int(match.group(1))]. *)
Fixpoint first_int (s : string) : option Z :=
  match s with
  | EmptyString => None
  | String c s' =>
      match digit_of c with
      | Some d => Some (digits_from d s')
      | None => first_int s'
      end
  end.

(** [re.search(r'(-?\d+)', s)] then the number in [group(1)]. *)
Fixpoint first_signed_int (s : string) : option Z :=
  match s with
  | EmptyString => None
  | String c s' =>
      match digit_of c with
      | Some d => Some (digits_from d s')
      | None =>
          match s' with
          | String c' s'' =>
              match digit_of c' with
              | Some d =>
                  if Ascii.eqb c "-"%char then Some (- digits_from d s'')
                  else first_signed_int s'
              | None => first_signed_int s'
              end
          | EmptyString => None
          end
      end
  end.

(** *** [list.sort(key=...)]

    The sort is stable, so its result is the one stable arrangement of
    the input: an insertion sort that puts an element in front of the
    first element it is allowed to precede.  [le a b] says that [a]
    may stay in front of [b]. *)
Section Sort.
Context {A : Type} (le : A -> A -> bool).

Fixpoint insert_sorted (x : A) (l : list A) : list A :=
  match l with
  | [] => [x]
  | y :: l' => if le x y then x :: y :: l' else y :: insert_sorted x l'
  end.

Fixpoint stable_sort (l : list A) : list A :=
  match l with
  | [] => []
  | x :: l' => insert_sorted x (stable_sort l')
  end.
End Sort.

(** Sorting numbers among which [None] may occur.  Comparing [None]
    with anything raises [TypeError]; a list of fewer than two elements
    is never compared. *)
Definition sort_by_number {A} (key : A -> option Q) (reverse : bool)
    (l : list A) : result (list A) :=
  if bool_decide (length l < 2)%nat then Ok l
  else if forallb (fun x => bool_decide (is_Some (key x))) l then
    let k x := default 0%Q (key x) in
    Ok (stable_sort
          (fun a b => if reverse then Qle_bool (k b) (k a)
                      else Qle_bool (k a) (k b)) l)
  else Raise TypeError.

(** Sorting by a string key ([str] compares by code point). *)
Definition sort_by_string {A} (key : A -> string) (l : list A) : list A :=
  stable_sort (fun a b => String.leb (key a) (key b)) l.

End Py.

Export Py.


(** ** [config.py] *)

Module config.

(** The module-level constants read by the modelled code.  Durations
    keep the unit of the source: seconds and hours. *)
Record t : Type := {
  SCRAPER_RATE_LIMIT : Z;
  SCRAPER_MAX_RETRIES : nat;
  CACHE_EXPIRY_HOURS : Z;
  DEFAULT_SEARCH_RADIUS_KM : Q;
  MAX_SEARCH_RADIUS_KM : Q;
  MIN_SEARCH_RADIUS_KM : Q
}.

(** The values of the repository. *)
Definition shipped : t := {|
  SCRAPER_RATE_LIMIT := 2;
  SCRAPER_MAX_RETRIES := 3;
  CACHE_EXPIRY_HOURS := 24;
  DEFAULT_SEARCH_RADIUS_KM := 200;
  MAX_SEARCH_RADIUS_KM := 500;
  MIN_SEARCH_RADIUS_KM := 10
|}.

End config.

(** ** Library functions used by the application

    [py_int s] and [py_float s] are [int(s)] and [float(s)] on a string,
    [None] standing for [ValueError]; [float] also reads the texts of
    the infinities and of NaN.  [double x] is the double nearest to the
    number [x], [None] when [x] is beyond the range of the doubles.
    [geodesic_km] is [geopy.distance.geodesic(...).kilometers] from the
    coordinates of the request to those of a row, [None] standing for
    the [ValueError] raised on a coordinate that is not finite or a
    latitude outside of [-90, 90]; [round1 d] is [round(d, 1)]. *)
Class PyRuntime : Type := {
  py_int : string -> option Z;
  py_float : string -> option float;
  double : Q -> option Q;
  geodesic_km : float * float -> Q * Q -> option Q;
  round1 : Q -> Q
}.

(** [float(text)] on a text of digits with an optional sign, whose
    number is [n]: the nearest double, an infinity beyond the range. *)
Definition float_of_digits `{RT : PyRuntime} (n : Z) : float :=
  match double (inject_Z n) with
  | Some q => Fin q
  | None => Inf (n <? 0)
  end.

(** ** [models.py] *)

Module models.

(** Rows of the tables, with the columns that the filter pipeline, the
    serialisation [to_dict] and the sort keys read.  A nullable column
    is an [option]. *)
Record Conditions : Type := {
  snow_depth_valley : option Z;
  snow_depth_mountain : option Z;
  slopes_open_km : option Q;
  slopes_total_km : option Q;
  status : option string
}.

Record Pricing : Type := {
  adult_day_pass : option Q;
  child_day_pass : option Q;
  currency : option string
}.

(** A resort with its one-to-one relationships ([uselist=False]); a
    missing related row is [None]. *)
Record Resort : Type := {
  id : Z;
  name : string;
  slug : string;
  country : string;
  region : option string;
  latitude : Q;
  longitude : Q;
  conditions : option Conditions;
  pricing : option Pricing
}.

End models.

(** ** [app.py] *)

Module app.
Import models.

(** *** Queries

    SQLAlchemy is not part of the repository.  A query on [Resort] is
    represented by the clauses that the code adds to
    [session.query(Resort)], in the order in which they are added. *)

(** The comparisons of the code, by the table of their column. *)
Inductive conditions_test : Type :=
| snow_depth_mountain_ge (n : Z)
| status_eq (v : string)
| slopes_open_km_ge (x : float).

Inductive pricing_test : Type :=
| adult_day_pass_le (x : float).

Inductive resort_test : Type :=
| country_eq (v : string)
| id_eq (n : Z).

Inductive clause : Type :=
(** [.join(Conditions).filter(t)] *)
| join_conditions (t : conditions_test)
(** [.join(Pricing).filter(t)] *)
| join_pricing (t : pricing_test)
(** [.filter(t)] *)
| filter_resort (t : resort_test).

Definition Query : Type := list clause.

(** A comparison with a NULL column does not hold; a NaN is bound as
    NULL, so that a comparison with it does not hold either. *)
Definition col_ge_int (col : option Z) (n : Z) : bool :=
  match col with Some d => Z.leb n d | None => false end.

Definition col_ge (col : option Q) (x : float) : bool :=
  match col with Some d => float_le x (Fin d) | None => false end.

Definition col_le (col : option Q) (x : float) : bool :=
  match col with Some d => float_le (Fin d) x | None => false end.

Definition col_eq (col : option string) (s : string) : bool :=
  match col with Some d => String.eqb d s | None => false end.

Definition conditions_holds (t : conditions_test) (c : Conditions) : bool :=
  match t with
  | snow_depth_mountain_ge n => col_ge_int (snow_depth_mountain c) n
  | status_eq v => col_eq (status c) v
  | slopes_open_km_ge x => col_ge (slopes_open_km c) x
  end.

Definition pricing_holds (t : pricing_test) (p : Pricing) : bool :=
  match t with
  | adult_day_pass_le x => col_le (adult_day_pass p) x
  end.

Definition resort_holds (t : resort_test) (r : Resort) : bool :=
  match t with
  | country_eq v => String.eqb (country r) v
  | id_eq n => Z.eqb (id r) n
  end.

(** Whether the resort has a row in the joined table on which the
    comparison holds, or passes the comparison itself. *)
Definition passes (c : clause) (r : Resort) : bool :=
  match c with
  | join_conditions t =>
      match conditions r with Some row => conditions_holds t row | None => false end
  | join_pricing t =>
      match pricing r with Some row => pricing_holds t row | None => false end
  | filter_resort t => resort_holds t r
  end.

Definition matches (query : Query) (r : Resort) : bool :=
  forallb (fun c => passes c r) query.

(** A table that is joined twice is named twice in the statement, and
    its columns are ambiguous. *)
Definition joins_conditions (c : clause) : bool :=
  match c with join_conditions _ => true | _ => false end.

Definition joins_pricing (c : clause) : bool :=
  match c with join_pricing _ => true | _ => false end.

Definition ambiguous (query : Query) : bool :=
  Nat.ltb 1 (length (List.filter joins_conditions query))
  || Nat.ltb 1 (length (List.filter joins_pricing query)).

(** An integer is bound as a 64-bit integer. *)
Definition int64 (n : Z) : bool := Z.leb (- 2 ^ 63) n && Z.ltb n (2 ^ 63).

Definition bindable (c : clause) : bool :=
  match c with
  | join_conditions (snow_depth_mountain_ge n) => int64 n
  | filter_resort (id_eq n) => int64 n
  | _ => true
  end.

(** The database: the rows that a statement returns, in the order in
    which the database produces them.  No query of the code has an
    [ORDER BY], so that the order is the choice of the database. *)
Class Database : Type := {
  fetch : list Resort -> Query -> list Resort;
  fetch_matches : forall db query,
    fetch db query ≡ₚ List.filter (matches query) db
}.

Section App.
Context `{RT : PyRuntime} `{DB : Database} (cfg : config.t).

(** [calculate_distance] *)
Definition calculate_distance (lat1 lon1 : float) (lat2 lon2 : Q) : result Q :=
  or_raise ValueError (geodesic_km (lat1, lon1) (lat2, lon2)).

(** [k in filters and filters[k]]: the value when the key is there and
    its value is a non-empty string. *)
Definition given (filters : gmap string string) (k : string) : option string :=
  match filters !! k with
  | Some v => if bool_decide (v = "") then None else Some v
  | None => None
  end.

(** [apply_filters] *)
Definition apply_filters (query : Query) (filters : gmap string string)
  : result Query :=
  query ← match given filters "min_snow" with
          | Some v =>
              n ← or_raise ValueError (py_int v);
              Ok (query ++ [join_conditions (snow_depth_mountain_ge n)])
          | None => Ok query
          end;
  query ← match given filters "status" with
          | Some v => Ok (query ++ [join_conditions (status_eq v)])
          | None => Ok query
          end;
  query ← match given filters "min_slopes" with
          | Some v =>
              x ← or_raise ValueError (py_float v);
              Ok (query ++ [join_conditions (slopes_open_km_ge x)])
          | None => Ok query
          end;
  query ← match given filters "max_price" with
          | Some v =>
              x ← or_raise ValueError (py_float v);
              Ok (query ++ [join_pricing (adult_day_pass_le x)])
          | None => Ok query
          end;
  query ← match given filters "country" with
          | Some v => Ok (query ++ [filter_resort (country_eq v)])
          | None => Ok query
          end;
  Ok query.

(** [query.all()] on the rows [db] of the resort table: the statement
    is prepared, its values are bound, and the rows are fetched. *)
Definition all (db : list Resort) (query : Query) : result (list Resort) :=
  if ambiguous query then Raise OperationalError
  else if negb (forallb bindable query) then Raise OverflowError
  else Ok (fetch db query).

(** [query.first()] *)
Definition first (db : list Resort) (query : Query) : result (option Resort) :=
  rows ← all db query; Ok (head rows).

(** The statements shared by [get_all_resorts] and [search_resorts]:
    [query = session.query(Resort)], [query = apply_filters(query,
    filters)], [query.all()]. *)
Definition filtered_resorts (db : list Resort) (filters : gmap string string)
  : result (list Resort) :=
  query ← apply_filters [] filters; all db query.

(** [resort.to_dict()] extended with ['distance_km'].  The keys
    ['conditions'] and ['pricing'] exist exactly when the row exists, so
    the dictionary is the row together with the distance. *)
Record ResortDict : Type := {
  row : Resort;
  distance_km : Q
}.

(** [request.args.get(k, type=float)]: [None] when the key is missing or
    its value does not convert. *)
Definition args_get_float (args : gmap string string) (k : string)
  : option float :=
  v ← args !! k; py_float v.

(** The loop of [search_resorts] that computes distances and keeps the
    resorts within the radius. *)
Fixpoint nearby (lat lng radius : float) (all_resorts : list Resort)
  : result (list ResortDict) :=
  match all_resorts with
  | [] => Ok []
  | resort :: rest =>
      distance ← calculate_distance lat lng (latitude resort) (longitude resort);
      tail ← nearby lat lng radius rest;
      Ok (if float_le (Fin distance) radius
          then {| row := resort; distance_km := round1 distance |} :: tail
          else tail)
  end.

(** The four sort keys. *)
Definition price_key (x : ResortDict) : option Q :=
  match pricing (row x) with
  | None => Some 999%Q
  | Some p => adult_day_pass p
  end.

Definition snow_key (x : ResortDict) : option Q :=
  match conditions (row x) with
  | None => Some 0%Q
  | Some c => inject_Z <$> snow_depth_mountain c
  end.

(** The [if sort_by == ...] chain. *)
Definition sort_results (sort_by : string) (nearby_resorts : list ResortDict)
  : result (list ResortDict) :=
  if String.eqb sort_by "distance" then
    sort_by_number (fun x => Some (distance_km x)) false nearby_resorts
  else if String.eqb sort_by "name" then
    Ok (sort_by_string (fun x => name (row x)) nearby_resorts)
  else if String.eqb sort_by "price" then
    sort_by_number price_key false nearby_resorts
  else if String.eqb sort_by "snow" then
    sort_by_number snow_key true nearby_resorts
  else Ok nearby_resorts.

(** What the route returns: the JSON body with status 200, the 400 made
    for missing coordinates, or the 500 made by [except Exception]. *)
Inductive response : Type :=
| Success (count : nat) (user_location : float * float) (radius_km : float)
    (resorts : list ResortDict)
| BadRequest (error : string)
| ServerError (e : exn).

Definition effective_radius (args : gmap string string) : float :=
  let radius := default (Fin (config.DEFAULT_SEARCH_RADIUS_KM cfg))
                  (args_get_float args "radius") in
  let radius := min_float radius (Fin (config.MAX_SEARCH_RADIUS_KM cfg)) in
  max_float radius (Fin (config.MIN_SEARCH_RADIUS_KM cfg)).

(** [search_resorts], on the rows [db] of the resort table and the
    query parameters [args]. *)
Definition search_resorts (db : list Resort) (args : gmap string string)
  : response :=
  match args_get_float args "lat", args_get_float args "lng" with
  | Some lat, Some lng =>
      let radius := effective_radius args in
      let body :=
        all_resorts ← filtered_resorts db args;
        nearby_resorts ← nearby lat lng radius all_resorts;
        sort_results (default "distance" (args !! "sort")) nearby_resorts in
      match body with
      | Ok nearby_resorts =>
          Success (length nearby_resorts) (lat, lng) radius nearby_resorts
      | Raise e => ServerError e
      end
  | _, _ => BadRequest "Missing lat or lng parameters"
  end.

(** What [get_all_resorts] and [get_resort] return: the JSON body with
    status 200, the 404 for an unknown resort, or the 500 made by
    [except Exception]. *)
Inductive listing : Type :=
| Listed (count : nat) (resorts : list Resort)
| Found (resort : Resort)
| NotFound (error : string)
| ListingError (e : exn).

(** [get_all_resorts], on the rows of the resort table and the query
    parameters. *)
Definition get_all_resorts (db : list Resort) (args : gmap string string)
  : listing :=
  match filtered_resorts db args with
  | Ok resorts => Listed (length resorts) resorts
  | Raise e => ListingError e
  end.

(** [get_resort]: [session.query(Resort).filter(Resort.id ==
    resort_id).first()], under [except Exception]. *)
Definition get_resort (db : list Resort) (resort_id : Z) : listing :=
  match first db [filter_resort (id_eq resort_id)] with
  | Ok (Some resort) => Found resort
  | Ok None => NotFound "Resort not found"
  | Raise e => ListingError e
  end.

End App.
End app.

(** ** [scrapers/base_scraper.py] *)

Module base_scraper.

(** A [datetime]: microseconds since the epoch, naive or carrying a UTC
    offset.  Only naive values can be subtracted from [utcnow()]. *)
Inductive datetime : Type :=
| Naive (us : Z)
| Aware (us : Z).

(** The library functions the scraper relies on: the hex digest of
    [hashlib.md5], [datetime.isoformat] and [datetime.fromisoformat]
    ([None] standing for [ValueError]).  The two conversions are inverse
    on the naive values that [utcnow()] produces. *)
Class Platform : Type := {
  md5_hex : string -> string;
  isoformat : Z -> string;
  fromisoformat : string -> option datetime;
  fromisoformat_isoformat : forall t, fromisoformat (isoformat t) = Some (Naive t)
}.

(** What a file of the cache directory holds: text that [json.load]
    rejects, or a JSON document. *)
Inductive file : Type :=
| NotJson
| JsonFile (j : json).

(** What [session.get] followed by [raise_for_status] does with one
    request: it raises a [RequestException] (connection error, timeout,
    error status) or delivers the body; [took] is the time the request
    lasted, in microseconds. *)
Inductive reply : Type :=
| Failed (took : N)
| Replied (took : N) (text : string).

Definition took_of (r : reply) : Z :=
  match r with
  | Failed t => Z.of_N t
  | Replied t _ => Z.of_N t
  end.

(** The scraper instance and its surroundings: the clock (microseconds),
    [self.last_request_time], the cache directory, and a log of the
    requests issued ([url], time of issue) and of the calls of
    [time.sleep], oldest first. *)
Record state : Type := {
  now : Z;
  last_request_time : Z;
  files : gmap string file;
  sent : list (string * Z);
  slept : list Z
}.

Definition second : Z := 1000000.
Definition hour : Z := 3600 * second.

Section Scraper.
Context `{PF : Platform} (cfg : config.t).

(** The network: the reply to the [n]-th request issued. *)
Variable net : nat -> reply.

(** [time.sleep(d)], [d] in microseconds. *)
Definition sleep (d : Z) (s : state) : state :=
  {| now := now s + d;
     last_request_time := last_request_time s;
     files := files s;
     sent := sent s;
     slept := slept s ++ [d] |}.

(** [_rate_limit] *)
Definition _rate_limit (s : state) : state :=
  let elapsed := now s - last_request_time s in
  let limit := config.SCRAPER_RATE_LIMIT cfg * second in
  let s := if elapsed <? limit then sleep (limit - elapsed) s else s in
  {| now := now s;
     last_request_time := now s;
     files := files s;
     sent := sent s;
     slept := slept s |}.

(** [_get_cache_path], relative to [config.CACHE_DIR]. *)
Definition _get_cache_path (key : string) : string :=
  md5_hex key +:+ ".json".

(** [datetime.fromisoformat(x)] on a JSON value. *)
Definition fromisoformat_value (x : json) : result datetime :=
  match x with
  | JStr s => or_raise ValueError (fromisoformat s)
  | _ => Raise TypeError
  end.

(** [datetime.utcnow() - cached_time] *)
Definition since (s : state) (cached_time : datetime) : result Z :=
  match cached_time with
  | Naive t => Ok (now s - t)
  | Aware _ => Raise TypeError
  end.

(** [_get_cached]; the value [None] is [JNull]. *)
Definition _get_cached (s : state) (key : string) : result json :=
  let cache_path := _get_cache_path key in
  match files s !! cache_path with
  | None => Ok JNull
  | Some f =>
      try_except
        (cached_data ← match f with
                       | NotJson => Raise JSONDecodeError
                       | JsonFile j => Ok j
                       end;
         timestamp ← getitem cached_data "timestamp";
         cached_time ← fromisoformat_value timestamp;
         let expiry := config.CACHE_EXPIRY_HOURS cfg * hour in
         age ← since s cached_time;
         if age <? expiry then getitem cached_data "data" else Ok JNull)
        [JSONDecodeError; KeyError; ValueError]
        (Ok JNull)
  end.

(** [_set_cached] *)
Definition _set_cached (s : state) (key : string) (data : string) : state :=
  let cache_path := _get_cache_path key in
  let cached_data :=
    JObj [("timestamp", JStr (isoformat (now s))); ("data", JStr data)] in
  {| now := now s;
     last_request_time := last_request_time s;
     files := <[cache_path := JsonFile cached_data]> (files s);
     sent := sent s;
     slept := slept s |}.

(** One pass through [session.get]: the request is logged, answered by
    the network, and the clock moves by the time it took. *)
Definition request (url : string) (s : state) : state * reply :=
  let r := net (length (sent s)) in
  ({| now := now s + took_of r;
      last_request_time := last_request_time s;
      files := files s;
      sent := sent s ++ [(url, now s)];
      slept := slept s |}, r).

(** The loop [for attempt in range(config.SCRAPER_MAX_RETRIES)], entered
    at [attempt] with [remaining] iterations to go.  Falling out of the
    loop is the final [return None]. *)
Fixpoint retry_loop (url : string) (use_cache : bool) (remaining attempt : nat)
    (s : state) : state * json :=
  match remaining with
  | O => (s, JNull)
  | S remaining' =>
      let '(s, r) := request url s in
      match r with
      | Replied _ text =>
          let s := if use_cache then _set_cached s url text else s in
          (s, JStr text)
      | Failed _ =>
          if Z.of_nat attempt =? Z.of_nat (config.SCRAPER_MAX_RETRIES cfg) - 1
          then (s, JNull)
          else retry_loop url use_cache remaining' (S attempt)
                 (sleep (2 ^ Z.of_nat attempt * second) s)
      end
  end.

(** [fetch_url] *)
Definition fetch_url (url : string) (use_cache : bool) (s : state)
  : result (state * json) :=
  cached ← (if use_cache then _get_cached s url else Ok JNull);
  if truthy cached then Ok (s, cached)
  else
    let s := _rate_limit s in
    Ok (retry_loop url use_cache (config.SCRAPER_MAX_RETRIES cfg) 0 s).

End Scraper.
End base_scraper.

(** ** [scrapers/bergfex_scraper.py] *)

Module bergfex_scraper.
Import base_scraper.

(** *** Documents

    BeautifulSoup is not part of the repository.  A parsed document is
    represented by the answers to the queries that the scraper puts to
    it, each field naming the query it answers. *)

(** A [<script type="application/ld+json">] element: [script.string] is
    [None], or text that [json.loads] rejects, or text that it parses. *)
Inductive script : Type :=
| NoString
| IllFormed
| Parsed (j : json).

(** A [.day] element of the forecast container: the text of its [.temp]
    elements, of its first [.snow, .fresh-snow] element, and
    [img.get('src', '')] of its first [img]. *)
Record day_el : Type := {
  temps : list string;
  snow_el : option string;
  img : option string
}.

Record soup : Type := {
  (** [soup.find('h1')], as [get_text(strip=True)] *)
  h1 : option string;
  (** [soup.find_all('script', type='application/ld+json')] *)
  ld_json : list script;
  (** the strings matching [(\d+)m\s*-\s*(\d+)m], as their two groups *)
  altitude_elem : list (Z * Z);
  (** whether a [div] titled "Current information" or "Current snow
      report" exists *)
  snow_info : bool;
  (** the string matching "Mountain:", as [get_text()] of the next
      sibling of its parent when there is one *)
  mountain_label : option (option string);
  (** likewise for "Valley:" *)
  valley_label : option (option string);
  (** [soup.select_one('.resort-status, .status-label')], as
      [get_text(strip=True)] *)
  status_elem : option string;
  (** [soup.select_one('.forecast9d-container, .forecast9d')], as its
      [.day] elements *)
  forecast_container : option (list day_el)
}.

(** [BaseScraper.parse_html] on what [fetch_url] returned. *)
Class Markup : Type := {
  parse_html : json -> result soup
}.

(** *** The dictionaries built by the scraper

    A key that may be missing is an [option]; a key whose value can be
    any JSON value holds a [json]. *)
Record forecast : Type := {
  date : datetime;
  temp_max : option json;
  temp_min : option json;
  snow_forecast_cm : option json;
  symbol : option json
}.

Record conditions_dict : Type := {
  snow_depth_mountain : option Z;
  snow_depth_valley : option Z;
  status : option string
}.

(** [data]; its key ['pricing'] is never written and stays [{}]. *)
Record resort_data : Type := {
  url : string;
  name : option string;
  latitude : option float;
  longitude : option float;
  description : option json;
  region : option json;
  altitude_min : option Z;
  altitude_max : option Z;
  conditions : conditions_dict;
  forecasts : list forecast
}.

Definition initial_data (resort_url : string) : resort_data := {|
  url := resort_url; name := None; latitude := None; longitude := None;
  description := None; region := None;
  altitude_min := None; altitude_max := None;
  conditions := {| snow_depth_mountain := None; snow_depth_valley := None;
                   status := None |};
  forecasts := []
|}.

(** Assignments [data[k] = v]. *)
Definition set_name (v : string) (d : resort_data) : resort_data :=
  {| url := url d; name := Some v; latitude := latitude d;
     longitude := longitude d; description := description d;
     region := region d; altitude_min := altitude_min d;
     altitude_max := altitude_max d; conditions := conditions d;
     forecasts := forecasts d |}.

Definition set_latitude (v : float) (d : resort_data) : resort_data :=
  {| url := url d; name := name d; latitude := Some v;
     longitude := longitude d; description := description d;
     region := region d; altitude_min := altitude_min d;
     altitude_max := altitude_max d; conditions := conditions d;
     forecasts := forecasts d |}.

Definition set_longitude (v : float) (d : resort_data) : resort_data :=
  {| url := url d; name := name d; latitude := latitude d;
     longitude := Some v; description := description d;
     region := region d; altitude_min := altitude_min d;
     altitude_max := altitude_max d; conditions := conditions d;
     forecasts := forecasts d |}.

Definition set_description (v : json) (d : resort_data) : resort_data :=
  {| url := url d; name := name d; latitude := latitude d;
     longitude := longitude d; description := Some v;
     region := region d; altitude_min := altitude_min d;
     altitude_max := altitude_max d; conditions := conditions d;
     forecasts := forecasts d |}.

Definition set_region (v : json) (d : resort_data) : resort_data :=
  {| url := url d; name := name d; latitude := latitude d;
     longitude := longitude d; description := description d;
     region := Some v; altitude_min := altitude_min d;
     altitude_max := altitude_max d; conditions := conditions d;
     forecasts := forecasts d |}.

Definition set_altitude (lo hi : Z) (d : resort_data) : resort_data :=
  {| url := url d; name := name d; latitude := latitude d;
     longitude := longitude d; description := description d;
     region := region d; altitude_min := Some lo;
     altitude_max := Some hi; conditions := conditions d;
     forecasts := forecasts d |}.

Definition set_conditions (c : conditions_dict) (d : resort_data) : resort_data :=
  {| url := url d; name := name d; latitude := latitude d;
     longitude := longitude d; description := description d;
     region := region d; altitude_min := altitude_min d;
     altitude_max := altitude_max d; conditions := c;
     forecasts := forecasts d |}.

Definition set_forecasts (l : list forecast) (d : resort_data) : resort_data :=
  {| url := url d; name := name d; latitude := latitude d;
     longitude := longitude d; description := description d;
     region := region d; altitude_min := altitude_min d;
     altitude_max := altitude_max d; conditions := conditions d;
     forecasts := l |}.

Definition set_snow_depth_mountain (v : Z) (c : conditions_dict) : conditions_dict :=
  {| snow_depth_mountain := Some v; snow_depth_valley := snow_depth_valley c;
     status := status c |}.

Definition set_snow_depth_valley (v : Z) (c : conditions_dict) : conditions_dict :=
  {| snow_depth_mountain := snow_depth_mountain c; snow_depth_valley := Some v;
     status := status c |}.

Definition set_status (v : string) (c : conditions_dict) : conditions_dict :=
  {| snow_depth_mountain := snow_depth_mountain c;
     snow_depth_valley := snow_depth_valley c; status := Some v |}.

(** *** Statements that update [data] and may raise

    An exception leaves the assignments made before it in place. *)
Definition step (A : Type) : Type := resort_data -> resort_data * result A.

Definition pure {A} (a : A) : step A := fun d => (d, Ok a).

Definition lift {A} (r : result A) : step A := fun d => (d, r).

Definition assign (f : resort_data -> resort_data) : step unit :=
  fun d => (f d, Ok ()).

Definition and_then {A B} (m : step A) (k : A -> step B) : step B :=
  fun d =>
    match m d with
    | (d', Ok a) => k a d'
    | (d', Raise e) => (d', Raise e)
    end.

Notation "'let*' x ':=' m 'in' k" := (and_then m (fun x => k))
  (at level 10, x name, m at level 100, k at level 200, only parsing).

Fixpoint for_each {A} (body : A -> step unit) (l : list A) : step unit :=
  match l with
  | [] => pure ()
  | x :: rest => let* _ := body x in for_each body rest
  end.

(** [try: m  except (e1, ...): continue] *)
Definition skipping (caught : list exn) (m : step unit) : step unit :=
  fun d =>
    match m d with
    | (d', Raise e) =>
        if bool_decide (e ∈ caught) then (d', Ok ()) else (d', Raise e)
    | other => other
    end.

Section Bergfex.
Context `{RT : PyRuntime} `{PF : Platform} `{MK : Markup} (cfg : config.t).
Variable net : nat -> reply.

(** [float(x)] on a JSON value: a number that is beyond the range of
    the doubles is an [int], on which [float] raises. *)
Definition to_float (x : json) : result float :=
  match x with
  | JNum (Fin q) => q' ← or_raise OverflowError (double q); Ok (Fin q')
  | JNum x => Ok x
  | JBool b => Ok (Fin (if b then 1%Q else 0%Q))
  | JStr s => or_raise ValueError (py_float s)
  | _ => Raise TypeError
  end.

(** The body of [for item in items] in the JSON-LD pass. *)
Definition read_item (item : json) : step unit :=
  let* type := lift (dict_get item "@type") in
  let* wanted := (if json_eqb_str type "SkiResort" then pure true
                  else lift (str_in "geo" item)) in
  if wanted : bool then
    let* geo := lift (dict_get_default item "geo" (JObj [])) in
    let* _ := (if truthy geo then
                 let* lat := lift (v ← dict_get geo "latitude"; to_float v) in
                 let* _ := assign (set_latitude lat) in
                 let* lng := lift (v ← dict_get geo "longitude"; to_float v) in
                 assign (set_longitude lng)
               else pure ()) in
    let* described := lift (str_in "description" item) in
    let* _ := (if described : bool then
                 let* text := lift (v ← getitem item "description";
                                    slice_to 1000 v) in
                 assign (set_description text)
               else pure ()) in
    let* addressed := lift (str_in "address" item) in
    if addressed : bool then
      let* area := lift (v ← getitem item "address";
                         dict_get v "addressRegion") in
      assign (set_region area)
    else pure ()
  else pure ().

(** The body of [for script in scripts]. *)
Definition read_script (sc : script) : step unit :=
  skipping [JSONDecodeError; TypeError; ValueError; KeyError]
    (let* js_data := lift (match sc with
                           | NoString => Raise TypeError
                           | IllFormed => Raise JSONDecodeError
                           | Parsed j => Ok j
                           end) in
     let items := match js_data with JArr l => l | _ => [js_data] end in
     for_each read_item items).

(** Passes 1, 3, 4 and 5 read the document only. *)
Definition read_title (sp : soup) : step unit :=
  match h1 sp with
  | Some text => assign (set_name text)
  | None => pure ()
  end.

Definition read_altitude (sp : soup) : step unit :=
  match altitude_elem sp with
  | (lo, hi) :: _ => assign (set_altitude lo hi)
  | [] => pure ()
  end.

(** The value next to a label: [find_parent().find_next_sibling()],
    then the first integer of its text. *)
Definition labelled_value (label : option (option string)) : option Z :=
  sibling ← label; text ← sibling; first_int text.

Definition read_snow (sp : soup) : step unit :=
  if snow_info sp then pure ()
  else
    let* _ := (match labelled_value (mountain_label sp) with
               | Some n => assign (fun d =>
                   set_conditions (set_snow_depth_mountain n (conditions d)) d)
               | None => pure ()
               end) in
    match labelled_value (valley_label sp) with
    | Some n => assign (fun d =>
        set_conditions (set_snow_depth_valley n (conditions d)) d)
    | None => pure ()
    end.

Definition classify_status (text : string) : string :=
  let status_text := lower text in
  if contains "open" status_text then "open"
  else if contains "closed" status_text then "closed"
  else "partial".

Definition read_status (sp : soup) : step unit :=
  match status_elem sp with
  | Some text => assign (fun d =>
      set_conditions (set_status (classify_status text) (conditions d)) d)
  | None => pure ()
  end.

(** *** [scrape_forecast] *)

(** [resort_url.rstrip('/')] *)
Fixpoint rstrip_slash (s : string) : string :=
  match s with
  | EmptyString => EmptyString
  | String c s' =>
      match rstrip_slash s' with
      | EmptyString => if Ascii.eqb c "/"%char then EmptyString
                       else String c EmptyString
      | t => String c t
      end
  end.

Definition day : Z := 24 * hour.

(** [datetime.now()] with the time of day set to zero. *)
Definition midnight (s : state) : Z := now s / day * day.

(** [max(vals)] and [min(vals)] on a list that is not empty. *)
Definition max_list (x : float) (l : list float) : float :=
  fold_left max_float l x.
Definition min_list (x : float) (l : list float) : float :=
  fold_left min_float l x.

(** The body of [for i, day_el in enumerate(days[:7])], up to the
    [forecasts.append].  The module never imports [os], so the lookup of
    [os.path.basename] raises [NameError]. *)
Definition read_day (current_date : Z) (i : nat) (el : day_el) : result forecast :=
  let vals := omap (fun t => float_of_digits <$> first_signed_int t)
                (temps el) in
  let '(hi, lo) :=
    match vals with
    | v :: (_ :: _) as rest =>
        (Some (JNum (max_list v rest)), Some (JNum (min_list v rest)))
    | _ => (None, None)
    end in
  let snow :=
    match snow_el el with
    | Some text => (fun n => JNum (inject_Z n)) <$> first_int text
    | None => Some (JNum 0%Q)
    end in
  sym ← match img el with
        | Some src => Raise NameError
        | None => Ok None
        end;
  Ok {| date := Naive (current_date + Z.of_nat i * day);
        temp_max := hi; temp_min := lo;
        snow_forecast_cm := snow; symbol := sym |}.

Fixpoint read_days (current_date : Z) (i : nat) (days : list day_el)
  : result (list forecast) :=
  match days with
  | [] => Ok []
  | el :: rest =>
      f ← read_day current_date i el;
      fs ← read_days current_date (S i) rest;
      Ok (f :: fs)
  end.

(** The part of [scrape_forecast] under [try]; any exception gives
    the empty list. *)
Definition forecast_of_soup (current_date : Z) (sp : soup) : list forecast :=
  match forecast_container sp with
  | None => []
  | Some days =>
      match read_days current_date 0 (take 7 days) with
      | Ok forecasts => forecasts
      | Raise _ => []
      end
  end.

Definition scrape_forecast (resort_url : string) (s : state)
  : state * result (list forecast) :=
  let forecast_url := rstrip_slash resort_url +:+ "/wetter/prognose/" in
  match fetch_url cfg net forecast_url true s with
  | Raise e => (s, Raise e)
  | Ok (s, html) =>
      if negb (truthy html) then (s, Ok [])
      else match parse_html html with
           | Raise e => (s, Raise e)
           | Ok sp => (s, Ok (forecast_of_soup (midnight s) sp))
           end
  end.

(** *** [scrape_resort] *)

(** The statements under [try], before the forecast. *)
Definition read_resort (sp : soup) : step unit :=
  let* _ := read_title sp in
  let* _ := for_each read_script (ld_json sp) in
  let* _ := read_altitude sp in
  let* _ := read_snow sp in
  read_status sp.

(** [scrape_resort]: the scraper after the call, and the dictionary
    returned or [None].  An exception raised before the [try] leaves the
    function; one raised under it gives [None]. *)
Definition scrape_resort (resort_url : string) (s : state)
  : result (state * option resort_data) :=
  '(s, html) ← fetch_url cfg net resort_url true s;
  if negb (truthy html) then Ok (s, None)
  else
    sp ← parse_html html;
    match read_resort sp (initial_data resort_url) with
    | (_, Raise _) => Ok (s, None)
    | (data, Ok _) =>
        match scrape_forecast resort_url s with
        | (s, Raise _) => Ok (s, None)
        | (s, Ok forecast_data) =>
            Ok (s, Some (match forecast_data with
                         | [] => data
                         | _ => set_forecasts forecast_data data
                         end))
        end
    end.

End Bergfex.
End bergfex_scraper.

(** ** [scrapers/weather_service.py] *)

Module weather_service.
Import base_scraper bergfex_scraper.

Section Weather.
Context `{RT : PyRuntime} `{PF : Platform}.

(** [int(x)] on a JSON value. *)
Definition to_int (x : json) : result Z :=
  match x with
  | JNum (Fin q) => Ok (Qtrunc q)
  | JNum (Inf _) => Raise OverflowError
  | JNum NaN => Raise ValueError
  | JBool b => Ok (if b then 1 else 0)
  | JStr s => or_raise ValueError (py_int s)
  | _ => Raise TypeError
  end.

(** The table of [_map_weather_code]. *)
Definition mapping : list (Z * string) :=
  [ (0, "sunny"); (1, "mostly_sunny"); (2, "partly_cloudy"); (3, "cloudy");
    (45, "fog"); (48, "fog");
    (51, "drizzle"); (53, "drizzle"); (55, "drizzle");
    (61, "rain"); (63, "rain"); (65, "rain");
    (71, "snow"); (73, "snow"); (75, "snow"); (77, "snow_grains");
    (80, "rain_showers"); (81, "rain_showers"); (82, "rain_showers");
    (85, "snow_showers"); (86, "snow_showers"); (95, "thunderstorm") ].

Definition lookup_code (q : Q) : string :=
  default "unknown"
    (snd <$> List.find (fun kv => Qeq_bool q (inject_Z (fst kv))) mapping).

(** [_map_weather_code]: [mapping.get(code, "unknown")]; a list or a
    dictionary cannot be hashed. *)
Definition _map_weather_code (code : json) : result string :=
  match code with
  | JNum (Fin q) => Ok (lookup_code q)
  | JBool b => Ok (lookup_code (if b then 1 else 0))
  | JNum _ | JStr _ | JNull => Ok "unknown"
  | JArr _ | JObj _ => Raise TypeError
  end.

(** One iteration of [for i in range(len(daily["time"]))]. *)
Definition forecast_at (daily : json) (i : nat) : result forecast :=
  time ← getitem daily "time";
  t ← getindex time i;
  when ← fromisoformat_value t;
  highs ← getitem daily "temperature_2m_max";
  hi ← getindex highs i;
  lows ← getitem daily "temperature_2m_min";
  lo ← getindex lows i;
  snowfall ← getitem daily "snowfall_sum";
  sn ← getindex snowfall i;
  cm ← to_int sn;
  codes ← getitem daily "weathercode";
  code ← getindex codes i;
  sym ← _map_weather_code code;
  Ok {| date := when; temp_max := Some hi; temp_min := Some lo;
        snow_forecast_cm := Some (JNum (inject_Z cm));
        symbol := Some (JStr sym) |}.

Fixpoint forecasts_from (daily : json) (i count : nat) : result (list forecast) :=
  match count with
  | O => Ok []
  | S count' =>
      f ← forecast_at daily i;
      fs ← forecasts_from daily (S i) count';
      Ok (f :: fs)
  end.

(** [get_forecast], on what [requests.get], [raise_for_status] and
    [response.json()] deliver: the decoded body, or [None] when one of
    them raises. *)
Definition get_forecast (response : option json) : list forecast :=
  let body :=
    data ← or_raise RequestException response;
    has_daily ← str_in "daily" data;
    if negb has_daily then Ok []
    else
      daily ← getitem data "daily";
      time ← getitem daily "time";
      n ← len time;
      forecasts_from daily 0 n in
  match body with
  | Ok forecasts => forecasts
  | Raise _ => []
  end.

End Weather.
End weather_service.

(** ** A concrete runtime

    Instances of the library interfaces on which the model can be run.
    They agree with the libraries on the inputs used below: decimal
    numerals for [int] and [float] and the texts [nan], [inf] and [-inf],
    numbers that are doubles, timestamps rendered as decimal microsecond
    counts, a cache path that is the key itself, a distance taken on a
    flat grid of 111 km per degree, and a database that returns the rows
    in the order of the table. *)

Module runtime.
Import base_scraper bergfex_scraper.

Definition decimal_int (s : string) : option Z :=
  Z.of_int <$> DecimalString.NilZero.int_of_string s.

(** The text before and after the first ["."]. *)
Fixpoint split_dot (s : string) : string * option string :=
  match s with
  | EmptyString => (EmptyString, None)
  | String c s' =>
      if Ascii.eqb c "."%char then (EmptyString, Some s')
      else let '(w, f) := split_dot s' in (String c w, f)
  end.

Definition decimal_number (s : string) : option Q :=
  match split_dot s with
  | (w, None) => inject_Z <$> decimal_int w
  | (w, Some f) =>
      whole ← decimal_int w;
      frac ← DecimalString.NilZero.uint_of_string f;
      let scale := (10 ^ Z.of_nat (String.length f))%Z in
      let part := Z.of_uint frac in
      Some (if is_prefix "-" w then (whole * scale - part) # Z.to_pos scale
            else (whole * scale + part) # Z.to_pos scale)
  end.

Definition decimal_float (s : string) : option float :=
  if String.eqb s "nan" then Some NaN
  else if String.eqb s "inf" then Some (Inf false)
  else if String.eqb s "-inf" then Some (Inf true)
  else Fin <$> decimal_number s.

Definition Qabs_diff (a b : Q) : Q := Qabs (a - b).

Definition grid_km (p : float * float) (q : Q * Q) : option Q :=
  match p with
  | (Fin lat, Fin lng) =>
      if (Qle_bool (-90) lat && Qle_bool lat 90
          && Qle_bool (-90) (fst q) && Qle_bool (fst q) 90)%bool
      then Some (Qred (111 * (Qabs_diff lat (fst q) + Qabs_diff lng (snd q))))
      else None
  | _ => None
  end.

Definition round_tenth (d : Q) : Q := Qred (inject_Z (Qfloor (d * 10 + (1 # 2))) / 10).

#[export] Instance decimal_runtime : PyRuntime := {|
  py_int := decimal_int;
  py_float := decimal_float;
  double := Some;
  geodesic_km := grid_km;
  round1 := round_tenth
|}.

Definition epoch_isoformat (t : Z) : string :=
  DecimalString.NilZero.string_of_int (Z.to_int t).

Definition epoch_fromisoformat (s : string) : option datetime :=
  (fun d => Naive (Z.of_int d)) <$> DecimalString.NilZero.int_of_string s.

Lemma epoch_roundtrip (t : Z) :
  epoch_fromisoformat (epoch_isoformat t) = Some (Naive t).
Proof.
  unfold epoch_fromisoformat, epoch_isoformat.
  rewrite DecimalString.NilZero.isi.
  - simpl. now rewrite DecimalZ.of_to.
  - destruct t; simpl; try discriminate.
    intros [= H]. now apply DecimalPos.Unsigned.to_uint_nonnil in H.
  - destruct t; simpl; try discriminate.
    intros [= H]. now apply DecimalPos.Unsigned.to_uint_nonnil in H.
Qed.

#[export] Instance epoch_platform : Platform := {|
  md5_hex := fun key => key;
  isoformat := epoch_isoformat;
  fromisoformat := epoch_fromisoformat;
  fromisoformat_isoformat := epoch_roundtrip
|}.

#[export] Instance table_order : app.Database := {|
  app.fetch := fun db query => List.filter (app.matches query) db;
  app.fetch_matches := fun db query => Permutation_refl _
|}.

(** A document without any of the elements the scraper looks for. *)
Definition blank : soup := {|
  h1 := None; ld_json := []; altitude_elem := []; snow_info := false;
  mountain_label := None; valley_label := None; status_elem := None;
  forecast_container := None
|}.

(** A parser that knows the listed pages by their text. *)
Definition parse_listed (pages : list (string * soup)) (html : json)
  : result soup :=
  match html with
  | JStr text =>
      Ok (default blank
            (snd <$> List.find (fun p => String.eqb (fst p) text) pages))
  | _ => Raise TypeError
  end.

Definition listed (pages : list (string * soup)) : Markup :=
  {| parse_html := parse_listed pages |}.

End runtime.


(** ** Worked inputs *)

Module samples.
Import models.

(** Two resorts: 50 cm of snow at 80 a day, 100 cm at 60 a day. *)
Definition low_snow : Resort := {|
  id := 1; name := "Low"; slug := "low"; country := "Switzerland";
  region := None; latitude := 46; longitude := 7;
  conditions := Some {| snow_depth_valley := None;
                        snow_depth_mountain := Some 50%Z;
                        slopes_open_km := None; slopes_total_km := None;
                        status := None |};
  pricing := Some {| adult_day_pass := Some 80%Q; child_day_pass := None;
                     currency := None |}
|}.

Definition deep_snow : Resort := {|
  id := 2; name := "Deep"; slug := "deep"; country := "Switzerland";
  region := None; latitude := 46; longitude := 7;
  conditions := Some {| snow_depth_valley := None;
                        snow_depth_mountain := Some 100%Z;
                        slopes_open_km := None; slopes_total_km := None;
                        status := None |};
  pricing := Some {| adult_day_pass := Some 60%Q; child_day_pass := None;
                     currency := None |}
|}.

Definition two_resorts : list Resort := [low_snow; deep_snow].

(** [?min_snow=60&max_price=70] *)
Definition snow_and_price : gmap string string :=
  <["min_snow" := "60"]> (<["max_price" := "70"]> ∅).

(** A resort that is open under 120 cm of snow, and the request
    [?min_snow=60&status=open]. *)
Definition open_resort : Resort := {|
  id := 6; name := "Open"; slug := "open"; country := "Switzerland";
  region := None; latitude := 46; longitude := 7;
  conditions := Some {| snow_depth_valley := None;
                        snow_depth_mountain := Some 120%Z;
                        slopes_open_km := Some 40%Q; slopes_total_km := None;
                        status := Some "open" |};
  pricing := None
|}.

Definition snow_and_status : gmap string string :=
  <["min_snow" := "60"]> (<["status" := "open"]> ∅).

(** A resort without a pricing row, and one whose day pass costs 1200. *)
Definition unpriced : app.ResortDict := {|
  app.row := {| id := 3; name := "Alm"; slug := "alm";
                country := "Switzerland"; region := None;
                latitude := 46; longitude := 7;
                conditions := None; pricing := None |};
  app.distance_km := 5
|}.

Definition luxury : app.ResortDict := {|
  app.row := {| id := 4; name := "Zenith"; slug := "zenith";
                country := "Switzerland"; region := None;
                latitude := 46; longitude := 7;
                conditions := None;
                pricing := Some {| adult_day_pass := Some 1200%Q;
                                   child_day_pass := None;
                                   currency := None |} |};
  app.distance_km := 9
|}.

(** [?lat=46&lng=7], and the same with [min_snow=abc]. *)
Definition located : gmap string string :=
  <["lat" := "46"]> (<["lng" := "7"]> ∅).

Definition non_numeric_snow : gmap string string :=
  <["min_snow" := "abc"]> located.

(** [?lat=46&lng=7&country=&sort=altitude] *)
Definition empty_and_unknown : gmap string string :=
  <["country" := ""]> (<["sort" := "altitude"]> located).

(** A scraper that has not yet made a request, at a time well after the
    epoch, with an empty cache directory. *)
Definition fresh : base_scraper.state := {|
  base_scraper.now := 1700000000 * base_scraper.second;
  base_scraper.last_request_time := 0;
  base_scraper.files := ∅;
  base_scraper.sent := [];
  base_scraper.slept := []
|}.

(** A server that refuses every connection at once; one that answers the
    third request. *)
Definition down : nat -> base_scraper.reply :=
  fun _ => base_scraper.Failed 0.

Definition flaky : nat -> base_scraper.reply :=
  fun n => if (n <? 2)%nat then base_scraper.Failed 0
           else base_scraper.Replied 0 "<html>ok</html>".

Definition zermatt_url : string := "https://www.bergfex.com/zermatt/".

(** The cache after an empty document was stored for the URL. *)
Definition cached_empty : base_scraper.state :=
  base_scraper._set_cached (PF := runtime.epoch_platform) fresh zermatt_url "".

(** A cache whose entry for the URL is the well-formed JSON text [[]]. *)
Definition wrong_shape : base_scraper.state := {|
  base_scraper.now := base_scraper.now fresh;
  base_scraper.last_request_time := 0;
  base_scraper.files :=
    {[ base_scraper._get_cache_path (PF := runtime.epoch_platform) zermatt_url
       := base_scraper.JsonFile (JArr []) ]};
  base_scraper.sent := [];
  base_scraper.slept := []
|}.

(** The resort page of the URL.  Its text stands for a document with
    the heading [<h1>Zermatt</h1>], one JSON-LD block of type SkiResort
    whose [address] is the plain string "Zermatt, Switzerland", the
    altitude line "1620m - 3883m", a "Mountain:" label followed by
    "180 cm" and a status label "Open". *)
Definition zermatt_text : string := "<html>Zermatt</html>".

Definition zermatt_page : bergfex_scraper.soup := {|
  bergfex_scraper.h1 := Some "Zermatt";
  bergfex_scraper.ld_json :=
    [ bergfex_scraper.Parsed
        (JObj [ ("@type", JStr "SkiResort");
                ("address", JStr "Zermatt, Switzerland") ]) ];
  bergfex_scraper.altitude_elem := [(1620, 3883)];
  bergfex_scraper.snow_info := false;
  bergfex_scraper.mountain_label := Some (Some "180 cm");
  bergfex_scraper.valley_label := None;
  bergfex_scraper.status_elem := Some "Open";
  bergfex_scraper.forecast_container := None
|}.

(** The same page with the address written as an object. *)
Definition verbier_text : string := "<html>Verbier</html>".

Definition verbier_page : bergfex_scraper.soup := {|
  bergfex_scraper.h1 := Some "Verbier";
  bergfex_scraper.ld_json :=
    [ bergfex_scraper.Parsed
        (JObj [ ("@type", JStr "SkiResort");
                ("address", JObj [("addressRegion", JStr "Valais")]) ]) ];
  bergfex_scraper.altitude_elem := [(1500, 3330)];
  bergfex_scraper.snow_info := false;
  bergfex_scraper.mountain_label := Some (Some "195 cm");
  bergfex_scraper.valley_label := None;
  bergfex_scraper.status_elem := Some "Open";
  bergfex_scraper.forecast_container := None
|}.

(** A forecast page with one day: temperatures -3 and -10, and a snow
    element whose text is a dash. *)
Definition forecast_text : string := "<html>Prognose</html>".

Definition forecast_page : bergfex_scraper.soup := {|
  bergfex_scraper.h1 := None;
  bergfex_scraper.ld_json := [];
  bergfex_scraper.altitude_elem := [];
  bergfex_scraper.snow_info := false;
  bergfex_scraper.mountain_label := None;
  bergfex_scraper.valley_label := None;
  bergfex_scraper.status_elem := None;
  bergfex_scraper.forecast_container :=
    Some [ {| bergfex_scraper.temps := ["-3"; "-10"];
              bergfex_scraper.snow_el := Some "-";
              bergfex_scraper.img := None |} ]
|}.

Definition pages : bergfex_scraper.Markup :=
  runtime.listed [ (zermatt_text, zermatt_page);
                   (verbier_text, verbier_page);
                   (forecast_text, forecast_page) ].

(** Servers that answer every request with one of the pages, and one
    that answers the resort page first and the forecast page next. *)
Definition serves (text : string) : nat -> base_scraper.reply :=
  fun _ => base_scraper.Replied 0 text.

Definition serves_both (first next : string) : nat -> base_scraper.reply :=
  fun n => base_scraper.Replied 0 (if (n =? 0)%nat then first else next).

End samples.
(* ===================================================================== *)
(** * Part II.  Properties                                               *)
(* ===================================================================== *)

(** ** The filter pipeline *)

Module filter_props.
Import models app.

(** The three filters on a column of [Conditions]. *)
Definition conditions_keys : list string := ["min_snow"; "status"; "min_slopes"].

Section FilterPipeline.
Context `{RT : PyRuntime} `{DB : Database}.

(** A filter value is present when the specification holds the key
    with a value that is not empty. *)
Definition present (filters : gmap string string) (k v : string) : Prop :=
  filters !! k = Some v /\ v <> "".

(** The numeric filter values that are present can be coerced. *)
Definition well_typed (filters : gmap string string) : Prop :=
  (forall v, present filters "min_snow" v -> is_Some (py_int v)) /\
  (forall v, present filters "min_slopes" v -> is_Some (py_float v)) /\
  (forall v, present filters "max_price" v -> is_Some (py_float v)).

(** The five predicates; each one binds only when its value is
    present. *)
Definition min_snow_ok (filters : gmap string string) (r : Resort) : Prop :=
  forall v, present filters "min_snow" v ->
    exists n c d, py_int v = Some n /\ conditions r = Some c /\
                  snow_depth_mountain c = Some d /\ (n <= d)%Z.

Definition status_ok (filters : gmap string string) (r : Resort) : Prop :=
  forall v, present filters "status" v ->
    exists c, conditions r = Some c /\ status c = Some v.

Definition min_slopes_ok (filters : gmap string string) (r : Resort) : Prop :=
  forall v, present filters "min_slopes" v ->
    exists x c d, py_float v = Some x /\ conditions r = Some c /\
                  slopes_open_km c = Some d /\ float_le x (Fin d) = true.

Definition max_price_ok (filters : gmap string string) (r : Resort) : Prop :=
  forall v, present filters "max_price" v ->
    exists x p d, py_float v = Some x /\ pricing r = Some p /\
                  adult_day_pass p = Some d /\ float_le (Fin d) x = true.

Definition country_ok (filters : gmap string string) (r : Resort) : Prop :=
  forall v, present filters "country" v -> country r = v.

Definition survives (filters : gmap string string) (r : Resort) : Prop :=
  min_snow_ok filters r /\ status_ok filters r /\ min_slopes_ok filters r /\
  max_price_ok filters r /\ country_ok filters r.

(** Two filters on a column of [Conditions] are present. *)
Definition two_conditions_filters (filters : gmap string string) : Prop :=
  exists k k' v v', k ∈ conditions_keys /\ k' ∈ conditions_keys /\ k <> k' /\
                    present filters k v /\ present filters k' v'.

(** [given] reads the values that are present. *)
Lemma given_present (filters : gmap string string) (k v : string) :
  present filters k v <-> given filters k = Some v.
Proof.
  unfold present, given. destruct (filters !! k) as [w|]; [|by split; [intros []|]].
  case_bool_decide as Hw.
  - split; [intros [[= ->] ?]; done|done].
  - split; [by intros [[= ->] _]|by intros [= ->]].
Qed.

Lemma col_ge_int_true (col : option Z) (n : Z) :
  col_ge_int col n = true <-> exists d, col = Some d /\ (n <= d)%Z.
Proof.
  destruct col as [d|]; simpl.
  - rewrite Z.leb_le. split; [eauto | intros (? & [= <-] & ?); done].
  - split; [discriminate | intros (? & ? & ?); discriminate].
Qed.

Lemma col_ge_true (col : option Q) (x : float) :
  col_ge col x = true <-> exists d, col = Some d /\ float_le x (Fin d) = true.
Proof.
  destruct col as [d|]; simpl.
  - split; [eauto | intros (? & [= <-] & ?); done].
  - split; [discriminate | intros (? & ? & ?); discriminate].
Qed.

Lemma col_le_true (col : option Q) (x : float) :
  col_le col x = true <-> exists d, col = Some d /\ float_le (Fin d) x = true.
Proof.
  destruct col as [d|]; simpl.
  - split; [eauto | intros (? & [= <-] & ?); done].
  - split; [discriminate | intros (? & ? & ?); discriminate].
Qed.

Lemma col_eq_true (col : option string) (s : string) :
  col_eq col s = true <-> col = Some s.
Proof.
  destruct col as [d|]; simpl.
  - rewrite String.eqb_eq. split; [intros ->; done | intros [= ->]; done].
  - split; discriminate.
Qed.

(** A clause on a joined table passes when the resort has a row in that
    table on which the comparison holds. *)
Lemma passes_conditions (t : conditions_test) (r : Resort) :
  passes (join_conditions t) r = true <->
  exists c, conditions r = Some c /\ conditions_holds t c = true.
Proof.
  simpl. destruct (conditions r) as [c|].
  - split; [eauto | by intros (? & [= <-] & ?)].
  - split; [discriminate | by intros (? & ? & ?)].
Qed.

Lemma passes_pricing (t : pricing_test) (r : Resort) :
  passes (join_pricing t) r = true <->
  exists p, pricing r = Some p /\ pricing_holds t p = true.
Proof.
  simpl. destruct (pricing r) as [p|].
  - split; [eauto | by intros (? & [= <-] & ?)].
  - split; [discriminate | by intros (? & ? & ?)].
Qed.

Lemma passes_min_snow (n : Z) (r : Resort) :
  passes (join_conditions (snow_depth_mountain_ge n)) r = true <->
  exists c d, conditions r = Some c /\ snow_depth_mountain c = Some d /\
              (n <= d)%Z.
Proof.
  rewrite passes_conditions. cbn [conditions_holds].
  setoid_rewrite col_ge_int_true. split.
  - intros (c & Hc & d & Hd & Hle). by exists c, d.
  - intros (c & d & Hc & Hd & Hle). exists c. split; [done|]. by exists d.
Qed.

Lemma passes_status (v : string) (r : Resort) :
  passes (join_conditions (status_eq v)) r = true <->
  exists c, conditions r = Some c /\ status c = Some v.
Proof.
  rewrite passes_conditions. cbn [conditions_holds].
  by setoid_rewrite col_eq_true.
Qed.

Lemma passes_min_slopes (x : float) (r : Resort) :
  passes (join_conditions (slopes_open_km_ge x)) r = true <->
  exists c d, conditions r = Some c /\ slopes_open_km c = Some d /\
              float_le x (Fin d) = true.
Proof.
  rewrite passes_conditions. cbn [conditions_holds].
  setoid_rewrite col_ge_true. split.
  - intros (c & Hc & d & Hd & Hle). by exists c, d.
  - intros (c & d & Hc & Hd & Hle). exists c. split; [done|]. by exists d.
Qed.

Lemma passes_max_price (x : float) (r : Resort) :
  passes (join_pricing (adult_day_pass_le x)) r = true <->
  exists p d, pricing r = Some p /\ adult_day_pass p = Some d /\
              float_le (Fin d) x = true.
Proof.
  rewrite passes_pricing. cbn [pricing_holds].
  setoid_rewrite col_le_true. split.
  - intros (c & Hc & d & Hd & Hle). by exists c, d.
  - intros (c & d & Hc & Hd & Hle). exists c. split; [done|]. by exists d.
Qed.

Lemma passes_country (v : string) (r : Resort) :
  passes (filter_resort (country_eq v)) r = true <-> country r = v.
Proof. cbn [passes resort_holds]. apply String.eqb_eq. Qed.

Lemma matches_cons (c : clause) (query : Query) (r : Resort) :
  matches (c :: query) r = true <-> passes c r = true /\ matches query r = true.
Proof. unfold matches. cbn [forallb]. apply andb_true_iff. Qed.

Lemma matches_nil (r : Resort) : matches [] r = true <-> True.
Proof. done. Qed.

(** The clauses that [apply_filters] adds say what the five predicates
    say. *)
Lemma apply_filters_survives (filters : gmap string string) (query : Query)
    (r : Resort) :
  apply_filters [] filters = Ok query ->
  matches query r = true <-> survives filters r.
Proof.
  unfold apply_filters, survives, min_snow_ok, status_ok, min_slopes_ok,
    max_price_ok, country_ok.
  repeat setoid_rewrite given_present.
  destruct (given filters "min_snow") as [v1|] eqn:E1;
    [destruct (py_int v1) as [n|] eqn:P1; [|discriminate]|];
  (destruct (given filters "status") as [v2|] eqn:E2);
  (destruct (given filters "min_slopes") as [v3|] eqn:E3;
    [destruct (py_float v3) as [x3|] eqn:P3; [|discriminate]|]);
  (destruct (given filters "max_price") as [v4|] eqn:E4;
    [destruct (py_float v4) as [x4|] eqn:P4; [|discriminate]|]);
  (destruct (given filters "country") as [v5|] eqn:E5);
  cbn [mbind result_bind or_raise app]; intros [= <-].
  all: rewrite ?matches_cons, ?matches_nil, ?passes_min_snow, ?passes_status,
         ?passes_min_slopes, ?passes_max_price, ?passes_country.
  all: split.
  all: try (intros Hin; repeat match goal with
            | H : _ /\ _ |- _ => destruct H
            | H : exists _, _ |- _ => destruct H
            end;
            repeat split; try assumption;
            intros ? [= <-]; eauto 10).
  all: intros (H1 & H2 & H3 & H4 & H5).
  all: try specialize (H1 _ eq_refl) as (? & ? & ? & ? & ? & ? & ?).
  all: try specialize (H2 _ eq_refl) as (? & ? & ?).
  all: try specialize (H3 _ eq_refl) as (? & ? & ? & ? & ? & ? & ?).
  all: try specialize (H4 _ eq_refl) as (? & ? & ? & ? & ? & ? & ?).
  all: try specialize (H5 _ eq_refl).
  all: simplify_eq; eauto 15.
  all: repeat split; eauto 10.
Qed.

(** Values that convert give a query. *)
Lemma apply_filters_well_typed (filters : gmap string string) :
  well_typed filters -> exists query, apply_filters [] filters = Ok query.
Proof.
  unfold well_typed. repeat setoid_rewrite given_present.
  intros (Hsnow & Hslopes & Hprice). unfold apply_filters.
  destruct (given filters "min_snow") as [v1|] eqn:E1;
    [destruct (Hsnow v1 eq_refl) as [n Hn]; rewrite Hn|];
  (destruct (given filters "status") as [v2|] eqn:E2);
  (destruct (given filters "min_slopes") as [v3|] eqn:E3;
    [destruct (Hslopes v3 eq_refl) as [x3 Hx3]; rewrite Hx3|]);
  (destruct (given filters "max_price") as [v4|] eqn:E4;
    [destruct (Hprice v4 eq_refl) as [x4 Hx4]; rewrite Hx4|]);
  (destruct (given filters "country") as [v5|] eqn:E5);
  cbn; by eexists.
Qed.

(** Each filter on a column of [Conditions] joins the table once more. *)
Lemma apply_filters_joins (filters : gmap string string) (query : Query) :
  apply_filters [] filters = Ok query ->
  length (List.filter joins_conditions query)
  = length (omap (given filters) conditions_keys) /\
  (length (List.filter joins_pricing query) <= 1)%nat.
Proof.
  unfold apply_filters, conditions_keys.
  destruct (given filters "min_snow") as [v1|] eqn:E1;
    [destruct (py_int v1) as [n|] eqn:P1; [|discriminate]|];
  (destruct (given filters "status") as [v2|] eqn:E2);
  (destruct (given filters "min_slopes") as [v3|] eqn:E3;
    [destruct (py_float v3) as [x3|] eqn:P3; [|discriminate]|]);
  (destruct (given filters "max_price") as [v4|] eqn:E4;
    [destruct (py_float v4) as [x4|] eqn:P4; [|discriminate]|]);
  (destruct (given filters "country") as [v5|] eqn:E5);
  cbn; intros [= <-]; cbn; rewrite ?E1, ?E2, ?E3; cbn; split; lia.
Qed.

Lemma two_conditions_filters_counted (filters : gmap string string) :
  two_conditions_filters filters ->
  (2 <= length (omap (given filters) conditions_keys))%nat.
Proof.
  intros (k & k' & v & v' & Hk & Hk' & Hne & Hv & Hv').
  apply given_present in Hv, Hv'. unfold conditions_keys in *.
  repeat (apply elem_of_cons in Hk as [->|Hk]);
    try (by apply elem_of_nil in Hk);
  repeat (apply elem_of_cons in Hk' as [->|Hk']);
    try (by apply elem_of_nil in Hk');
  try done; cbn; rewrite ?Hv, ?Hv'; cbn;
  repeat match goal with
         | |- context [given filters ?key] =>
             destruct (given filters key); cbn
         end; lia.
Qed.

(** [C1] The conjunction is not what the code returns for every filter
    specification.  Each of [min_snow], [status] and [min_slopes] joins
    [Conditions]; when two of them are given, with values that convert,
    the statement names the table twice and the database rejects it:
    the query returns no resort at all, whatever the dataset, and
    [get_all_resorts] answers with the 500 response. *)
Theorem conditions_joined_twice (db : list Resort)
    (filters : gmap string string) :
  well_typed filters ->
  two_conditions_filters filters ->
  filtered_resorts db filters = Raise OperationalError /\
  get_all_resorts db filters = ListingError OperationalError.
Proof.
  intros Htyped Htwo.
  assert (H : filtered_resorts db filters = Raise OperationalError).
  { unfold filtered_resorts.
    destruct (apply_filters_well_typed filters Htyped) as [query Hq].
    rewrite Hq. cbn. unfold all.
    destruct (apply_filters_joins filters query Hq) as (Hjoins & _).
    apply two_conditions_filters_counted in Htwo.
    unfold ambiguous.
    assert (Nat.ltb 1 (length (List.filter joins_conditions query)) = true)
      as -> by (apply Nat.ltb_lt; lia).
    done. }
  split; [exact H|]. unfold get_all_resorts. by rewrite H.
Qed.

End FilterPipeline.

(** The request [?min_snow=60&status=open] on a table whose one resort
    is open under 120 cm of snow: the resort satisfies both predicates
    and is not returned.  The example of the specification, [min_snow=60]
    with [max_price=70], joins two different tables and yields the second
    resort. *)
Lemma conditions_joined_twice_witness :
  well_typed (RT := runtime.decimal_runtime) samples.snow_and_status /\
  two_conditions_filters samples.snow_and_status /\
  survives (RT := runtime.decimal_runtime) samples.snow_and_status
    samples.open_resort /\
  filtered_resorts (RT := runtime.decimal_runtime)
    (DB := runtime.table_order) [samples.open_resort] samples.snow_and_status
  = Raise OperationalError /\
  get_all_resorts (RT := runtime.decimal_runtime)
    (DB := runtime.table_order) [samples.open_resort] samples.snow_and_status
  = ListingError OperationalError /\
  filtered_resorts (RT := runtime.decimal_runtime)
    (DB := runtime.table_order) samples.two_resorts samples.snow_and_price
  = Ok [samples.deep_snow].
Proof.
  assert (Htyped : well_typed (RT := runtime.decimal_runtime)
                     samples.snow_and_status).
  { repeat split; intros v [Hv _]; vm_compute in Hv; inversion Hv; subst;
      vm_compute; eauto. }
  assert (Htwo : two_conditions_filters samples.snow_and_status).
  { exists "min_snow", "status", "60", "open". unfold conditions_keys.
    split; [apply list_elem_of_here|].
    split; [apply list_elem_of_further, list_elem_of_here|].
    split; [discriminate|]. by split. }
  split; [exact Htyped|]. split; [exact Htwo|].
  split.
  { repeat split; intros v [Hv _]; vm_compute in Hv; inversion Hv; subst.
    - exists 60%Z. do 2 eexists. repeat split; try reflexivity.
      vm_compute. discriminate.
    - eexists. split; reflexivity. }
  destruct (conditions_joined_twice (RT := runtime.decimal_runtime)
              (DB := runtime.table_order) [samples.open_resort]
              samples.snow_and_status Htyped Htwo) as (Hrows & Hroute).
  split; [exact Hrows|]. split; [exact Hroute|].
  vm_compute. reflexivity.
Defined.

End filter_props.

(** ** Sorting *)

Module sort_props.

Section StableSort.
Context {A : Type} (le : A -> A -> bool).

Lemma insert_sorted_perm (x : A) (l : list A) :
  insert_sorted le x l ≡ₚ x :: l.
Proof.
  induction l as [|y l IH]; simpl; [done|].
  destruct (le x y); [done|].
  rewrite IH. apply Permutation_swap.
Qed.

Lemma stable_sort_perm (l : list A) : stable_sort le l ≡ₚ l.
Proof.
  induction l as [|x l IH]; simpl; [done|].
  now rewrite insert_sorted_perm, IH.
Qed.

Hypothesis le_total : forall a b, le a b = true \/ le b a = true.
Hypothesis le_trans : forall a b c, le a b = true -> le b c = true -> le a c = true.

Lemma insert_sorted_sorted (x : A) (l : list A) :
  StronglySorted (fun a b => le a b = true) l ->
  StronglySorted (fun a b => le a b = true) (insert_sorted le x l).
Proof.
  induction 1 as [|y l Hl IH Hy]; simpl.
  - repeat constructor.
  - destruct (le x y) eqn:Hxy.
    + constructor; [by constructor|].
      constructor; [done|].
      eapply Forall_impl; [exact Hy|]. intros z Hz. by eapply le_trans.
    + constructor; [done|].
      rewrite insert_sorted_perm. constructor; [|done].
      destruct (le_total x y) as [H|H]; [congruence|done].
Qed.

Lemma stable_sort_sorted (l : list A) :
  StronglySorted (fun a b => le a b = true) (stable_sort le l).
Proof.
  induction l as [|x l IH]; simpl; [constructor|].
  by apply insert_sorted_sorted.
Qed.

End StableSort.

(** The sort keeps the order of the input among elements that the order
    does not separate: for every class [p] of elements that never
    strictly follow one another, the elements of the class come out in
    the order they came in. *)
Lemma stable_sort_stable {A} (le : A -> A -> bool) (p : A -> bool) (l : list A) :
  (forall a b, p a = true -> p b = true -> le a b = true) ->
  List.filter p (stable_sort le l) = List.filter p l.
Proof.
  intros Hp. induction l as [|x l IH]; simpl; [done|].
  rewrite <- IH. clear IH.
  induction (stable_sort le l) as [|y s IHs]; simpl; [done|].
  destruct (le x y) eqn:Hxy; simpl; [done|].
  rewrite IHs.
  destruct (p x) eqn:Hx, (p y) eqn:Hy; try done.
  rewrite Hp in Hxy; done.
Qed.

Lemma strongly_sorted_lookup {A} (R : A -> A -> Prop) (l : list A)
    (i j : nat) (x y : A) :
  StronglySorted R l -> l !! i = Some x -> l !! j = Some y ->
  (i < j)%nat -> R x y.
Proof.
  intros Hs. revert i j. induction Hs as [|z l Hl IH Hz]; intros i j Hi Hj Hlt.
  - by rewrite lookup_nil in Hi.
  - destruct i as [|i], j as [|j]; try lia; simpl in *.
    + injection Hi as ->. rewrite Forall_forall in Hz.
      apply Hz. by eapply list_elem_of_lookup_2.
    + eapply IH; eauto. lia.
Qed.

End sort_props.

(** ** Sorting the search results by price *)

Module price_props.
Import models app sort_props.

(** The record has no pricing sub-record. *)
Definition lacks_pricing (x : ResortDict) : Prop := pricing (row x) = None.

(** The record has the adult day-pass price [p]. *)
Definition has_price (x : ResortDict) (p : Q) : Prop :=
  exists pr, pricing (row x) = Some pr /\ adult_day_pass pr = Some p.

(** "A record lacking pricing appears after all records that have
    pricing", positions counted from the front of the result. *)
Definition unpriced_after_priced (out : list ResortDict) : Prop :=
  forall i j x y, out !! i = Some x -> out !! j = Some y ->
    lacks_pricing x -> is_Some (pricing (row y)) -> (j < i)%nat.

Lemma price_order_total (k : ResortDict -> Q) (a b : ResortDict) :
  Qle_bool (k a) (k b) = true \/ Qle_bool (k b) (k a) = true.
Proof.
  rewrite !Qle_bool_iff.
  destruct (Qlt_le_dec (k b) (k a)) as [H|H]; [right|left]; auto.
  by apply Qlt_le_weak.
Qed.

Lemma price_order_trans (k : ResortDict -> Q) (a b c : ResortDict) :
  Qle_bool (k a) (k b) = true -> Qle_bool (k b) (k c) = true ->
  Qle_bool (k a) (k c) = true.
Proof. rewrite !Qle_bool_iff. apply Qle_trans. Qed.

(** [C8, amended] Sorting by [price] succeeds when every pricing row
    carries an adult day-pass price.  The result is a rearrangement of
    the input in ascending order of the sort key, where a record lacking
    pricing has the key 999; hence priced records come in ascending order
    of price, and a record lacking pricing comes after every record whose
    price is below 999, whatever the names. *)
Theorem sort_by_price_sentinel (l : list ResortDict) :
  (forall x, x ∈ l -> is_Some (price_key x)) ->
  exists out, sort_results "price" l = Ok out /\
    out ≡ₚ l /\
    (forall x, lacks_pricing x -> price_key x = Some 999%Q) /\
    (forall i j x y px py, out !! i = Some x -> out !! j = Some y ->
       (i < j)%nat -> price_key x = Some px -> price_key y = Some py ->
       (px <= py)%Q) /\
    (forall i j x y p, out !! i = Some x -> out !! j = Some y ->
       lacks_pricing x -> has_price y p -> (p < 999)%Q -> (j < i)%nat).
Proof.
  intros Hkeys.
  assert (Hlack : forall x, lacks_pricing x -> price_key x = Some 999%Q).
  { intros x Hx. unfold price_key. by rewrite Hx. }
  assert (Hsorted : exists out, sort_results "price" l = Ok out /\ out ≡ₚ l /\
    (forall i j x y px py, out !! i = Some x -> out !! j = Some y ->
       (i < j)%nat -> price_key x = Some px -> price_key y = Some py ->
       (px <= py)%Q)).
  { unfold sort_results. cbn [String.eqb Ascii.eqb Bool.eqb].
    unfold sort_by_number. case_bool_decide as Hlen.
    - exists l. repeat split; [done|].
      intros i j x y px py Hi Hj Hij _ _.
      apply lookup_lt_Some in Hj. lia.
    - destruct (forallb _ l) eqn:Hall.
      + eexists. split; [reflexivity|]. split; [apply stable_sort_perm|].
        intros i j x y px py Hi Hj Hij Hx Hy.
        pose proof (strongly_sorted_lookup _ _ i j x y
          (stable_sort_sorted _
             (price_order_total (fun z => default 0%Q (price_key z)))
             (price_order_trans (fun z => default 0%Q (price_key z))) l)
          Hi Hj Hij) as H.
        cbv beta in H. rewrite Hx, Hy in H. simpl in H.
        by apply Qle_bool_iff.
      + exfalso. apply not_true_iff_false in Hall. apply Hall.
        apply forallb_forall. intros x Hx. apply bool_decide_eq_true.
        apply Hkeys. by apply list_elem_of_In. }
  destruct Hsorted as (out & Hout & Hperm & Hasc).
  exists out. repeat split; try done.
  intros i j x y p Hi Hj Hx (pr & Hpr & Hp) Hlt.
  destruct (Nat.lt_trichotomy i j) as [Hij|[->|Hij]]; [|..|done].
  - exfalso. apply (Qlt_not_le _ _ Hlt).
    eapply (Hasc i j x y); eauto.
    unfold price_key. by rewrite Hpr.
  - rewrite Hi in Hj. injection Hj as ->.
    unfold lacks_pricing in Hx. congruence.
Qed.

(** The sample list: the unpriced resort, then the one at 1200. *)
Lemma sort_by_price_sentinel_witness :
  (forall x, x ∈ [samples.unpriced; samples.luxury] -> is_Some (price_key x)) /\
  exists out, sort_results "price" [samples.unpriced; samples.luxury] = Ok out /\
    out ≡ₚ [samples.unpriced; samples.luxury] /\
    (forall x, lacks_pricing x -> price_key x = Some 999%Q) /\
    (forall i j x y px py, out !! i = Some x -> out !! j = Some y ->
       (i < j)%nat -> price_key x = Some px -> price_key y = Some py ->
       (px <= py)%Q) /\
    (forall i j x y p, out !! i = Some x -> out !! j = Some y ->
       lacks_pricing x -> has_price y p -> (p < 999)%Q -> (j < i)%nat).
Proof.
  assert (H : forall x, x ∈ [samples.unpriced; samples.luxury] ->
                        is_Some (price_key x)).
  { intros x Hx. apply list_elem_of_In in Hx.
    destruct Hx as [<-|[<-|[]]]; vm_compute; eauto. }
  split; [exact H | exact (sort_by_price_sentinel _ H)].
Defined.

(** [C8, as stated] fails: sorted by price, the resort without pricing
    stays in front of the resort priced at 1200. *)
Lemma unpriced_before_expensive :
  sort_results "price" [samples.unpriced; samples.luxury]
    = Ok [samples.unpriced; samples.luxury] /\
  ~ unpriced_after_priced [samples.unpriced; samples.luxury].
Proof.
  split; [vm_compute; reflexivity|].
  intros H.
  specialize (H 0%nat 1%nat samples.unpriced samples.luxury
                eq_refl eq_refl eq_refl).
  assert (1 < 0)%nat; [|lia].
  apply H. vm_compute. eauto.
Qed.

End price_props.

(** ** Parameter issues of the search *)

Module search_props.
Import models app.

Definition filter_keys : list string :=
  ["min_snow"; "status"; "min_slopes"; "max_price"; "country"].

Definition sort_keys : list string := ["distance"; "name"; "price"; "snow"].

Section Search.
Context `{RT : PyRuntime} `{DB : Database} (cfg : config.t).

(** A numeric filter is given a value that does not convert. *)
Definition non_numeric (args : gmap string string) : Prop :=
  (exists v, given args "min_snow" = Some v /\ py_int v = None) \/
  (exists v, given args "min_slopes" = Some v /\ py_float v = None) \/
  (exists v, given args "max_price" = Some v /\ py_float v = None).

Lemma apply_filters_non_numeric (query : Query) (args : gmap string string) :
  non_numeric args -> apply_filters query args = Raise ValueError.
Proof.
  intros H. unfold apply_filters.
  destruct (given args "min_snow") as [v1|] eqn:E1;
    [destruct (py_int v1) as [n|] eqn:P1; [|reflexivity]|];
  (destruct (given args "status") as [v2|] eqn:E2);
  (destruct (given args "min_slopes") as [v3|] eqn:E3;
    [destruct (py_float v3) as [x3|] eqn:P3; [|reflexivity]|]);
  (destruct (given args "max_price") as [v4|] eqn:E4;
    [destruct (py_float v4) as [x4|] eqn:P4; [|reflexivity]|]);
  exfalso;
  destruct H as [(v & Hv & Hp)|[(v & Hv & Hp)|(v & Hv & Hp)]];
  congruence.
Qed.

Lemma apply_filters_ext (query : Query) (f g : gmap string string) :
  (forall k, given f k = given g k) ->
  apply_filters query f = apply_filters query g.
Proof. intros H. unfold apply_filters. by rewrite !H. Qed.

Lemma given_delete_empty (args : gmap string string) (k k' : string) :
  args !! k = Some "" -> given (delete k args) k' = given args k'.
Proof.
  intros Hk. unfold given. destruct (decide (k = k')) as [<-|Hne].
  - rewrite lookup_delete_eq, Hk. by rewrite bool_decide_eq_true_2.
  - by rewrite lookup_delete_ne.
Qed.

Lemma sort_results_unrecognized (k : string) (l : list ResortDict) :
  k ∉ sort_keys -> sort_results k l = Ok l.
Proof.
  intros Hk. unfold sort_results.
  destruct (String.eqb_spec k "distance") as [->|_];
    [exfalso; apply Hk;
     repeat first [apply list_elem_of_here | apply list_elem_of_further]|].
  destruct (String.eqb_spec k "name") as [->|_];
    [exfalso; apply Hk;
     repeat first [apply list_elem_of_here | apply list_elem_of_further]|].
  destruct (String.eqb_spec k "price") as [->|_];
    [exfalso; apply Hk;
     repeat first [apply list_elem_of_here | apply list_elem_of_further]|].
  destruct (String.eqb_spec k "snow") as [->|_];
    [exfalso; apply Hk;
     repeat first [apply list_elem_of_here | apply list_elem_of_further]|].
  reflexivity.
Qed.

(** [C7, amended] The search answers 400 when [lat] or [lng] is missing
    or is not a number.  With both coordinates, a [min_snow],
    [min_slopes] or [max_price] value that is given and does not convert
    to a number makes the request fail with the 500 response.  A filter
    given the empty value constrains nothing: the answer is the one
    obtained without the parameter.  A sort key that is not recognised
    does not fail the request either: the results are returned in the
    order in which they passed the filters. *)
Theorem search_parameter_issues (db : list Resort) (args : gmap string string) :
  ((args_get_float args "lat" = None \/ args_get_float args "lng" = None) ->
   search_resorts cfg db args = BadRequest "Missing lat or lng parameters") /\
  (is_Some (args_get_float args "lat") -> is_Some (args_get_float args "lng") ->
   non_numeric args ->
   search_resorts cfg db args = ServerError ValueError) /\
  (forall k, k ∈ filter_keys -> args !! k = Some "" ->
   search_resorts cfg db (delete k args) = search_resorts cfg db args) /\
  (forall k lat lng all_resorts nearby_resorts,
   args !! "sort" = Some k -> k ∉ sort_keys ->
   args_get_float args "lat" = Some lat ->
   args_get_float args "lng" = Some lng ->
   filtered_resorts db args = Ok all_resorts ->
   nearby lat lng (effective_radius cfg args) all_resorts = Ok nearby_resorts ->
   search_resorts cfg db args =
     Success (length nearby_resorts) (lat, lng) (effective_radius cfg args)
       nearby_resorts).
Proof.
  repeat split.
  - intros [H|H]; unfold search_resorts; rewrite H; [done|].
    by destruct (args_get_float args "lat").
  - intros [lat Hlat] [lng Hlng] Hbad. unfold search_resorts.
    unfold filtered_resorts.
    rewrite Hlat, Hlng, (apply_filters_non_numeric [] args Hbad). done.
  - intros k Hk Hempty.
    assert (Hother : forall k', k' ∈ ["lat"; "lng"; "radius"; "sort"] ->
                                delete k args !! k' = args !! k').
    { intros k' Hk'. apply lookup_delete_ne. intros ->.
      unfold filter_keys in Hk.
      repeat (apply elem_of_cons in Hk as [Hk|Hk];
              [subst;
               repeat (apply elem_of_cons in Hk' as [Hk'|Hk']; [discriminate|]);
               by apply elem_of_nil in Hk'|]).
      by apply elem_of_nil in Hk. }
    unfold search_resorts, effective_radius, args_get_float, filtered_resorts.
    rewrite !Hother
      by (repeat first [apply list_elem_of_here | apply list_elem_of_further]).
    rewrite (apply_filters_ext [] (delete k args) args); [done|].
    intros k'. by apply given_delete_empty.
  - intros k lat lng all_resorts nearby_resorts Hsort Hk Hlat Hlng Hf Hn.
    unfold search_resorts. rewrite Hlat, Hlng, Hf. cbn.
    rewrite Hn. cbn. rewrite Hsort. cbn.
    by rewrite (sort_results_unrecognized k nearby_resorts Hk).
Qed.

End Search.

(** The four parts on sample requests: no coordinates; [min_snow=abc];
    an empty [country]; the sort key [altitude]. *)
Lemma search_parameter_issues_witness :
  search_resorts (RT := runtime.decimal_runtime)
    (DB := runtime.table_order) config.shipped
    samples.two_resorts ∅ = BadRequest "Missing lat or lng parameters" /\
  search_resorts (RT := runtime.decimal_runtime)
    (DB := runtime.table_order) config.shipped
    samples.two_resorts samples.non_numeric_snow = ServerError ValueError /\
  search_resorts (RT := runtime.decimal_runtime)
    (DB := runtime.table_order) config.shipped
    samples.two_resorts (delete "country" samples.empty_and_unknown)
  = search_resorts (RT := runtime.decimal_runtime)
      (DB := runtime.table_order) config.shipped
      samples.two_resorts samples.empty_and_unknown /\
  search_resorts (RT := runtime.decimal_runtime)
    (DB := runtime.table_order) config.shipped
    samples.two_resorts samples.empty_and_unknown
  = Success 2 (Fin 46, Fin 7) (Fin 200)
      [ {| row := samples.low_snow; distance_km := 0 |};
        {| row := samples.deep_snow; distance_km := 0 |} ].
Proof.
  pose proof (search_parameter_issues (RT := runtime.decimal_runtime)
                (DB := runtime.table_order) config.shipped samples.two_resorts ∅) as (H1 & _).
  pose proof (search_parameter_issues (RT := runtime.decimal_runtime)
                (DB := runtime.table_order) config.shipped samples.two_resorts samples.non_numeric_snow)
    as (_ & H2 & _).
  pose proof (search_parameter_issues (RT := runtime.decimal_runtime)
                (DB := runtime.table_order) config.shipped samples.two_resorts samples.empty_and_unknown)
    as (_ & _ & H3 & H4).
  split; [apply H1; left; reflexivity|].
  split; [apply H2;
          [eexists; vm_compute; reflexivity
          |eexists; vm_compute; reflexivity
          |left; exists "abc"; split; vm_compute; reflexivity]|].
  split; [apply H3; [|reflexivity];
          repeat first [apply list_elem_of_here | apply list_elem_of_further]|].
  assert (Hr : effective_radius (RT := runtime.decimal_runtime)
                 config.shipped samples.empty_and_unknown = Fin 200)
    by (vm_compute; reflexivity).
  rewrite <- Hr.
  apply (H4 "altitude" (Fin 46) (Fin 7) samples.two_resorts
            [ {| row := samples.low_snow; distance_km := 0 |};
              {| row := samples.deep_snow; distance_km := 0 |} ]);
    try (vm_compute; reflexivity).
  unfold sort_keys. intros Hk.
  repeat (apply elem_of_cons in Hk as [Hk|Hk]; [discriminate|]).
  by apply elem_of_nil in Hk.
Defined.

(** [C7, as stated] fails: with [min_snow=abc] the request ends in the
    500 response, while without the parameter it succeeds with both
    resorts. *)
Lemma non_numeric_min_snow_is_an_error :
  search_resorts (RT := runtime.decimal_runtime)
    (DB := runtime.table_order) config.shipped
    samples.two_resorts samples.non_numeric_snow = ServerError ValueError /\
  search_resorts (RT := runtime.decimal_runtime)
    (DB := runtime.table_order) config.shipped
    samples.two_resorts (delete "min_snow" samples.non_numeric_snow)
  = Success 2 (Fin 46, Fin 7) (Fin 200)
      [ {| row := samples.low_snow; distance_km := 0 |};
        {| row := samples.deep_snow; distance_km := 0 |} ].
Proof. split; vm_compute; reflexivity. Qed.

End search_props.

(** ** Retries of [fetch_url] *)

Module retry_props.
Import base_scraper.

Definition failed (r : reply) : Prop := exists took, r = Failed took.

(** The wait after the failed attempt number [attempt]. *)
Definition backoff (attempt : nat) : Z := 2 ^ Z.of_nat attempt * second.

Section Retry.
Context `{PF : Platform} (cfg : config.t) (net : nat -> reply).

Local Abbreviation max_retries := (config.SCRAPER_MAX_RETRIES cfg).

Lemma sent_set_cached (s : state) (key data : string) :
  sent (_set_cached s key data) = sent s.
Proof. reflexivity. Qed.

Lemma slept_set_cached (s : state) (key data : string) :
  slept (_set_cached s key data) = slept s.
Proof. reflexivity. Qed.

(** The loop issues at most [remaining] requests, all of them for
    [url]. *)
Lemma retry_loop_bound (url : string) (use_cache : bool)
    (remaining attempt : nat) (s : state) :
  exists extra,
    sent (fst (retry_loop cfg net url use_cache remaining attempt s))
      = sent s ++ extra /\
    (length extra <= remaining)%nat /\
    Forall (fun e => fst e = url) extra.
Proof.
  revert attempt s. induction remaining as [|remaining IH]; intros attempt s.
  - exists []. simpl. by rewrite app_nil_r.
  - simpl. destruct (net (length (sent s))) as [took|took text] eqn:Hnet.
    + destruct (_ =? _).
      * exists [(url, now s)]. simpl. repeat split; [lia|by repeat constructor].
      * edestruct IH as (extra & -> & Hlen & Hall).
        exists ((url, now s) :: extra). simpl.
        rewrite <- app_assoc. repeat split; [lia|by constructor].
    + exists [(url, now s)].
      destruct use_cache; simpl; repeat split; try lia; by repeat constructor.
Qed.

(** Every attempt fails: the loop gives up after exactly [remaining]
    requests, having waited after each but the last. *)
Lemma retry_loop_exhausted (url : string) (use_cache : bool)
    (remaining attempt : nat) (s : state) :
  (attempt + remaining = max_retries)%nat ->
  (forall i, (i < remaining)%nat -> failed (net (length (sent s) + i))) ->
  exists s',
    retry_loop cfg net url use_cache remaining attempt s = (s', JNull) /\
    length (sent s') = (length (sent s) + remaining)%nat /\
    slept s' = slept s ++ map backoff (seq attempt (remaining - 1)).
Proof.
  revert attempt s.
  induction remaining as [|remaining IH]; intros attempt s Hsum Hnet.
  - exists s. simpl. by rewrite Nat.add_0_r, app_nil_r.
  - simpl. destruct (Hnet 0%nat) as [took Htook]; [lia|].
    rewrite Nat.add_0_r in Htook. rewrite Htook.
    destruct (Z.eqb_spec (Z.of_nat attempt) (Z.of_nat max_retries - 1)) as [He|He].
    + assert (remaining = 0)%nat as -> by lia.
      eexists. split; [reflexivity|]. simpl.
      rewrite length_app, app_nil_r. simpl. split; [lia|done].
    + edestruct (IH (S attempt)) as (s' & -> & Hlen & Hslept); [lia| |].
      { intros i Hi. simpl. rewrite length_app. simpl.
        replace (length (sent s) + 1 + i)%nat
          with (length (sent s) + S i)%nat by lia.
        apply Hnet. lia. }
      exists s'. split; [done|]. simpl in *.
      rewrite length_app in Hlen. simpl in Hlen. split; [lia|].
      rewrite Hslept, <- app_assoc. f_equal.
      destruct remaining as [|remaining]; [lia|].
      simpl. by rewrite Nat.sub_0_r.
Qed.

(** [k] failures followed by an answer: the loop returns the answer
    after [k + 1] requests and [k] waits. *)
Lemma retry_loop_recovers (url : string) (k remaining attempt : nat)
    (s : state) (took : N) (text : string) :
  (attempt + remaining = max_retries)%nat ->
  (k < remaining)%nat ->
  (forall i, (i < k)%nat -> failed (net (length (sent s) + i))) ->
  net (length (sent s) + k) = Replied took text ->
  exists s',
    retry_loop cfg net url false remaining attempt s = (s', JStr text) /\
    length (sent s') = (length (sent s) + k + 1)%nat /\
    slept s' = slept s ++ map backoff (seq attempt k).
Proof.
  revert remaining attempt s.
  induction k as [|k IH]; intros remaining attempt s Hsum Hk Hfail Hok;
    (destruct remaining as [|remaining]; [lia|]); simpl.
  - rewrite Nat.add_0_r in Hok. rewrite Hok.
    eexists. split; [reflexivity|]. simpl.
    rewrite length_app, app_nil_r. simpl. split; [lia|done].
  - destruct (Hfail 0%nat) as [took' Htook]; [lia|].
    rewrite Nat.add_0_r in Htook. rewrite Htook.
    destruct (Z.eqb_spec (Z.of_nat attempt) (Z.of_nat max_retries - 1)) as [He|He];
      [lia|].
    edestruct (IH remaining (S attempt)) as (s' & -> & Hlen & Hslept);
      [lia|lia| | |].
    { intros i Hi. simpl. rewrite length_app. simpl.
      replace (length (sent s) + 1 + i)%nat
        with (length (sent s) + S i)%nat by lia.
      apply Hfail. lia. }
    { simpl. rewrite length_app. simpl.
      replace (length (sent s) + 1 + k)%nat
        with (length (sent s) + S k)%nat by lia.
      exact Hok. }
    exists s'. split; [done|]. simpl in *.
    rewrite length_app in Hlen. simpl in Hlen. split; [lia|].
    by rewrite Hslept, <- app_assoc.
Qed.

(** [C2] With caching disabled, [fetch_url] returns after at most
    [max_retries] requests, all for the given URL.  When the first [k]
    requests fail and the next one is answered, for some [k] below
    [max_retries] (in particular [k = max_retries - 1]), it returns the
    answer, after [k + 1] requests.  When [max_retries] requests fail it
    returns [None], after exactly [max_retries] requests.  In both cases
    it has waited [2 ^ attempt] seconds after each failed attempt but the
    last possible one, [attempt] counting from 0. *)
Theorem fetch_url_retries (url : string) (s : state) :
  exists s' r,
    fetch_url cfg net url false s = Ok (s', r) /\
    (exists extra, sent s' = sent s ++ extra /\
       (length extra <= max_retries)%nat /\
       Forall (fun e => fst e = url) extra) /\
    (forall k took text,
       (k < max_retries)%nat ->
       (forall i, (i < k)%nat -> failed (net (length (sent s) + i))) ->
       net (length (sent s) + k) = Replied took text ->
       r = JStr text /\
       length (sent s') = (length (sent s) + k + 1)%nat /\
       slept s' = slept (_rate_limit cfg s) ++ map backoff (seq 0 k)) /\
    ((forall i, (i < max_retries)%nat -> failed (net (length (sent s) + i))) ->
       r = JNull /\
       length (sent s') = (length (sent s) + max_retries)%nat /\
       slept s' = slept (_rate_limit cfg s)
                    ++ map backoff (seq 0 (max_retries - 1))).
Proof.
  unfold fetch_url. cbn.
  assert (Hsent : sent (_rate_limit cfg s) = sent s).
  { unfold _rate_limit. by destruct (_ <? _). }
  destruct (retry_loop cfg net url false max_retries 0 (_rate_limit cfg s))
    as [s' r] eqn:Hloop.
  exists s', r. split; [done|]. split; [|split].
  - pose proof (retry_loop_bound url false max_retries 0
                  (_rate_limit cfg s)) as (extra & H & ?).
    rewrite Hloop, Hsent in H. by exists extra.
  - intros k took text Hk Hfail Hok.
    destruct (retry_loop_recovers url k max_retries 0
                (_rate_limit cfg s) took text) as (s1 & H1 & Hlen & Hslept);
      rewrite ?Hsent; try done.
    rewrite Hloop in H1. injection H1 as <- <-.
    rewrite Hsent in Hlen. done.
  - intros Hfail.
    destruct (retry_loop_exhausted url false max_retries 0
                (_rate_limit cfg s)) as (s1 & H1 & Hlen & Hslept);
      rewrite ?Hsent; try done.
    rewrite Hloop in H1. injection H1 as <- <-.
    rewrite Hsent in Hlen. done.
Qed.

End Retry.

(** With the shipped configuration ([max_retries = 3]): a server that
    answers the third request, and one that never answers. *)
Lemma fetch_url_retries_witness :
  (exists s',
     fetch_url (PF := runtime.epoch_platform) config.shipped samples.flaky
       samples.zermatt_url false samples.fresh
       = Ok (s', JStr "<html>ok</html>") /\
     length (sent s') = 3%nat /\
     slept s' = [1 * second; 2 * second]) /\
  (exists s',
     fetch_url (PF := runtime.epoch_platform) config.shipped samples.down
       samples.zermatt_url false samples.fresh
       = Ok (s', JNull) /\
     length (sent s') = 3%nat /\
     slept s' = [1 * second; 2 * second]).
Proof.
  split.
  - destruct (fetch_url_retries (PF := runtime.epoch_platform) config.shipped
                samples.flaky samples.zermatt_url samples.fresh)
      as (s' & r & Hf & _ & Hrec & _).
    destruct (Hrec 2%nat 0%N "<html>ok</html>") as (-> & Hlen & Hslept).
    + simpl. lia.
    + intros i Hi. exists 0%N.
      destruct i as [|[|i]]; [reflexivity|reflexivity|lia].
    + reflexivity.
    + exists s'. split; [exact Hf|]. split; [exact Hlen|exact Hslept].
  - destruct (fetch_url_retries (PF := runtime.epoch_platform) config.shipped
                samples.down samples.zermatt_url samples.fresh)
      as (s' & r & Hf & _ & _ & Hex).
    destruct Hex as (-> & Hlen & Hslept).
    + intros i Hi. by exists 0%N.
    + exists s'. split; [exact Hf|]. split; [exact Hlen|exact Hslept].
Defined.

End retry_props.

(** ** The cache *)

Module cache_props.
Import base_scraper.

(** A state that differs from [s] by the clock only. *)
Definition later (s : state) (elapsed : Z) : state :=
  {| now := now s + elapsed;
     last_request_time := last_request_time s;
     files := files s;
     sent := sent s;
     slept := slept s |}.

Section Cache.
Context `{PF : Platform} (cfg : config.t) (net : nat -> reply).

Local Abbreviation ttl := (config.CACHE_EXPIRY_HOURS cfg * hour).
Local Abbreviation max_retries := (config.SCRAPER_MAX_RETRIES cfg).

(** An entry of the shape written by [_set_cached] is returned while it
    is younger than the expiry time, and is a miss from then on. *)
Lemma get_cached_entry (s : state) (key ts : string) (t : Z)
    (kv : list (string * json)) (data : json) :
  files s !! _get_cache_path key = Some (JsonFile (JObj kv)) ->
  obj_get "timestamp" kv = Some (JStr ts) ->
  fromisoformat ts = Some (Naive t) ->
  obj_get "data" kv = Some data ->
  _get_cached cfg s key = Ok (if now s - t <? ttl then data else JNull).
Proof.
  intros Hfile Hts Ht Hdata. unfold _get_cached. rewrite Hfile. cbn.
  rewrite Hts. cbn. rewrite Ht. cbn.
  destruct (_ <? _); cbn; [by rewrite Hdata|done].
Qed.

Lemma get_cached_after_set (s : state) (key data : string) (elapsed : Z) :
  _get_cached cfg (later (_set_cached s key data) elapsed) key
  = Ok (if elapsed <? ttl then JStr data else JNull).
Proof.
  erewrite get_cached_entry with (t := now s) (data := JStr data).
  - simpl. by replace (now s + elapsed - now s) with elapsed by lia.
  - simpl. apply lookup_insert_eq.
  - reflexivity.
  - apply fromisoformat_isoformat.
  - reflexivity.
Qed.

(** Round trip: a payload that was put is what an immediate get returns
    (the expiry time being positive). *)
Lemma get_cached_round_trip (s : state) (key data : string) :
  0 < config.CACHE_EXPIRY_HOURS cfg ->
  _get_cached cfg (_set_cached s key data) key = Ok (JStr data).
Proof.
  intros Hpos.
  pose proof (get_cached_after_set s key data 0) as H.
  replace (later (_set_cached s key data) 0) with (_set_cached s key data) in H.
  - rewrite H. destruct (Z.ltb_spec 0 ttl) as [|Hle]; [done|].
    unfold hour, second in Hle. lia.
  - unfold later. simpl. by rewrite Z.add_0_r.
Qed.

(** Expiry: once the expiry time has elapsed the entry is a miss. *)
Lemma get_cached_expired (s : state) (key data : string) (elapsed : Z) :
  ttl <= elapsed ->
  _get_cached cfg (later (_set_cached s key data) elapsed) key = Ok JNull.
Proof.
  intros H. rewrite get_cached_after_set.
  destruct (Z.ltb_spec elapsed ttl); [lia|done].
Qed.

(** No file, and a file that is not JSON, are misses. *)
Lemma get_cached_missing (s : state) (key : string) :
  files s !! _get_cache_path key = None -> _get_cached cfg s key = Ok JNull.
Proof. intros H. unfold _get_cached. by rewrite H. Qed.

Lemma get_cached_not_json (s : state) (key : string) :
  files s !! _get_cache_path key = Some NotJson ->
  _get_cached cfg s key = Ok JNull.
Proof. intros H. unfold _get_cached. by rewrite H. Qed.

(** A JSON document that is not an object escapes the handler. *)
Lemma get_cached_not_an_object (s : state) (key : string) (j : json) :
  files s !! _get_cache_path key = Some (JsonFile j) ->
  (forall kv, j <> JObj kv) ->
  _get_cached cfg s key = Raise TypeError.
Proof.
  intros H Hj. unfold _get_cached. rewrite H.
  destruct j; try reflexivity. by destruct (Hj kv).
Qed.

(** The first request of a loop that runs at least once. *)
Lemma retry_loop_first (url : string) (use_cache : bool)
    (remaining attempt : nat) (s : state) :
  exists rest,
    sent (fst (retry_loop cfg net url use_cache (S remaining) attempt s))
    = sent s ++ (url, now s) :: rest.
Proof.
  simpl. destruct (net (length (sent s))) as [took|took text].
  - destruct (_ =? _).
    + by exists [].
    + edestruct (retry_props.retry_loop_bound cfg net url use_cache
                   remaining (S attempt)) as (extra & -> & _).
      exists extra. simpl. by rewrite <- app_assoc.
  - exists []. by destruct use_cache.
Qed.

(** [C10] A cache entry for the URL that exists, has not expired and
    holds the empty string is found by [_get_cached], yet
    [fetch_url(url, use_cache=True)] does not return it: the emptiness
    fails the hit test, the call goes on as on a miss and issues a new
    request for the URL. *)
Theorem empty_cached_payload_is_refetched (url ts : string) (t : Z)
    (kv : list (string * json)) (s : state) :
  files s !! _get_cache_path url = Some (JsonFile (JObj kv)) ->
  obj_get "timestamp" kv = Some (JStr ts) ->
  fromisoformat ts = Some (Naive t) ->
  now s - t < ttl ->
  obj_get "data" kv = Some (JStr "") ->
  (1 <= max_retries)%nat ->
  _get_cached cfg s url = Ok (JStr "") /\
  fetch_url cfg net url true s
    = Ok (retry_loop cfg net url true max_retries 0 (_rate_limit cfg s)) /\
  exists s' r rest,
    fetch_url cfg net url true s = Ok (s', r) /\
    sent s' = sent s ++ (url, now (_rate_limit cfg s)) :: rest.
Proof.
  intros Hfile Hts Ht Hfresh Hdata Hmax.
  assert (Hget : _get_cached cfg s url = Ok (JStr "")).
  { erewrite get_cached_entry by eassumption.
    by destruct (Z.ltb_spec (now s - t) ttl); [|lia]. }
  assert (Hfetch : fetch_url cfg net url true s
    = Ok (retry_loop cfg net url true max_retries 0 (_rate_limit cfg s))).
  { unfold fetch_url. by rewrite Hget. }
  repeat split; try done.
  destruct max_retries as [|n] eqn:Hn; [lia|].
  destruct (retry_loop_first url true n 0 (_rate_limit cfg s)) as [rest Hrest].
  destruct (retry_loop cfg net url true (S n) 0 (_rate_limit cfg s))
    as [s' r] eqn:Hloop.
  exists s', r, rest. split; [done|].
  simpl in Hrest. rewrite Hrest. f_equal.
  unfold _rate_limit. by destruct (_ <? _).
Qed.

End Cache.

(** The cache holding the empty document stored a moment ago. *)
Lemma empty_cached_payload_is_refetched_witness :
  _get_cached (PF := runtime.epoch_platform) config.shipped
    samples.cached_empty samples.zermatt_url = Ok (JStr "") /\
  exists s' r rest,
    fetch_url (PF := runtime.epoch_platform) config.shipped samples.flaky
      samples.zermatt_url true samples.cached_empty = Ok (s', r) /\
    sent s' = (samples.zermatt_url,
               now (_rate_limit config.shipped samples.cached_empty)) :: rest.
Proof.
  destruct (empty_cached_payload_is_refetched (PF := runtime.epoch_platform)
              config.shipped samples.flaky samples.zermatt_url
              (runtime.epoch_isoformat (now samples.fresh))
              (now samples.fresh)
              [("timestamp", JStr (runtime.epoch_isoformat (now samples.fresh)));
               ("data", JStr "")]
              samples.cached_empty)
    as (Hget & _ & Hreq).
  - vm_compute. reflexivity.
  - reflexivity.
  - vm_compute. reflexivity.
  - vm_compute. reflexivity.
  - reflexivity.
  - simpl. lia.
  - split; [exact Hget|exact Hreq].
Defined.

(** [C5] The entry of a cache file that holds the JSON text [[]] is
    malformed, and looking it up raises [TypeError] instead of reporting
    a miss; [fetch_url] passes the exception on. *)
Theorem wrong_shape_entry_raises :
  files samples.wrong_shape
    !! _get_cache_path (PF := runtime.epoch_platform) samples.zermatt_url
    = Some (JsonFile (JArr [])) /\
  _get_cached (PF := runtime.epoch_platform) config.shipped
    samples.wrong_shape samples.zermatt_url = Raise TypeError /\
  fetch_url (PF := runtime.epoch_platform) config.shipped samples.flaky
    samples.zermatt_url true samples.wrong_shape = Raise TypeError.
Proof. repeat split; vm_compute; reflexivity. Qed.

End cache_props.

(** ** The rate limit *)

Module rate_props.
Import base_scraper.

(** Consecutive requests of the log are at least [limit] apart. *)
Definition spaced (limit : Z) (log : list (string * Z)) : Prop :=
  forall i a b, log !! i = Some a -> log !! S i = Some b ->
    limit <= snd b - snd a.

Section RateLimit.
Context `{PF : Platform} (cfg : config.t) (net : nat -> reply).

Local Abbreviation limit := (config.SCRAPER_RATE_LIMIT cfg * second).

(** What [_rate_limit] achieves: the clock it leaves is at least the
    limit past the time recorded before, and that clock is recorded. *)
Lemma rate_limit_waits (s : state) :
  limit <= now (_rate_limit cfg s) - last_request_time s /\
  last_request_time (_rate_limit cfg s) = now (_rate_limit cfg s) /\
  sent (_rate_limit cfg s) = sent s.
Proof.
  unfold _rate_limit.
  destruct (Z.ltb_spec (now s - last_request_time s) limit); simpl;
    repeat split; lia.
Qed.

Lemma retry_loop_keeps_record (url : string) (use_cache : bool)
    (remaining attempt : nat) (s : state) :
  last_request_time (fst (retry_loop cfg net url use_cache remaining attempt s))
  = last_request_time s.
Proof.
  revert attempt s. induction remaining as [|remaining IH]; intros attempt s;
    simpl; [done|].
  destruct (net (length (sent s))) as [took|took text].
  - destruct (_ =? _); [done|]. by rewrite IH.
  - by destruct use_cache.
Qed.

(** The first requests of successive calls are spaced: the first request
    of a call is issued at the time the call records, which is at least
    the limit after the time recorded by the call before. *)
Lemma first_requests_spaced (url : string) (s : state) :
  (1 <= config.SCRAPER_MAX_RETRIES cfg)%nat ->
  exists s' r rest,
    fetch_url cfg net url false s = Ok (s', r) /\
    sent s' = sent s ++ (url, last_request_time s') :: rest /\
    limit <= last_request_time s' - last_request_time s.
Proof.
  intros Hmax. unfold fetch_url. cbn.
  destruct (config.SCRAPER_MAX_RETRIES cfg) as [|n] eqn:Hn; [lia|].
  destruct (cache_props.retry_loop_first cfg net url false n 0
              (_rate_limit cfg s)) as [rest Hrest].
  pose proof (retry_loop_keeps_record url false (S n) 0 (_rate_limit cfg s))
    as Hrec.
  destruct (retry_loop cfg net url false (S n) 0 (_rate_limit cfg s))
    as [s' r] eqn:Hloop.
  destruct (rate_limit_waits s) as (Hwait & Hnow & Hsent).
  exists s', r, rest. cbn [fst] in Hrest, Hrec. split; [done|].
  rewrite Hrest, Hsent, Hrec, Hnow. split; [done|lia].
Qed.

End RateLimit.

(** [C6] One call with the cache disabled, against a server that refuses
    every connection at once: the three attempts are issued 1 s and 2 s
    apart, the first gap being below the limit of 2 s.  A second call
    right after it issues its first attempt at the very time of the last
    attempt of the first call. *)
Theorem retries_ignore_rate_limit :
  let t0 := now samples.fresh in
  let limit := config.SCRAPER_RATE_LIMIT config.shipped * second in
  exists s1 s2,
    fetch_url (PF := runtime.epoch_platform) config.shipped samples.down
      samples.zermatt_url false samples.fresh = Ok (s1, JNull) /\
    sent s1 = [ (samples.zermatt_url, t0);
                (samples.zermatt_url, t0 + 1 * second);
                (samples.zermatt_url, t0 + 3 * second) ] /\
    ~ spaced limit (sent s1) /\
    fetch_url (PF := runtime.epoch_platform) config.shipped samples.down
      samples.zermatt_url false s1 = Ok (s2, JNull) /\
    sent s2 = sent s1 ++ [ (samples.zermatt_url, t0 + 3 * second);
                           (samples.zermatt_url, t0 + 4 * second);
                           (samples.zermatt_url, t0 + 6 * second) ] /\
    ~ spaced limit (sent s2).
Proof.
  do 2 eexists.
  split; [vm_compute; reflexivity|]. split; [vm_compute; reflexivity|].
  split.
  { intros H. specialize (H 0%nat _ _ eq_refl eq_refl).
    vm_compute in H. by apply H. }
  split; [vm_compute; reflexivity|]. split; [vm_compute; reflexivity|].
  intros H. specialize (H 2%nat _ _ eq_refl eq_refl).
  vm_compute in H. by apply H.
Qed.

End rate_props.

(** ** Extraction of a resort *)

Module extract_props.
Import base_scraper bergfex_scraper.

(** The passes that only read the document cannot raise. *)
Lemma reading_passes_return (sp : soup) (d : resort_data) :
  snd (read_title sp d) = Ok () /\
  snd (read_altitude sp d) = Ok () /\
  snd (read_snow sp d) = Ok () /\
  snd (read_status sp d) = Ok ().
Proof.
  unfold read_title, read_altitude, read_snow, read_status.
  repeat split.
  - by destruct (h1 sp).
  - by destruct (altitude_elem sp) as [|[? ?] ?].
  - destruct (snow_info sp); [done|]. unfold and_then.
    destruct (labelled_value (mountain_label sp));
      by destruct (labelled_value (valley_label sp)).
  - by destruct (status_elem sp).
Qed.

(** A JSON-LD block is skipped on the exceptions that the loop lists. *)
Lemma read_script_skips (sc : script) (d : resort_data) (e : exn) :
  snd (read_script (RT := runtime.decimal_runtime) sc d) = Raise e ->
  e ∉ [JSONDecodeError; TypeError; ValueError; KeyError].
Proof.
  unfold read_script, skipping.
  destruct (and_then _ _ d) as [d' [[]|e']]; simpl; [done|].
  case_bool_decide; simpl; [done|]. by intros [= <-].
Qed.

(** [C3] The page has a title and is parsed, and the scraper fetches it,
    yet [scrape_resort] returns [None]: the [address] of its JSON-LD block
    is a string, on which [.get] raises [AttributeError]. *)
Theorem string_address_fails_extraction :
  parse_html (Markup := samples.pages) (JStr samples.zermatt_text)
    = Ok samples.zermatt_page /\
  h1 samples.zermatt_page = Some "Zermatt" /\
  exists s',
    scrape_resort (RT := runtime.decimal_runtime)
      (PF := runtime.epoch_platform) (MK := samples.pages) config.shipped
      (samples.serves samples.zermatt_text) samples.zermatt_url samples.fresh
    = Ok (s', None).
Proof.
  split; [reflexivity|]. split; [reflexivity|].
  eexists. vm_compute. reflexivity.
Qed.

(** [C4] On the same page the title pass populates [name]; the JSON-LD
    pass then fails, and the record with the name is not returned.  On
    the page whose address is an object every populated field is
    returned. *)
Theorem populated_name_is_discarded :
  let data := initial_data samples.zermatt_url in
  (exists titled,
     read_title samples.zermatt_page data = (titled, Ok ()) /\
     name titled = Some "Zermatt" /\
     snd (for_each (read_script (RT := runtime.decimal_runtime))
            (ld_json samples.zermatt_page) titled) = Raise AttributeError) /\
  (exists s',
     scrape_resort (RT := runtime.decimal_runtime)
       (PF := runtime.epoch_platform) (MK := samples.pages) config.shipped
       (samples.serves samples.zermatt_text) samples.zermatt_url samples.fresh
     = Ok (s', None)) /\
  (exists s' record,
     scrape_resort (RT := runtime.decimal_runtime)
       (PF := runtime.epoch_platform) (MK := samples.pages) config.shipped
       (samples.serves samples.verbier_text) samples.zermatt_url samples.fresh
     = Ok (s', Some record) /\
     name record = Some "Verbier" /\
     region record = Some (JStr "Valais") /\
     altitude_min record = Some 1500 /\
     snow_depth_mountain (conditions record) = Some 195 /\
     status (conditions record) = Some "open").
Proof.
  repeat split.
  - eexists. repeat split; vm_compute; reflexivity.
  - eexists. vm_compute. reflexivity.
  - do 2 eexists. split; [vm_compute; reflexivity|].
    repeat split; reflexivity.
Qed.

End extract_props.

(** ** Forecast days *)

Module forecast_props.
Import base_scraper bergfex_scraper weather_service.

(** The day carries its snow forecast as an integer. *)
Definition integer_snow (f : forecast) : Prop :=
  exists n : Z, snow_forecast_cm f = Some (JNum (inject_Z n)).

Lemma bind_ok {A B} (m : result A) (k : A -> result B) (b : B) :
  (x ← m; k x) = Ok b -> exists a, m = Ok a /\ k a = Ok b.
Proof. destruct m as [a|e]; [by exists a | discriminate]. Qed.

Section Sources.
Context `{RT : PyRuntime} `{PF : Platform}.

(** The coordinate based source sets an integer on every day. *)
Lemma forecast_at_integer (daily : json) (i : nat) (f : forecast) :
  forecast_at daily i = Ok f -> integer_snow f.
Proof.
  unfold forecast_at. intros H.
  repeat (apply bind_ok in H as (? & _ & H)).
  injection H as <-. by eexists.
Qed.

Lemma forecasts_from_integer (daily : json) (i count : nat) (l : list forecast) :
  forecasts_from daily i count = Ok l -> Forall integer_snow l.
Proof.
  revert i l. induction count as [|count IH]; intros i l; simpl.
  - intros [= <-]. constructor.
  - intros H. apply bind_ok in H as (f & Hf & H).
    apply bind_ok in H as (fs & Hfs & H). injection H as <-.
    constructor; [by eapply forecast_at_integer|by eapply IH].
Qed.

Lemma get_forecast_integer (response : option json) :
  Forall integer_snow (get_forecast response).
Proof.
  unfold get_forecast.
  match goal with |- context [match ?b with Ok _ => _ | Raise _ => _ end] =>
    destruct b as [l|e] eqn:H end; [|constructor].
  apply bind_ok in H as (data & _ & H).
  apply bind_ok in H as (has & _ & H).
  destruct (negb has); [injection H as <-; constructor|].
  apply bind_ok in H as (daily & _ & H).
  apply bind_ok in H as (time & _ & H).
  apply bind_ok in H as (n & _ & H).
  by eapply forecasts_from_integer.
Qed.

(** The page based source: a day without a snow element gets 0, a day
    whose snow element has digits gets their value, and a day whose snow
    element has no digit gets nothing. *)
Lemma read_day_snow (current_date : Z) (i : nat) (el : day_el) (f : forecast) :
  read_day current_date i el = Ok f ->
  snow_forecast_cm f =
    match snow_el el with
    | None => Some (JNum 0%Q)
    | Some text => (fun n => JNum (inject_Z n)) <$> first_int text
    end.
Proof.
  unfold read_day. intros H.
  destruct (omap _ (temps el)) as [|? [|? ?]];
    destruct (img el); simpl in H; try discriminate;
    injection H as <-; reflexivity.
Qed.

End Sources.

(** [C9] The forecast page has one day whose snow element reads as a
    dash.  [scrape_forecast] produces the day without a snow forecast:
    the key is not set, and not set to 0. *)
Theorem dash_leaves_snow_forecast_unset :
  map snow_el <$> forecast_container samples.forecast_page
    = Some [Some "-"] /\
  exists s' f,
    scrape_forecast (RT := runtime.decimal_runtime)
      (PF := runtime.epoch_platform) (MK := samples.pages)
      config.shipped (samples.serves samples.forecast_text)
      samples.zermatt_url samples.fresh = (s', Ok [f]) /\
    snow_forecast_cm f = None /\
    ~ integer_snow f.
Proof.
  split; [reflexivity|].
  do 2 eexists. split; [vm_compute; reflexivity|].
  split; [reflexivity|].
  intros [n Hn]. discriminate.
Qed.

End forecast_props.

(* ===================================================================== *)
(** * Part III.  Further properties of the modelled code                 *)
(* ===================================================================== *)

(** A string of the model is a sequence of characters, so that lengths
    and slices count characters as [len] and [s[:n]] do. *)

(** ** The filtered query *)

Module filter_more.
Import models app filter_props.

Section Selection.
Context `{RT : PyRuntime} `{DB : Database}.

(** The three ways in which [query.all()] ends. *)
Lemma all_cases (db : list Resort) (query : Query) :
  (ambiguous query = true /\ all db query = Raise OperationalError) \/
  (ambiguous query = false /\ forallb bindable query = false /\
   all db query = Raise OverflowError) \/
  (ambiguous query = false /\ forallb bindable query = true /\
   all db query = Ok (fetch db query)).
Proof.
  unfold all. destruct (ambiguous query); [by left|].
  destruct (forallb bindable query); right; [by right|by left].
Qed.

(** [apply_filters] fails on a value that does not convert, and only
    then. *)
Lemma apply_filters_raises (query : Query) (filters : gmap string string)
    (e : exn) :
  apply_filters query filters = Raise e ->
  e = ValueError /\ ~ well_typed filters.
Proof.
  unfold apply_filters, well_typed. repeat setoid_rewrite given_present.
  destruct (given filters "min_snow") as [v1|] eqn:E1;
    [destruct (py_int v1) as [n|] eqn:P1;
     [|intros [= <-]; split; [done|];
       intros (H & _ & _); destruct (H v1 eq_refl); congruence]|];
  (destruct (given filters "status") as [v2|] eqn:E2);
  (destruct (given filters "min_slopes") as [v3|] eqn:E3;
    [destruct (py_float v3) as [x3|] eqn:P3;
     [|intros [= <-]; split; [done|];
       intros (_ & H & _); destruct (H v3 eq_refl); congruence]|]);
  (destruct (given filters "max_price") as [v4|] eqn:E4;
    [destruct (py_float v4) as [x4|] eqn:P4;
     [|intros [= <-]; split; [done|];
       intros (_ & _ & H); destruct (H v4 eq_refl); congruence]|]);
  (destruct (given filters "country") as [v5|] eqn:E5);
  discriminate.
Qed.

Lemma apply_filters_returns (query out : Query) (filters : gmap string string) :
  apply_filters query filters = Ok out -> well_typed filters.
Proof.
  unfold apply_filters, well_typed. repeat setoid_rewrite given_present.
  destruct (given filters "min_snow") as [v1|] eqn:E1;
    [destruct (py_int v1) as [n|] eqn:P1; [|discriminate]|];
  (destruct (given filters "status") as [v2|] eqn:E2);
  (destruct (given filters "min_slopes") as [v3|] eqn:E3;
    [destruct (py_float v3) as [x3|] eqn:P3; [|discriminate]|]);
  (destruct (given filters "max_price") as [v4|] eqn:E4;
    [destruct (py_float v4) as [x4|] eqn:P4; [|discriminate]|]);
  intros _; repeat split; intros v [= <-]; by eexists.
Qed.

(** Only the value of [min_snow] is bound as an integer. *)
Lemma apply_filters_bindable (filters : gmap string string) (query : Query) :
  apply_filters [] filters = Ok query ->
  forallb bindable query = false ->
  exists v n, present filters "min_snow" v /\ py_int v = Some n /\
              int64 n = false.
Proof.
  setoid_rewrite given_present. unfold apply_filters.
  destruct (given filters "min_snow") as [v1|] eqn:E1;
    [destruct (py_int v1) as [n|] eqn:P1; [|discriminate]|];
  (destruct (given filters "status") as [v2|] eqn:E2);
  (destruct (given filters "min_slopes") as [v3|] eqn:E3;
    [destruct (py_float v3) as [x3|] eqn:P3; [|discriminate]|]);
  (destruct (given filters "max_price") as [v4|] eqn:E4;
    [destruct (py_float v4) as [x4|] eqn:P4; [|discriminate]|]);
  (destruct (given filters "country") as [v5|] eqn:E5);
  cbn [mbind result_bind or_raise app]; intros [= <-];
  cbn [forallb bindable]; rewrite ?andb_true_r; try discriminate;
  intros Hn; by exists v1, n.
Qed.

Lemma apply_filters_binds (filters : gmap string string) (query : Query)
    (v : string) (n : Z) :
  apply_filters [] filters = Ok query ->
  present filters "min_snow" v -> py_int v = Some n ->
  forallb bindable query = int64 n.
Proof.
  rewrite given_present. unfold apply_filters. intros H Hv Hn. revert H.
  rewrite Hv. cbn [mbind result_bind or_raise]. rewrite Hn.
  cbn [mbind result_bind or_raise].
  (destruct (given filters "status") as [v2|] eqn:E2);
  (destruct (given filters "min_slopes") as [v3|] eqn:E3;
    [destruct (py_float v3) as [x3|] eqn:P3; [|discriminate]|]);
  (destruct (given filters "max_price") as [v4|] eqn:E4;
    [destruct (py_float v4) as [x4|] eqn:P4; [|discriminate]|]);
  (destruct (given filters "country") as [v5|] eqn:E5);
  cbn [mbind result_bind or_raise app]; intros [= <-];
  cbn [forallb bindable]; by rewrite ?andb_true_r.
Qed.

Lemma counted_two_conditions_filters (filters : gmap string string) :
  (2 <= length (omap (given filters) conditions_keys))%nat ->
  two_conditions_filters filters.
Proof.
  unfold conditions_keys, two_conditions_filters. cbn.
  destruct (given filters "min_snow") as [v1|] eqn:E1;
  destruct (given filters "status") as [v2|] eqn:E2;
  destruct (given filters "min_slopes") as [v3|] eqn:E3;
  cbn; intros Hlen; try lia.
  - exists "min_snow", "status", v1, v2.
    split; [apply list_elem_of_here|].
    split; [apply list_elem_of_further, list_elem_of_here|].
    split; [done|]. split; by apply given_present.
  - exists "min_snow", "status", v1, v2.
    split; [apply list_elem_of_here|].
    split; [apply list_elem_of_further, list_elem_of_here|].
    split; [done|]. split; by apply given_present.
  - exists "min_snow", "min_slopes", v1, v3.
    split; [apply list_elem_of_here|].
    split; [do 2 apply list_elem_of_further; apply list_elem_of_here|].
    split; [done|]. split; by apply given_present.
  - exists "status", "min_slopes", v2, v3.
    split; [apply list_elem_of_further, list_elem_of_here|].
    split; [do 2 apply list_elem_of_further; apply list_elem_of_here|].
    split; [done|]. split; by apply given_present.
Qed.

(** When the filtered query runs, the database has been asked for the
    rows that pass the clauses of [apply_filters]. *)
Lemma filtered_resorts_fetched (db out : list Resort)
    (filters : gmap string string) :
  filtered_resorts db filters = Ok out ->
  exists query, apply_filters [] filters = Ok query /\ out = fetch db query /\
                forall other, all other query = Ok (fetch other query).
Proof.
  unfold filtered_resorts.
  destruct (apply_filters [] filters) as [query|e]; [|discriminate].
  cbn. unfold all. destruct (ambiguous query) eqn:Ha; [discriminate|].
  destruct (forallb bindable query) eqn:Hb; [|discriminate].
  intros [= <-]. exists query. split; [done|]. split; [done|].
  intros other. by rewrite Ha, Hb.
Qed.

(** The rows of a filtered query are rows of the table that satisfy the
    predicates, and all of them. *)
Lemma filtered_resorts_rows (db out : list Resort)
    (filters : gmap string string) :
  filtered_resorts db filters = Ok out ->
  forall r, r ∈ out <-> r ∈ db /\ survives filters r.
Proof.
  intros H r. apply filtered_resorts_fetched in H as (query & Hq & -> & _).
  rewrite (fetch_matches db query), list_elem_of_In, filter_In.
  by rewrite <- list_elem_of_In, (apply_filters_survives filters query r Hq).
Qed.

(** How the filtered query fails is decided by the filter values. *)
Lemma filtered_resorts_raises (db : list Resort) (filters : gmap string string)
    (e : exn) :
  filtered_resorts db filters = Raise e ->
  forall other, filtered_resorts other filters = Raise e.
Proof.
  unfold filtered_resorts. intros H other.
  destruct (apply_filters [] filters) as [query|e']; [|done].
  cbn in *. unfold all in *.
  destruct (ambiguous query); [done|].
  by destruct (forallb bindable query).
Qed.

End Selection.
End filter_more.

(** ** Selection by the filters *)

Module selection_props.
Import models app filter_props filter_more.

Section Selection.
Context `{RT : PyRuntime} `{DB : Database}.

(** [X1] When the filtered query runs, the rows it returns are the rows
    of the table that satisfy every predicate whose value is given, each
    as often as the table holds it and in the order the database
    chooses; and whether a row of the table is returned does not depend
    on the other rows: it is returned iff it is returned from the table
    that holds it alone. *)
Theorem filtered_resorts_selects (db out : list Resort)
    (filters : gmap string string) :
  filtered_resorts db filters = Ok out ->
  (exists keep, (forall r, keep r = true <-> survives filters r) /\
                out ≡ₚ List.filter keep db) /\
  (forall r, r ∈ out <-> r ∈ db /\ survives filters r) /\
  (forall r, r ∈ db -> (r ∈ out <-> filtered_resorts [r] filters = Ok [r])).
Proof.
  intros H. pose proof (filtered_resorts_rows db out filters H) as Hrows.
  split; [|split; [exact Hrows|]].
  - apply filtered_resorts_fetched in H as (query & Hq & -> & _).
    exists (matches query). split; [|apply fetch_matches].
    intros r. by apply apply_filters_survives.
  - intros r Hr. rewrite Hrows.
    apply filtered_resorts_fetched in H as (query & Hq & -> & Hall).
    assert (Hone : filtered_resorts [r] filters = Ok (fetch [r] query)).
    { unfold filtered_resorts. rewrite Hq. cbn. apply Hall. }
    rewrite Hone.
    pose proof (fetch_matches [r] query) as Hperm. cbn in Hperm.
    rewrite <- (apply_filters_survives filters query r Hq).
    destruct (matches query r).
    + apply Permutation_singleton_r in Hperm. rewrite Hperm.
      split; [done|]. intros _. by split.
    + apply Permutation_nil_r in Hperm. rewrite Hperm.
      split; [by intros [_ ?]|discriminate].
Qed.

(** [X2] Whether the filtered query fails, and how, is decided by the
    filter values alone.  A failure is the [ValueError] of a numeric
    value that does not convert, the [OperationalError] of two filters
    on [Conditions], or the [OverflowError] of a [min_snow] beyond 64
    bits; and the same values fail in the same way on every table, the
    empty one included. *)
Theorem filtered_resorts_failure_ignores_data (db : list Resort)
    (filters : gmap string string) (e : exn) :
  filtered_resorts db filters = Raise e ->
  ((e = ValueError /\ ~ well_typed filters) \/
   (e = OperationalError /\ well_typed filters /\
    two_conditions_filters filters) \/
   (e = OverflowError /\ well_typed filters /\
    ~ two_conditions_filters filters /\
    exists v n, present filters "min_snow" v /\ py_int v = Some n /\
                int64 n = false)) /\
  forall other, filtered_resorts other filters = Raise e.
Proof.
  intros H. split; [|by eapply filtered_resorts_raises].
  unfold filtered_resorts in H.
  destruct (apply_filters [] filters) as [query|e'] eqn:Hq.
  2:{ injection H as <-. left. by eapply apply_filters_raises. }
  cbn in H. pose proof (apply_filters_returns _ _ _ Hq) as Htyped.
  destruct (all_cases db query) as [(Ha & He)|[(Ha & Hb & He)|(_ & _ & He)]];
    rewrite He in H; [| |discriminate]; injection H as <-; right.
  - left. split; [done|]. split; [done|].
    apply counted_two_conditions_filters.
    destruct (apply_filters_joins filters query Hq) as (Hc & Hp).
    unfold ambiguous in Ha. apply orb_true_iff in Ha as [Ha|Ha];
      apply Nat.ltb_lt in Ha; lia.
  - right. split; [done|]. split; [done|].
    split; [|by eapply apply_filters_bindable].
    intros Htwo%two_conditions_filters_counted.
    destruct (apply_filters_joins filters query Hq) as (Hc & Hp).
    unfold ambiguous in Ha. apply orb_false_iff in Ha as [Ha _].
    apply Nat.ltb_ge in Ha. lia.
Qed.

(** [X30] The filtered query runs exactly when every numeric value that
    is present converts, at most one of the three filters on
    [Conditions] is present, and a [min_snow] that is present fits 64
    bits.  Whether it runs is the same for every table. *)
Theorem filtered_resorts_runs (db : list Resort)
    (filters : gmap string string) :
  (exists out, filtered_resorts db filters = Ok out) <->
  well_typed filters /\ ~ two_conditions_filters filters /\
  (forall v n, present filters "min_snow" v -> py_int v = Some n ->
     int64 n = true).
Proof.
  split.
  - intros [out H].
    apply filtered_resorts_fetched in H as (query & Hq & _ & Hall).
    specialize (Hall db). unfold all in Hall.
    destruct (ambiguous query) eqn:Ha; [discriminate|].
    destruct (forallb bindable query) eqn:Hb; [|discriminate].
    split; [by eapply apply_filters_returns|]. split.
    + intros Htwo%two_conditions_filters_counted.
      destruct (apply_filters_joins filters query Hq) as (Hc & Hp).
      unfold ambiguous in Ha. apply orb_false_iff in Ha as [Ha _].
      apply Nat.ltb_ge in Ha. lia.
    + intros v n Hv Hn.
      by rewrite <- (apply_filters_binds filters query v n Hq Hv Hn).
  - intros (Htyped & Hone & Hfits).
    destruct (apply_filters_well_typed filters Htyped) as [query Hq].
    exists (fetch db query). unfold filtered_resorts. rewrite Hq. cbn.
    destruct (all_cases db query)
      as [(Ha & _)|[(_ & Hb & _)|(_ & _ & He)]]; [| |done]; exfalso.
    + apply Hone, counted_two_conditions_filters.
      destruct (apply_filters_joins filters query Hq) as (Hc & Hp).
      unfold ambiguous in Ha. apply orb_true_iff in Ha as [Ha|Ha];
        apply Nat.ltb_lt in Ha; lia.
    + destruct (apply_filters_bindable filters query Hq Hb)
        as (v & n & Hv & Hn & Hbig).
      rewrite (Hfits v n Hv Hn) in Hbig. discriminate.
Qed.

End Selection.

(** [?min_snow=60&max_price=70] on the two sample resorts. *)
Lemma filtered_resorts_selects_witness :
  filtered_resorts (RT := runtime.decimal_runtime)
    (DB := runtime.table_order) samples.two_resorts samples.snow_and_price
  = Ok [samples.deep_snow] /\
  (forall r, r ∈ [samples.deep_snow] <->
     r ∈ samples.two_resorts /\
     survives (RT := runtime.decimal_runtime) samples.snow_and_price r) /\
  filtered_resorts (RT := runtime.decimal_runtime)
    (DB := runtime.table_order) [samples.deep_snow] samples.snow_and_price
  = Ok [samples.deep_snow].
Proof.
  assert (H : filtered_resorts (RT := runtime.decimal_runtime)
                (DB := runtime.table_order) samples.two_resorts
                samples.snow_and_price
              = Ok [samples.deep_snow]) by (vm_compute; reflexivity).
  split; [exact H|].
  destruct (filtered_resorts_selects (RT := runtime.decimal_runtime)
              (DB := runtime.table_order) _ _ _ H) as (_ & Hrows & Halone).
  split; [exact Hrows|].
  apply Halone; [|apply list_elem_of_here].
  apply list_elem_of_further, list_elem_of_here.
Defined.

(** [?min_snow=60&status=open]: the failure is that of the table joined
    twice, on the table of the open resort and on the empty table. *)
Lemma filtered_resorts_failure_ignores_data_witness :
  filtered_resorts (RT := runtime.decimal_runtime)
    (DB := runtime.table_order) [samples.open_resort] samples.snow_and_status
  = Raise OperationalError /\
  filtered_resorts (RT := runtime.decimal_runtime)
    (DB := runtime.table_order) [] samples.snow_and_status
  = Raise OperationalError.
Proof.
  assert (H : filtered_resorts (RT := runtime.decimal_runtime)
                (DB := runtime.table_order) [samples.open_resort]
                samples.snow_and_status
              = Raise OperationalError) by (vm_compute; reflexivity).
  split; [exact H|].
  destruct (filtered_resorts_failure_ignores_data
              (RT := runtime.decimal_runtime) (DB := runtime.table_order)
              _ _ _ H) as (_ & Hall).
  apply Hall.
Defined.

(** [?min_snow=60&max_price=70] runs; [?min_snow=60&status=open] does
    not. *)
Lemma filtered_resorts_runs_witness :
  (well_typed (RT := runtime.decimal_runtime) samples.snow_and_price /\
   ~ two_conditions_filters samples.snow_and_price) /\
  ~ (exists out,
       filtered_resorts (RT := runtime.decimal_runtime)
         (DB := runtime.table_order) [samples.open_resort]
         samples.snow_and_status = Ok out).
Proof.
  split.
  - destruct (proj1 (filtered_resorts_runs (RT := runtime.decimal_runtime)
                       (DB := runtime.table_order) samples.two_resorts
                       samples.snow_and_price)) as (Htyped & Hone & _).
    + eexists. vm_compute. reflexivity.
    + by split.
  - intros Hruns.
    apply (filtered_resorts_runs (RT := runtime.decimal_runtime)
             (DB := runtime.table_order)) in Hruns as (_ & Hone & _).
    apply Hone. exists "min_snow", "status", "60", "open".
    unfold conditions_keys.
    split; [apply list_elem_of_here|].
    split; [apply list_elem_of_further, list_elem_of_here|].
    split; [discriminate|]. by split.
Defined.

End selection_props.

(** ** Further worked inputs *)

Module cases.
Import models.

(** A resort whose pricing and conditions rows exist but hold no adult
    price and no mountain snow depth. *)
Definition hollow : app.ResortDict := {|
  app.row := {| id := 5; name := "Hollow"; slug := "hollow";
                country := "Switzerland"; region := None;
                latitude := 46; longitude := 7;
                conditions := Some {| snow_depth_valley := None;
                                      snow_depth_mountain := None;
                                      slopes_open_km := None;
                                      slopes_total_km := None;
                                      status := None |};
                pricing := Some {| adult_day_pass := None;
                                   child_day_pass := None;
                                   currency := None |} |};
  app.distance_km := 1
|}.

(** The two sample resorts as search results. *)
Definition low_result : app.ResortDict :=
  {| app.row := samples.low_snow; app.distance_km := 0 |}.

Definition deep_result : app.ResortDict :=
  {| app.row := samples.deep_snow; app.distance_km := 0 |}.

End cases.

(** ** The search: radius, results and order *)

Module search_more.
Import models app sort_props.

Section Search.
Context `{RT : PyRuntime} `{DB : Database} (cfg : config.t).

Local Abbreviation lowest := (config.MIN_SEARCH_RADIUS_KM cfg).
Local Abbreviation highest := (config.MAX_SEARCH_RADIUS_KM cfg).

(** The loop over the filtered resorts keeps, in their order, the resorts
    whose distance is within the radius, each with its rounded
    distance. *)
Lemma nearby_spec (lat lng radius : float) (all_resorts : list Resort)
    (out : list ResortDict) :
  nearby lat lng radius all_resorts = Ok out ->
  sublist (map row out) all_resorts /\
  (forall x, x ∈ out ->
     exists d, calculate_distance lat lng (latitude (row x)) (longitude (row x))
                 = Ok d /\
               float_le (Fin d) radius = true /\ distance_km x = round1 d) /\
  (forall resort d, resort ∈ all_resorts ->
     calculate_distance lat lng (latitude resort) (longitude resort) = Ok d ->
     float_le (Fin d) radius = true ->
     {| row := resort; distance_km := round1 d |} ∈ out).
Proof.
  revert out. induction all_resorts as [|resort rest IH]; intros out;
    cbn [nearby].
  - intros [= <-]. repeat split.
    + constructor.
    + intros x Hx. by apply elem_of_nil in Hx.
    + intros r d Hr. by apply elem_of_nil in Hr.
  - destruct (calculate_distance lat lng (latitude resort) (longitude resort))
      as [d|e] eqn:Hd; cbn [mbind result_bind]; [|discriminate].
    destruct (nearby lat lng radius rest) as [tail|e] eqn:Htail;
      cbn [mbind result_bind]; [|discriminate].
    destruct (IH tail eq_refl) as (Hsub & Hin & Hall).
    destruct (float_le (Fin d) radius) eqn:Hle; intros [= <-].
    + repeat split.
      * simpl. by constructor.
      * intros x [->|Hx]%elem_of_cons; [by exists d|by apply Hin].
      * intros r d' [->|Hr]%elem_of_cons Hd' Hle'.
        -- rewrite Hd in Hd'. injection Hd' as <-. apply list_elem_of_here.
        -- apply list_elem_of_further. by eapply Hall.
    + repeat split.
      * by constructor.
      * done.
      * intros r d' [->|Hr]%elem_of_cons Hd' Hle'.
        -- rewrite Hd in Hd'. injection Hd' as <-. congruence.
        -- by eapply Hall.
Qed.

Lemma sort_by_number_perm {A} (key : A -> option Q) (reverse : bool)
    (l out : list A) :
  sort_by_number key reverse l = Ok out -> out ≡ₚ l.
Proof.
  unfold sort_by_number. case_bool_decide; [by intros [= <-]|].
  destruct (forallb _ l); [|discriminate].
  intros [= <-]. apply stable_sort_perm.
Qed.

Lemma sort_results_perm (sort_by : string) (l out : list ResortDict) :
  sort_results sort_by l = Ok out -> out ≡ₚ l.
Proof.
  unfold sort_results.
  destruct (String.eqb sort_by "distance"); [apply sort_by_number_perm|].
  destruct (String.eqb sort_by "name");
    [intros [= <-]; apply stable_sort_perm|].
  destruct (String.eqb sort_by "price"); [apply sort_by_number_perm|].
  destruct (String.eqb sort_by "snow"); [apply sort_by_number_perm|].
  by intros [= <-].
Qed.

(** What a successful search has computed. *)
Lemma search_success (db : list Resort) (args : gmap string string)
    (n : nat) (loc : float * float) (radius : float) (out : list ResortDict) :
  search_resorts cfg db args = Success n loc radius out ->
  exists all_resorts near,
    args_get_float args "lat" = Some (fst loc) /\
    args_get_float args "lng" = Some (snd loc) /\
    radius = effective_radius cfg args /\
    filtered_resorts db args = Ok all_resorts /\
    nearby (fst loc) (snd loc) radius all_resorts = Ok near /\
    sort_results (default "distance" (args !! "sort")) near = Ok out /\
    n = length out.
Proof.
  unfold search_resorts.
  destruct (args_get_float args "lat") as [lat|]; [|discriminate].
  destruct (args_get_float args "lng") as [lng|]; [|discriminate].
  destruct (filtered_resorts db args) as [all_resorts|e] eqn:Hf; cbn;
    [|discriminate].
  destruct (nearby lat lng (effective_radius cfg args) all_resorts)
    as [near|e] eqn:Hn; cbn; [|discriminate].
  destruct (sort_results _ near) as [sorted|e] eqn:Hs; [|discriminate].
  intros [= <- <- <- <-]. by exists all_resorts, near.
Qed.

(** [X3] When the configured bounds are in order, the radius of the
    search is the requested radius (the default when none is given or
    the value does not convert) forced into the bounds: the requested
    radius when it lies within them, the lower bound when it is below
    and the upper bound when it is above, the infinities included.  The
    one exception is a requested radius that is NaN: it passes [min] and
    [max] unchanged, and the search then finds no resort, whatever the
    table holds. *)
Theorem effective_radius_clamps (db : list Resort) (args : gmap string string) :
  (lowest <= highest)%Q ->
  let requested := default (Fin (config.DEFAULT_SEARCH_RADIUS_KM cfg))
                     (args_get_float args "radius") in
  (requested <> NaN ->
   exists r, effective_radius cfg args = Fin r /\
             (lowest <= r)%Q /\ (r <= highest)%Q) /\
  (float_le (Fin lowest) requested = true ->
   float_le requested (Fin highest) = true ->
   effective_radius cfg args = requested) /\
  (float_lt requested (Fin lowest) = true ->
   effective_radius cfg args = Fin lowest) /\
  (float_lt (Fin highest) requested = true ->
   effective_radius cfg args = Fin highest) /\
  (requested = NaN ->
   effective_radius cfg args = NaN /\
   forall n loc radius out,
     search_resorts cfg db args = Success n loc radius out -> out = []).
Proof.
  intros Hbounds requested.
  assert (Hb : Qle_bool lowest highest = true) by by apply Qle_bool_iff.
  assert (Hshape : effective_radius cfg args
                   = max_float (min_float requested (Fin highest)) (Fin lowest))
    by reflexivity.
  destruct requested as [q|[|]|] eqn:Hreq; rewrite Hshape;
    unfold min_float, max_float; cbn [float_lt float_le negb].
  - destruct (Qle_bool q highest) eqn:Hhi; cbn [negb float_lt];
      [|rewrite Hb; cbn [negb]];
      (destruct (Qle_bool lowest q) eqn:Hlo; cbn [negb]);
      repeat match goal with
             | H : Qle_bool _ _ = true |- _ => apply Qle_bool_iff in H
             | H : Qle_bool ?a ?b = false |- _ =>
                 assert (b < a)%Q
                   by (apply Qnot_le_lt; intros ?%Qle_bool_iff; congruence);
                 clear H
             end;
      repeat split; intros; try done; try (exfalso; lra);
      eexists; (split; [reflexivity|]); split; lra.
  - rewrite ?Hb. cbn [negb]. repeat split; try done.
    intros _. exists lowest. split; [done|]. split; lra.
  - rewrite ?Hb. cbn [negb]. repeat split; try done.
    intros _. exists highest. split; [done|]. split; lra.
  - repeat split; try done.
    intros n loc radius out Hs.
    apply search_success in Hs
      as (all_resorts & near & _ & _ & Hr & _ & Hnear & Hsort & _).
    rewrite Hshape in Hr. cbn in Hr. subst radius.
    destruct (nearby_spec _ _ _ _ _ Hnear) as (_ & Hin & _).
    apply sort_results_perm in Hsort.
    destruct near as [|x near].
    + by apply Permutation_nil_r in Hsort.
    + destruct (Hin x (list_elem_of_here _ _)) as (d & _ & Hle & _).
      discriminate.
Qed.

(** [X4] A successful search reports the number of its results and the
    effective radius.  Every result is a resort that passed the filters,
    whose distance from the given coordinates is within that radius, and
    carries that distance rounded; and every resort that passed the
    filters and lies within the radius is among the results. *)
Theorem search_results_sound (db : list Resort) (args : gmap string string)
    (n : nat) (loc : float * float) (radius : float) (out : list ResortDict) :
  search_resorts cfg db args = Success n loc radius out ->
  n = length out /\
  radius = effective_radius cfg args /\
  args_get_float args "lat" = Some (fst loc) /\
  args_get_float args "lng" = Some (snd loc) /\
  exists all_resorts,
    filtered_resorts db args = Ok all_resorts /\
    (forall x, x ∈ out ->
       row x ∈ all_resorts /\
       exists d, calculate_distance (fst loc) (snd loc)
                   (latitude (row x)) (longitude (row x)) = Ok d /\
                 float_le (Fin d) radius = true /\ distance_km x = round1 d) /\
    (forall resort d, resort ∈ all_resorts ->
       calculate_distance (fst loc) (snd loc)
         (latitude resort) (longitude resort) = Ok d ->
       float_le (Fin d) radius = true ->
       {| row := resort; distance_km := round1 d |} ∈ out).
Proof.
  intros H. apply search_success in H
    as (all_resorts & near & Hlat & Hlng & Hr & Hf & Hn & Hs & Hlen).
  apply sort_results_perm in Hs.
  destruct (nearby_spec _ _ _ _ _ Hn) as (Hsub & Hin & Hall).
  repeat split; try done.
  exists all_resorts. repeat split.
  - done.
  - rewrite Hs in H. apply (sublist_subseteq _ _ Hsub).
    apply list_elem_of_fmap. by exists x.
  - rewrite Hs in H. by apply Hin.
  - intros resort d Hr' Hd Hle. rewrite Hs. by eapply Hall.
Qed.

Lemma apply_filters_ext_keys (query : Query) (f g : gmap string string) :
  (forall k, k ∈ search_props.filter_keys -> given f k = given g k) ->
  apply_filters query f = apply_filters query g.
Proof.
  intros H. unfold apply_filters.
  rewrite (H "min_snow"), (H "status"), (H "min_slopes"), (H "max_price"),
    (H "country");
    try (unfold search_props.filter_keys;
         repeat first [apply list_elem_of_here | apply list_elem_of_further]).
  reflexivity.
Qed.

(** [X5] Without a sort parameter the search sorts by distance: the
    answer is the answer to the same request with [sort=distance], and
    when it succeeds the distances of its results never decrease. *)
Theorem search_default_order (db : list Resort) (args : gmap string string) :
  args !! "sort" = None ->
  search_resorts cfg db args
    = search_resorts cfg db (<["sort" := "distance"]> args) /\
  forall n loc radius out,
    search_resorts cfg db args = Success n loc radius out ->
    forall i j x y, out !! i = Some x -> out !! j = Some y -> (i < j)%nat ->
      (distance_km x <= distance_km y)%Q.
Proof.
  intros Hsort. split.
  - unfold search_resorts, effective_radius, args_get_float, filtered_resorts.
    rewrite (lookup_insert_ne args "sort" "lat") by discriminate.
    rewrite (lookup_insert_ne args "sort" "lng") by discriminate.
    rewrite (lookup_insert_ne args "sort" "radius") by discriminate.
    rewrite lookup_insert_eq, Hsort.
    rewrite (apply_filters_ext_keys [] (<["sort":="distance"]> args) args);
      [reflexivity|].
    intros k Hk. unfold given. rewrite lookup_insert_ne; [done|].
    intros <-. unfold search_props.filter_keys in Hk.
    repeat (apply elem_of_cons in Hk as [Hk|Hk]; [discriminate|]).
    by apply elem_of_nil in Hk.
  - intros n loc radius out Hs.
    apply search_success in Hs as (all_resorts & near & _ & _ & _ & _ & _ & Hs & _).
    rewrite Hsort in Hs. cbn [default] in Hs. revert Hs.
    unfold sort_results. cbn [String.eqb Ascii.eqb Bool.eqb].
    unfold sort_by_number. case_bool_decide as Hlen.
    + intros [= <-] i j x y Hi Hj Hij.
      apply lookup_lt_Some in Hj. lia.
    + rewrite (proj2 (forallb_forall _ near));
        [|intros z _; by apply bool_decide_eq_true].
      intros [= <-] i j x y Hi Hj Hij.
      pose proof (strongly_sorted_lookup _ _ i j x y
        (stable_sort_sorted _
           (price_props.price_order_total distance_km)
           (price_props.price_order_trans distance_km) near)
        Hi Hj Hij) as H.
      by apply Qle_bool_iff.
Qed.

End Search.

(** The shipped bounds [10, 500]: a request for 5 km is served with
    10 km, and a request for [nan] km with NaN. *)
Lemma effective_radius_clamps_witness :
  let args : gmap string string := {[ "radius" := "5" ]} in
  let odd : gmap string string := {[ "radius" := "nan" ]} in
  effective_radius (RT := runtime.decimal_runtime) config.shipped args
  = Fin 10 /\
  effective_radius (RT := runtime.decimal_runtime) config.shipped odd = NaN.
Proof.
  intros args odd.
  assert (Hb : (config.MIN_SEARCH_RADIUS_KM config.shipped
                <= config.MAX_SEARCH_RADIUS_KM config.shipped)%Q)
    by (vm_compute; discriminate).
  destruct (effective_radius_clamps (RT := runtime.decimal_runtime)
              (DB := runtime.table_order) config.shipped [] args Hb)
    as (_ & _ & Hbelow & _).
  destruct (effective_radius_clamps (RT := runtime.decimal_runtime)
              (DB := runtime.table_order) config.shipped [] odd Hb)
    as (_ & _ & _ & _ & Hnan).
  split; [apply Hbelow; vm_compute; reflexivity|].
  apply Hnan. vm_compute. reflexivity.
Defined.

(** The request [?lat=46&lng=7] on the two sample resorts. *)
Lemma search_results_sound_witness :
  let out := [ {| row := samples.low_snow; distance_km := 0 |};
               {| row := samples.deep_snow; distance_km := 0 |} ] in
  search_resorts (RT := runtime.decimal_runtime) (DB := runtime.table_order)
    config.shipped samples.two_resorts samples.located
  = Success 2 (Fin 46, Fin 7) (Fin 200) out /\
  2%nat = length out /\
  Fin 200 = effective_radius (RT := runtime.decimal_runtime) config.shipped
              samples.located.
Proof.
  intros out.
  assert (H : search_resorts (RT := runtime.decimal_runtime)
                (DB := runtime.table_order) config.shipped
                samples.two_resorts samples.located
              = Success 2 (Fin 46, Fin 7) (Fin 200) out)
    by (vm_compute; reflexivity).
  split; [exact H|].
  destruct (search_results_sound (RT := runtime.decimal_runtime)
              (DB := runtime.table_order) config.shipped _ _ _ _ _ _ H)
    as (Hn & Hr & _).
  split; [exact Hn|exact Hr].
Defined.

Lemma search_default_order_witness :
  samples.located !! "sort" = None /\
  search_resorts (RT := runtime.decimal_runtime) (DB := runtime.table_order)
    config.shipped samples.two_resorts samples.located
  = search_resorts (RT := runtime.decimal_runtime) (DB := runtime.table_order)
      config.shipped samples.two_resorts
      (<["sort" := "distance"]> samples.located).
Proof.
  assert (H : samples.located !! "sort" = None) by reflexivity.
  split; [exact H|].
  exact (proj1 (search_default_order (RT := runtime.decimal_runtime)
                  (DB := runtime.table_order) config.shipped
                  samples.two_resorts samples.located H)).
Defined.

(** *** The sort keys *)

Lemma string_leb_trans (a b c : string) :
  String.leb a b = true -> String.leb b c = true -> String.leb a c = true.
Proof.
  intros H1 H2. apply Is_true_true.
  apply Is_true_true in H1, H2.
  change (String.le a c). by transitivity b.
Qed.

Lemma sorted_lookups {A} (le : A -> A -> bool) (l : list A) :
  (forall a b, le a b = true \/ le b a = true) ->
  (forall a b c, le a b = true -> le b c = true -> le a c = true) ->
  forall i j x y, stable_sort le l !! i = Some x ->
    stable_sort le l !! j = Some y -> (i < j)%nat -> le x y = true.
Proof.
  intros Htot Htrans i j x y Hi Hj Hij.
  exact (strongly_sorted_lookup _ _ i j x y
           (stable_sort_sorted le Htot Htrans l) Hi Hj Hij).
Qed.

(** [X6] Sorting by [distance] never fails.  The result holds the same
    records in ascending order of distance, and records at the same
    distance keep the order they had. *)
Theorem sort_by_distance_stable (l : list ResortDict) :
  exists out, sort_results "distance" l = Ok out /\
    out ≡ₚ l /\
    (forall i j x y, out !! i = Some x -> out !! j = Some y -> (i < j)%nat ->
       (distance_km x <= distance_km y)%Q) /\
    (forall d, List.filter (fun x => Qeq_bool (distance_km x) d) out
               = List.filter (fun x => Qeq_bool (distance_km x) d) l).
Proof.
  unfold sort_results. cbn [String.eqb Ascii.eqb Bool.eqb].
  unfold sort_by_number. case_bool_decide as Hlen.
  - exists l. repeat split; try done.
    intros i j x y Hi Hj Hij. apply lookup_lt_Some in Hj. lia.
  - rewrite (proj2 (forallb_forall _ l));
      [|intros z _; by apply bool_decide_eq_true].
    eexists. split; [reflexivity|]. split; [apply stable_sort_perm|]. split.
    + intros i j x y Hi Hj Hij. apply Qle_bool_iff.
      exact (sorted_lookups
               (fun a b => Qle_bool (distance_km a) (distance_km b)) l
               (price_props.price_order_total distance_km)
               (price_props.price_order_trans distance_km)
               i j x y Hi Hj Hij).
    + intros d. apply stable_sort_stable. intros a b Ha Hb. simpl.
      apply Qeq_bool_iff in Ha, Hb. apply Qle_bool_iff.
      rewrite Ha, Hb. apply Qle_refl.
Qed.

(** [X7] Sorting by [name] never fails.  The result holds the same
    records in ascending order of name, and records of the same name
    keep the order they had. *)
Theorem sort_by_name_stable (l : list ResortDict) :
  exists out, sort_results "name" l = Ok out /\
    out ≡ₚ l /\
    (forall i j x y, out !! i = Some x -> out !! j = Some y -> (i < j)%nat ->
       String.leb (name (row x)) (name (row y)) = true) /\
    (forall s, List.filter (fun x => String.eqb (name (row x)) s) out
               = List.filter (fun x => String.eqb (name (row x)) s) l).
Proof.
  unfold sort_results. cbn [String.eqb Ascii.eqb Bool.eqb].
  unfold sort_by_string.
  eexists. split; [reflexivity|]. split; [apply stable_sort_perm|]. split.
  - intros i j x y Hi Hj Hij.
    exact (sorted_lookups
             (fun a b => String.leb (name (row a)) (name (row b))) l
             (fun a b => String.leb_total _ _)
             (fun a b c => string_leb_trans _ _ _)
             i j x y Hi Hj Hij).
  - intros s. apply stable_sort_stable. intros a b Ha Hb.
    apply String.eqb_eq in Ha, Hb. rewrite Ha, Hb.
    destruct (String.leb_total s s); done.
Qed.

(** [X8] Sorting by [snow] succeeds when every conditions row carries a
    mountain snow depth.  The result holds the same records in
    descending order of the sort key, which is the mountain snow depth
    and 0 for a record without conditions. *)
Theorem sort_by_snow_descending (l : list ResortDict) :
  (forall x, x ∈ l -> is_Some (snow_key x)) ->
  exists out, sort_results "snow" l = Ok out /\
    out ≡ₚ l /\
    (forall x, conditions (row x) = None -> snow_key x = Some 0%Q) /\
    (forall x c d, conditions (row x) = Some c ->
       snow_depth_mountain c = Some d -> snow_key x = Some (inject_Z d)) /\
    (forall i j x y sx sy, out !! i = Some x -> out !! j = Some y ->
       (i < j)%nat -> snow_key x = Some sx -> snow_key y = Some sy ->
       (sy <= sx)%Q).
Proof.
  intros Hkeys.
  unfold sort_results. cbn [String.eqb Ascii.eqb Bool.eqb].
  unfold sort_by_number. case_bool_decide as Hlen.
  - exists l. repeat split; try done.
    + intros x Hx. unfold snow_key. by rewrite Hx.
    + intros x c d Hc Hd. unfold snow_key. by rewrite Hc, Hd.
    + intros i j x y sx sy Hi Hj Hij. apply lookup_lt_Some in Hj. lia.
  - rewrite (proj2 (forallb_forall _ l));
      [|intros z Hz; apply bool_decide_eq_true, Hkeys; by apply list_elem_of_In].
    eexists. split; [reflexivity|]. split; [apply stable_sort_perm|].
    repeat split.
    + intros x Hx. unfold snow_key. by rewrite Hx.
    + intros x c d Hc Hd. unfold snow_key. by rewrite Hc, Hd.
    + intros i j x y sx sy Hi Hj Hij Hx Hy.
      pose proof (sorted_lookups
        (fun a b => Qle_bool (default 0%Q (snow_key b)) (default 0%Q (snow_key a)))
        l) as H.
      specialize (H
        (fun a b => price_props.price_order_total
                      (fun z => default 0%Q (snow_key z)) b a)
        (fun a b c Hab Hbc => price_props.price_order_trans
                      (fun z => default 0%Q (snow_key z)) c b a Hbc Hab)
        i j x y Hi Hj Hij).
      cbv beta in H. rewrite Hx, Hy in H. by apply Qle_bool_iff.
Qed.

(** [X9] With two or more results, sorting by [price] fails with
    [TypeError] as soon as one result has a pricing row without an adult
    day-pass price, and sorting by [snow] as soon as one has a conditions
    row without a mountain snow depth. *)
Theorem sort_fails_on_null_value (l : list ResortDict) (x : ResortDict) :
  (2 <= length l)%nat -> x ∈ l ->
  ((exists p, pricing (row x) = Some p /\ adult_day_pass p = None) ->
   sort_results "price" l = Raise TypeError) /\
  ((exists c, conditions (row x) = Some c /\ snow_depth_mountain c = None) ->
   sort_results "snow" l = Raise TypeError).
Proof.
  intros Hlen Hx.
  assert (Hraise : forall key reverse, key x = None ->
            sort_by_number key reverse l = Raise TypeError).
  { intros key reverse Hkey. unfold sort_by_number.
    rewrite bool_decide_eq_false_2 by lia.
    destruct (forallb _ l) eqn:Hall; [|done].
    rewrite forallb_forall in Hall.
    apply list_elem_of_In, Hall, bool_decide_eq_true in Hx.
    rewrite Hkey in Hx. by destruct Hx. }
  split.
  - intros (p & Hp & Hnull). unfold sort_results.
    cbn [String.eqb Ascii.eqb Bool.eqb].
    apply Hraise. unfold price_key. by rewrite Hp.
  - intros (c & Hc & Hnull). unfold sort_results.
    cbn [String.eqb Ascii.eqb Bool.eqb].
    apply Hraise. unfold snow_key. by rewrite Hc, Hnull.
Qed.


(** The shallow resort before the deep one: sorted by snow, the deep one
    comes first. *)
Lemma sort_by_snow_descending_witness :
  (forall x, x ∈ [cases.low_result; cases.deep_result] -> is_Some (snow_key x)) /\
  (exists out,
     sort_results "snow" [cases.low_result; cases.deep_result] = Ok out /\
     out ≡ₚ [cases.low_result; cases.deep_result]) /\
  sort_results "snow" [cases.low_result; cases.deep_result]
    = Ok [cases.deep_result; cases.low_result].
Proof.
  assert (H : forall x, x ∈ [cases.low_result; cases.deep_result] ->
                        is_Some (snow_key x)).
  { intros x Hx. apply list_elem_of_In in Hx.
    destruct Hx as [<-|[<-|[]]]; vm_compute; eauto. }
  split; [exact H|].
  destruct (sort_by_snow_descending _ H) as (out & Hout & Hperm & _).
  split; [by exists out|]. vm_compute. reflexivity.
Defined.

Lemma sort_fails_on_null_value_witness :
  (2 <= length [samples.unpriced; cases.hollow])%nat /\
  cases.hollow ∈ [samples.unpriced; cases.hollow] /\
  sort_results "price" [samples.unpriced; cases.hollow] = Raise TypeError /\
  sort_results "snow" [samples.unpriced; cases.hollow] = Raise TypeError.
Proof.
  assert (Hlen : (2 <= length [samples.unpriced; cases.hollow])%nat)
    by (simpl; lia).
  assert (Hin : cases.hollow ∈ [samples.unpriced; cases.hollow])
    by (apply list_elem_of_further, list_elem_of_here).
  destruct (sort_fails_on_null_value _ _ Hlen Hin) as (Hprice & Hsnow).
  split; [exact Hlen|]. split; [exact Hin|]. split.
  - apply Hprice. eexists. split; reflexivity.
  - apply Hsnow. eexists. split; reflexivity.
Defined.

End search_more.

(** ** The other routes of [app.py] *)

Module routes.
Import models app.

Section Routes.
Context `{RT : PyRuntime} `{DB : Database}.

Lemma list_filter_none {A} (p : A -> bool) (l : list A) :
  (forall x, x ∈ l -> p x = false) -> List.filter p l = [].
Proof.
  induction l as [|a l IH]; intros H; [done|].
  cbn [List.filter]. rewrite (H a) by apply list_elem_of_here.
  apply IH. intros x Hx. apply H. by apply list_elem_of_further.
Qed.

(** In a table with distinct ids, the rows with the id of a row are that
    row alone. *)
Lemma rows_of_id (db : list Resort) (r : Resort) :
  NoDup (map id db) -> r ∈ db ->
  List.filter (fun x => Z.eqb (id x) (id r)) db = [r].
Proof.
  induction db as [|r' db IH]; intros Hids Hr; [by apply elem_of_nil in Hr|].
  cbn [map] in Hids. apply NoDup_cons in Hids as [Hfresh Hids].
  assert (Hnone : r' ∈ db -> False).
  { intros Hin. apply Hfresh. apply list_elem_of_fmap. by exists r'. }
  cbn [List.filter]. apply elem_of_cons in Hr as [<-|Hr].
  - rewrite Z.eqb_refl. f_equal.
    apply list_filter_none. intros x Hx. apply Z.eqb_neq. intros Heq.
    apply Hfresh. apply list_elem_of_fmap. by exists x.
  - destruct (Z.eqb_spec (id r') (id r)) as [Heq|_]; [|by apply IH].
    exfalso. apply Hfresh. apply list_elem_of_fmap. by exists r.
Qed.

Lemma matches_id (n : Z) (db : list Resort) :
  List.filter (matches [filter_resort (id_eq n)]) db
  = List.filter (fun x => Z.eqb (id x) n) db.
Proof.
  apply List.filter_ext. intros x. unfold matches. cbn. apply andb_true_r.
Qed.

(** [X10] A resort is found by its id: when the ids of the table are
    distinct and the id fits 64 bits, asking for the id of a row returns
    that row, and the answer is the 404 exactly when no row has the id.
    An id beyond 64 bits cannot be bound to the statement: the answer is
    then the 500 response, and only then. *)
Theorem get_resort_by_id (db : list Resort) (resort_id : Z) :
  NoDup (map id db) ->
  (int64 resort_id = true -> forall r, r ∈ db -> id r = resort_id ->
     get_resort db resort_id = Found r) /\
  (get_resort db resort_id = NotFound "Resort not found" <->
   int64 resort_id = true /\ forall r, r ∈ db -> id r <> resort_id) /\
  (get_resort db resort_id = ListingError OverflowError <->
   int64 resort_id = false).
Proof.
  intros Hids. unfold get_resort, first, all.
  cbn [ambiguous List.filter joins_conditions joins_pricing length Nat.ltb
       Nat.leb orb forallb bindable].
  rewrite andb_true_r.
  pose proof (fetch_matches db [filter_resort (id_eq resort_id)]) as Hperm.
  rewrite matches_id in Hperm.
  destruct (int64 resort_id); cbn [negb mbind result_bind].
  2:{ split; [done|]. split; [|done]. split; [done|]. by intros [? _]. }
  split; [|split].
  - intros _ r Hr <-. rewrite (rows_of_id db r Hids Hr) in Hperm.
    apply Permutation_singleton_r in Hperm. by rewrite Hperm.
  - destruct (fetch db _) as [|r rows] eqn:Hrows; cbn [head].
    + split; [|done]. intros _. split; [done|]. intros r Hr Hid.
      apply Permutation_nil_l in Hperm.
      assert (Hin : In r (List.filter (fun x => Z.eqb (id x) resort_id) db)).
      { apply filter_In. split; [by apply list_elem_of_In|by apply Z.eqb_eq]. }
      by rewrite <- Hperm in Hin.
    + split; [done|]. intros (_ & Hnone). exfalso.
      assert (Hin : r ∈ List.filter (fun x => Z.eqb (id x) resort_id) db).
      { rewrite <- Hperm. apply list_elem_of_here. }
      apply list_elem_of_In, filter_In in Hin as [Hin Hid].
      apply (Hnone r); [by apply list_elem_of_In|by apply Z.eqb_eq].
  - by destruct (head (fetch db _)).
Qed.

(** [X11] The listing and the search agree on the filters: when a
    search succeeds, the listing for the same parameters succeeds too,
    it holds the rows of the table that satisfy every predicate whose
    value is given, and the row of every search result is in it. *)
Theorem search_results_are_listed (cfg : config.t) (db : list Resort)
    (args : gmap string string) (n : nat) (loc : float * float)
    (radius : float) (out : list ResortDict) :
  search_resorts cfg db args = Success n loc radius out ->
  exists resorts,
    get_all_resorts db args = Listed (length resorts) resorts /\
    (forall r, r ∈ resorts <-> r ∈ db /\ filter_props.survives args r) /\
    forall x, x ∈ out -> row x ∈ resorts.
Proof.
  intros H. apply search_more.search_success in H
    as (resorts & near & _ & _ & _ & Hf & Hn & Hs & _).
  apply search_more.sort_results_perm in Hs.
  destruct (search_more.nearby_spec _ _ _ _ _ Hn) as (Hsub & _ & _).
  exists resorts. unfold get_all_resorts. rewrite Hf. split; [done|]. split.
  - by apply filter_more.filtered_resorts_rows.
  - intros x Hx. rewrite Hs in Hx. apply (sublist_subseteq _ _ Hsub).
    apply list_elem_of_fmap. by exists x.
Qed.

End Routes.

(** The table of the two sample resorts, whose ids are 1 and 2. *)
Lemma get_resort_by_id_witness :
  NoDup (map id samples.two_resorts) /\
  get_resort (DB := runtime.table_order) samples.two_resorts 2
  = Found samples.deep_snow /\
  get_resort (DB := runtime.table_order) samples.two_resorts 7
  = NotFound "Resort not found" /\
  get_resort (DB := runtime.table_order) samples.two_resorts (2 ^ 63)
  = ListingError OverflowError.
Proof.
  assert (H : NoDup (map id samples.two_resorts)).
  { simpl. apply NoDup_cons. split; [|apply NoDup_singleton].
    intros Hin. apply list_elem_of_singleton in Hin. discriminate. }
  destruct (get_resort_by_id (DB := runtime.table_order)
              samples.two_resorts 2 H) as (Hfound & _).
  destruct (get_resort_by_id (DB := runtime.table_order)
              samples.two_resorts 7 H) as (_ & Hnone & _).
  destruct (get_resort_by_id (DB := runtime.table_order)
              samples.two_resorts (2 ^ 63) H) as (_ & _ & Hover).
  split; [exact H|]. split; [|split].
  - apply Hfound; [reflexivity| |reflexivity].
    apply list_elem_of_further, list_elem_of_here.
  - apply Hnone. split; [reflexivity|]. intros r Hr.
    apply list_elem_of_In in Hr. destruct Hr as [<-|[<-|[]]]; discriminate.
  - apply Hover. reflexivity.
Defined.

Lemma search_results_are_listed_witness :
  search_resorts (RT := runtime.decimal_runtime) (DB := runtime.table_order)
    config.shipped samples.two_resorts samples.located
  = Success 2 (Fin 46, Fin 7) (Fin 200) [cases.low_result; cases.deep_result] /\
  exists resorts,
    get_all_resorts (RT := runtime.decimal_runtime)
      (DB := runtime.table_order) samples.two_resorts samples.located
    = Listed (length resorts) resorts /\
    forall x, x ∈ [cases.low_result; cases.deep_result] -> row x ∈ resorts.
Proof.
  assert (H : search_resorts (RT := runtime.decimal_runtime)
                (DB := runtime.table_order) config.shipped
                samples.two_resorts samples.located
              = Success 2 (Fin 46, Fin 7) (Fin 200)
                  [cases.low_result; cases.deep_result])
    by (vm_compute; reflexivity).
  split; [exact H|].
  destruct (search_results_are_listed (RT := runtime.decimal_runtime)
              (DB := runtime.table_order) config.shipped _ _ _ _ _ _ H)
    as (resorts & Hlist & _ & Hrows).
  by exists resorts.
Defined.

End routes.

(** ** Fetching: cache, clock and log *)

Module fetch_more.
Import base_scraper.

(** The entry written for a payload at a time. *)
Definition entry `{PF : Platform} (at_time : Z) (data : string) : file :=
  JsonFile (JObj [("timestamp", JStr (isoformat at_time)); ("data", JStr data)]).

Definition total (waits : list Z) : Z := foldr Z.add 0 waits.

Section Fetch.
Context `{PF : Platform} (cfg : config.t) (net : nat -> reply).

Local Abbreviation ttl := (config.CACHE_EXPIRY_HOURS cfg * hour).
Local Abbreviation max_retries := (config.SCRAPER_MAX_RETRIES cfg).

(** What the retry loop leaves behind: it returns [None] or a string;
    only a returned string is written to the cache, under the time at
    which the loop ends, and only when the cache is in use; the clock
    does not go back and the record of the rate limiter is kept. *)
Lemma retry_loop_effects (url : string) (use_cache : bool)
    (remaining attempt : nat) (s : state) :
  let '(s', r) := retry_loop cfg net url use_cache remaining attempt s in
  now s <= now s' /\
  ((r = JNull /\ files s' = files s) \/
   (exists text, r = JStr text /\
      files s' = if use_cache
                 then <[_get_cache_path url := entry (now s') text]> (files s)
                 else files s)).
Proof.
  revert attempt s. induction remaining as [|remaining IH]; intros attempt s.
  - simpl. split; [lia|by left].
  - simpl. destruct (net (length (sent s))) as [took|took text] eqn:Hnet.
    + destruct (_ =? _); simpl.
      * split; [lia|by left].
      * match goal with |- context [retry_loop _ _ _ _ _ _ ?s1] =>
          specialize (IH (S attempt) s1) end.
        destruct (retry_loop _ _ _ _ _ _ _) as [s' r].
        destruct IH as (Hnow & Hfiles). simpl in Hnow.
        assert (0 <= 2 ^ Z.of_nat attempt * second)
          by (unfold second; apply Z.mul_nonneg_nonneg; [apply Z.pow_nonneg|]; lia).
        split; [lia|]. exact Hfiles.
    + destruct use_cache; simpl; (split; [lia|]); right; by exists text.
Qed.

(** [X12] With the cache disabled [fetch_url] never raises, returns
    [None] or a string, and leaves every file of the cache as it was. *)
Theorem fetch_without_cache_keeps_files (url : string) (s : state) :
  exists s' r,
    fetch_url cfg net url false s = Ok (s', r) /\
    (r = JNull \/ exists text, r = JStr text) /\
    files s' = files s.
Proof.
  unfold fetch_url. cbn.
  pose proof (retry_loop_effects url false max_retries 0 (_rate_limit cfg s))
    as H.
  destruct (retry_loop _ _ _ _ _ _ _) as [s' r].
  exists s', r. split; [done|].
  assert (Hf : files (_rate_limit cfg s) = files s).
  { unfold _rate_limit. by destruct (_ <? _). }
  destruct H as (_ & [(-> & Hfiles)|(text & -> & Hfiles)]).
  - split; [by left|congruence].
  - split; [right; by exists text|congruence].
Qed.

(** [X13] A cache entry for the URL that is younger than the expiry
    time and holds a non-empty string is returned as it is, and the call
    changes nothing: no request, no wait, no write. *)
Theorem fetch_cache_hit (url ts text : string) (t : Z)
    (kv : list (string * json)) (s : state) :
  files s !! _get_cache_path url = Some (JsonFile (JObj kv)) ->
  obj_get "timestamp" kv = Some (JStr ts) ->
  fromisoformat ts = Some (Naive t) ->
  now s - t < ttl ->
  obj_get "data" kv = Some (JStr text) ->
  text <> "" ->
  fetch_url cfg net url true s = Ok (s, JStr text).
Proof.
  intros Hfile Hts Ht Hfresh Hdata Htext. unfold fetch_url.
  erewrite cache_props.get_cached_entry by eassumption.
  destruct (Z.ltb_spec (now s - t) ttl); [|lia]. cbn.
  destruct (String.eqb_spec text ""); [done|]. done.
Qed.

(** [X14] Fetching twice: when a call with the cache in use misses the
    cache and obtains a non-empty document from the network, a second
    call for the same URL, made before the expiry time has elapsed,
    returns the same document without a request. *)
Theorem fetch_twice (url text : string) (s s1 : state) (elapsed : Z) :
  (exists c, _get_cached cfg s url = Ok c /\ truthy c = false) ->
  fetch_url cfg net url true s = Ok (s1, JStr text) ->
  text <> "" ->
  elapsed < ttl ->
  fetch_url cfg net url true (cache_props.later s1 elapsed)
    = Ok (cache_props.later s1 elapsed, JStr text).
Proof.
  intros (c & Hc & Hfalse) Hfetch Htext Hlt.
  unfold fetch_url in Hfetch. rewrite Hc in Hfetch. cbn in Hfetch.
  rewrite Hfalse in Hfetch.
  pose proof (retry_loop_effects url true max_retries 0 (_rate_limit cfg s))
    as H.
  destruct (retry_loop _ _ _ _ _ _ _) as [s' r].
  injection Hfetch as -> ->.
  destruct H as (_ & [(Hr & _)|(text' & [= <-] & Hfiles)]); [done|].
  unfold fetch_url.
  rewrite (cache_props.get_cached_entry cfg (cache_props.later s1 elapsed)
             url (isoformat (now s1)) (now s1)
             [("timestamp", JStr (isoformat (now s1))); ("data", JStr text)]
             (JStr text)).
  - simpl. destruct (Z.ltb_spec (now s1 + elapsed - now s1) ttl); [|lia].
    cbn. by destruct (String.eqb_spec text "").
  - simpl. rewrite Hfiles. apply lookup_insert_eq.
  - reflexivity.
  - apply fromisoformat_isoformat.
  - reflexivity.
Qed.

(** [X15] The cache store: an entry that was put is returned while it
    is younger than the expiry time and is a miss from then on; putting
    an entry leaves the look-up of every key with another file as it was;
    and a second put for the key replaces the first. *)
Theorem cache_entry_lifetime (s : state) (key data : string) :
  (forall elapsed, elapsed < ttl ->
     _get_cached cfg (cache_props.later (_set_cached s key data) elapsed) key
     = Ok (JStr data)) /\
  (forall elapsed, ttl <= elapsed ->
     _get_cached cfg (cache_props.later (_set_cached s key data) elapsed) key
     = Ok JNull) /\
  (forall other, _get_cache_path other <> _get_cache_path key ->
     _get_cached cfg (_set_cached s key data) other = _get_cached cfg s other) /\
  (forall previous,
     _set_cached (_set_cached s key previous) key data = _set_cached s key data).
Proof.
  repeat split.
  - intros elapsed H. rewrite cache_props.get_cached_after_set.
    by destruct (Z.ltb_spec elapsed ttl); [|lia].
  - intros elapsed H. rewrite cache_props.get_cached_after_set.
    by destruct (Z.ltb_spec elapsed ttl); [lia|].
  - intros other Hother. unfold _get_cached. simpl.
    by rewrite lookup_insert_ne.
  - intros previous. unfold _set_cached. simpl. f_equal.
    apply insert_insert_eq.
Qed.

(** [X16] The malformed entries that the cache does tolerate: a file
    that is not JSON, an object without a timestamp, a timestamp that is
    not a date, and an unexpired object without data are all misses, and
    [fetch_url] then goes to the network as if there were no file. *)
Theorem tolerated_entries_miss (url : string) (s : state) (f : file) :
  files s !! _get_cache_path url = Some f ->
  f = NotJson \/
  (exists kv, f = JsonFile (JObj kv) /\ obj_get "timestamp" kv = None) \/
  (exists kv ts, f = JsonFile (JObj kv) /\
     obj_get "timestamp" kv = Some (JStr ts) /\ fromisoformat ts = None) \/
  (exists kv ts t, f = JsonFile (JObj kv) /\
     obj_get "timestamp" kv = Some (JStr ts) /\
     fromisoformat ts = Some (Naive t) /\ obj_get "data" kv = None) ->
  _get_cached cfg s url = Ok JNull /\
  fetch_url cfg net url true s
    = Ok (retry_loop cfg net url true max_retries 0 (_rate_limit cfg s)).
Proof.
  intros Hfile Hshape.
  assert (Hmiss : _get_cached cfg s url = Ok JNull).
  { unfold _get_cached. rewrite Hfile.
    destruct Hshape as [->|[(kv & -> & Hts)|[(kv & ts & -> & Hts & Hiso)
                       |(kv & ts & t & -> & Hts & Hiso & Hdata)]]]; cbn.
    - done.
    - by rewrite Hts.
    - rewrite Hts. cbn. by rewrite Hiso.
    - rewrite Hts. cbn. rewrite Hiso. cbn.
      destruct (_ <? _); cbn; [by rewrite Hdata|done]. }
  split; [done|]. unfold fetch_url. by rewrite Hmiss.
Qed.

(** [X17] Whatever [fetch_url] returns, it has not moved the clock back,
    it has added to the log at most [max_retries] requests, all for the
    URL, and it has left the cache file of every other path as it was. *)
Theorem fetch_effects (url : string) (use_cache : bool) (s s' : state)
    (r : json) :
  fetch_url cfg net url use_cache s = Ok (s', r) ->
  now s <= now s' /\
  (exists extra, sent s' = sent s ++ extra /\
     (length extra <= max_retries)%nat /\
     Forall (fun e => fst e = url) extra) /\
  (forall path, path <> _get_cache_path url ->
     files s' !! path = files s !! path).
Proof.
  unfold fetch_url.
  destruct (if use_cache then _get_cached cfg s url else Ok JNull)
    as [c|e]; cbn; [|discriminate].
  destruct (truthy c).
  - intros [= <- <-]. split; [lia|]. split; [|done].
    exists []. rewrite app_nil_r. repeat split; [simpl; lia|constructor].
  - pose proof (retry_loop_effects url use_cache max_retries 0
                  (_rate_limit cfg s)) as Heff.
    pose proof (retry_props.retry_loop_bound cfg net url use_cache
                  max_retries 0 (_rate_limit cfg s)) as (extra & Hsent & Hb).
    destruct (retry_loop _ _ _ _ _ _ _) as [s1 r1].
    intros [= <- <-]. simpl in Hsent.
    assert (Hrl : now s <= now (_rate_limit cfg s) /\
                  sent (_rate_limit cfg s) = sent s /\
                  files (_rate_limit cfg s) = files s).
    { unfold _rate_limit.
      destruct (Z.ltb_spec (now s - last_request_time s)
                  (config.SCRAPER_RATE_LIMIT cfg * second)); simpl;
        repeat split; lia. }
    destruct Hrl as (Hnow & Hs & Hf). destruct Heff as (Hnow' & Hfiles).
    split; [lia|]. split.
    + exists extra. by rewrite <- Hs.
    + intros path Hpath.
      destruct Hfiles as [(_ & ->)|(text & _ & ->)]; [by rewrite Hf|].
      destruct use_cache; rewrite ?lookup_insert_ne, ?Hf; done.
Qed.

Lemma total_app (l k : list Z) : total (l ++ k) = total l + total k.
Proof. induction l as [|x l IH]; simpl; [done|]. rewrite IH. lia. Qed.

Lemma total_backoff (attempt n : nat) :
  total (map retry_props.backoff (seq attempt n))
  = (2 ^ Z.of_nat (attempt + n) - 2 ^ Z.of_nat attempt) * second.
Proof.
  revert attempt. induction n as [|n IH]; intros attempt; simpl.
  - rewrite Nat.add_0_r. unfold second. lia.
  - rewrite IH. unfold retry_props.backoff.
    replace (Z.of_nat (S attempt + n)) with (Z.of_nat (attempt + S n)) by lia.
    replace (Z.of_nat (S attempt)) with (Z.of_nat attempt + 1) by lia.
    rewrite Z.pow_add_r, Z.pow_1_r by lia. unfold second.
    generalize (2 ^ Z.of_nat attempt) (2 ^ Z.of_nat (attempt + S n)).
    intros p q. lia.
Qed.

(** [X18] The price of giving up: when all [max_retries] requests fail
    (at least one being configured), [fetch_url] returns [None] and the
    waits it has added after the rate limit sum up to
    [2 ^ (max_retries - 1) - 1] seconds. *)
Theorem exhausted_backoff_total (url : string) (s : state) :
  (1 <= max_retries)%nat ->
  (forall i, (i < max_retries)%nat ->
     retry_props.failed (net (length (sent s) + i))) ->
  exists s',
    fetch_url cfg net url false s = Ok (s', JNull) /\
    total (slept s')
    = total (slept (_rate_limit cfg s))
      + (2 ^ Z.of_nat (max_retries - 1) - 1) * second.
Proof.
  intros Hmax Hfail. unfold fetch_url. cbn.
  assert (Hsent : sent (_rate_limit cfg s) = sent s).
  { unfold _rate_limit. by destruct (_ <? _). }
  destruct (retry_props.retry_loop_exhausted cfg net url false max_retries 0
              (_rate_limit cfg s)) as (s' & -> & _ & Hslept);
    rewrite ?Hsent; try done.
  exists s'. split; [done|].
  rewrite Hslept, total_app, total_backoff, Nat.add_0_l.
  change (2 ^ Z.of_nat 0) with 1. reflexivity.
Qed.

(** [X19] Two calls in a row with the cache disabled (at least one
    attempt being configured): the first request of the second call is
    issued at least the rate limit after the first request of the first
    call. *)
Theorem successive_calls_spaced (url1 url2 : string) (s : state) :
  (1 <= max_retries)%nat ->
  exists s1 r1 s2 r2 rest1 rest2 t1 t2,
    fetch_url cfg net url1 false s = Ok (s1, r1) /\
    fetch_url cfg net url2 false s1 = Ok (s2, r2) /\
    sent s1 = sent s ++ (url1, t1) :: rest1 /\
    sent s2 = sent s1 ++ (url2, t2) :: rest2 /\
    config.SCRAPER_RATE_LIMIT cfg * second <= t2 - t1.
Proof.
  intros Hmax.
  destruct (rate_props.first_requests_spaced cfg net url1 s Hmax)
    as (s1 & r1 & rest1 & Hf1 & Hs1 & _).
  destruct (rate_props.first_requests_spaced cfg net url2 s1 Hmax)
    as (s2 & r2 & rest2 & Hf2 & Hs2 & Hgap).
  exists s1, r1, s2, r2, rest1, rest2,
    (last_request_time s1), (last_request_time s2).
  done.
Qed.

End Fetch.

(** A cache directory whose file for the URL is not JSON. *)
Definition garbled : state := {|
  now := now samples.fresh;
  last_request_time := 0;
  files := {[ _get_cache_path (PF := runtime.epoch_platform)
                samples.zermatt_url := NotJson ]};
  sent := [];
  slept := []
|}.

(** The cache after a document was stored for the URL. *)
Definition cached_page : state :=
  _set_cached (PF := runtime.epoch_platform) samples.fresh
    samples.zermatt_url "<html>ok</html>".

Lemma fetch_cache_hit_witness :
  fetch_url (PF := runtime.epoch_platform) config.shipped samples.down
    samples.zermatt_url true cached_page
  = Ok (cached_page, JStr "<html>ok</html>").
Proof.
  apply (fetch_cache_hit (PF := runtime.epoch_platform) config.shipped
           samples.down samples.zermatt_url
           (runtime.epoch_isoformat (now samples.fresh)) "<html>ok</html>"
           (now samples.fresh)
           [("timestamp", JStr (runtime.epoch_isoformat (now samples.fresh)));
            ("data", JStr "<html>ok</html>")]).
  - vm_compute. reflexivity.
  - reflexivity.
  - vm_compute. reflexivity.
  - vm_compute. reflexivity.
  - reflexivity.
  - discriminate.
Defined.

Lemma fetch_twice_witness :
  exists s1,
    fetch_url (PF := runtime.epoch_platform) config.shipped
      (samples.serves "<html>ok</html>") samples.zermatt_url true samples.fresh
    = Ok (s1, JStr "<html>ok</html>") /\
    fetch_url (PF := runtime.epoch_platform) config.shipped
      (samples.serves "<html>ok</html>") samples.zermatt_url true
      (cache_props.later s1 (3 * hour))
    = Ok (cache_props.later s1 (3 * hour), JStr "<html>ok</html>").
Proof.
  eexists. split; [vm_compute; reflexivity|].
  apply (fetch_twice (PF := runtime.epoch_platform) config.shipped
           (samples.serves "<html>ok</html>") samples.zermatt_url
           "<html>ok</html>" samples.fresh).
  - exists JNull. split; vm_compute; reflexivity.
  - vm_compute. reflexivity.
  - discriminate.
  - vm_compute. reflexivity.
Defined.

Lemma tolerated_entries_miss_witness :
  files garbled !! _get_cache_path (PF := runtime.epoch_platform)
                     samples.zermatt_url = Some NotJson /\
  _get_cached (PF := runtime.epoch_platform) config.shipped garbled
    samples.zermatt_url = Ok JNull.
Proof.
  assert (H : files garbled !! _get_cache_path (PF := runtime.epoch_platform)
                samples.zermatt_url = Some NotJson) by (vm_compute; reflexivity).
  split; [exact H|].
  exact (proj1 (tolerated_entries_miss (PF := runtime.epoch_platform)
                  config.shipped samples.down samples.zermatt_url garbled
                  NotJson H (or_introl eq_refl))).
Defined.

Lemma fetch_effects_witness :
  exists s',
    fetch_url (PF := runtime.epoch_platform) config.shipped samples.flaky
      samples.zermatt_url true samples.fresh = Ok (s', JStr "<html>ok</html>") /\
    now samples.fresh <= now s' /\
    (exists extra, sent s' = sent samples.fresh ++ extra /\
       (length extra <= 3)%nat).
Proof.
  eexists. split; [vm_compute; reflexivity|].
  match goal with |- now _ <= now ?s1 /\ _ =>
    destruct (fetch_effects (PF := runtime.epoch_platform) config.shipped
                samples.flaky samples.zermatt_url true samples.fresh s1
                (JStr "<html>ok</html>"))
      as (Hnow & (extra & Hsent & Hlen & _) & _)
  end.
  - vm_compute. reflexivity.
  - split; [exact Hnow|]. exists extra. split; [exact Hsent|exact Hlen].
Defined.

Lemma exhausted_backoff_total_witness :
  exists s',
    fetch_url (PF := runtime.epoch_platform) config.shipped samples.down
      samples.zermatt_url false samples.fresh = Ok (s', JNull) /\
    total (slept s') = 3 * second.
Proof.
  destruct (exhausted_backoff_total (PF := runtime.epoch_platform)
              config.shipped samples.down samples.zermatt_url samples.fresh)
    as (s' & Hf & Htotal).
  - simpl. lia.
  - intros i _. by exists 0%N.
  - exists s'. split; [exact Hf|exact Htotal].
Defined.

Lemma successive_calls_spaced_witness :
  exists s1 r1 s2 r2 rest1 rest2 t1 t2,
    fetch_url (PF := runtime.epoch_platform) config.shipped samples.flaky
      samples.zermatt_url false samples.fresh = Ok (s1, r1) /\
    fetch_url (PF := runtime.epoch_platform) config.shipped samples.flaky
      samples.zermatt_url false s1 = Ok (s2, r2) /\
    sent s1 = sent samples.fresh ++ (samples.zermatt_url, t1) :: rest1 /\
    sent s2 = sent s1 ++ (samples.zermatt_url, t2) :: rest2 /\
    2 * second <= t2 - t1.
Proof.
  apply (successive_calls_spaced (PF := runtime.epoch_platform)
           config.shipped samples.flaky samples.zermatt_url
           samples.zermatt_url samples.fresh).
  simpl. lia.
Defined.

End fetch_more.

(** ** Extraction: what the passes keep and set *)

Module extract_more.
Import base_scraper bergfex_scraper.

(** A statement run from a state that satisfies [I] ends in such a
    state, and the value it returns satisfies [Q]. *)
Definition keeps {A} (I : resort_data -> Prop) (m : step A) (Q : A -> Prop)
  : Prop :=
  forall d, I d -> I (fst (m d)) /\ forall a, snd (m d) = Ok a -> Q a.

Lemma keeps_pure {A} (I : resort_data -> Prop) (a : A) (Q : A -> Prop) :
  Q a -> keeps I (pure a) Q.
Proof. intros HQ d Hd. split; [done|]. by intros a' [= <-]. Qed.

Lemma keeps_lift {A} (I : resort_data -> Prop) (r : result A) (Q : A -> Prop) :
  (forall a, r = Ok a -> Q a) -> keeps I (lift r) Q.
Proof. intros HQ d Hd. split; [done|]. simpl. apply HQ. Qed.

Lemma keeps_assign (I : resort_data -> Prop) (f : resort_data -> resort_data)
    (Q : unit -> Prop) :
  (forall d, I d -> I (f d)) -> Q () -> keeps I (assign f) Q.
Proof. intros Hf HQ d Hd. split; [by apply Hf|]. by intros [] _. Qed.

Lemma keeps_and_then {A B} (I : resort_data -> Prop) (m : step A)
    (k : A -> step B) (P : A -> Prop) (Q : B -> Prop) :
  keeps I m P -> (forall a, P a -> keeps I (k a) Q) ->
  keeps I (and_then m k) Q.
Proof.
  intros Hm Hk d Hd. unfold and_then.
  destruct (Hm d Hd) as (HI & HP).
  destruct (m d) as [d' [a|e]]; simpl in *; [|split; [done|discriminate]].
  exact (Hk a (HP a eq_refl) d' HI).
Qed.

Lemma keeps_weaken {A} (I : resort_data -> Prop) (m : step A)
    (P Q : A -> Prop) :
  keeps I m P -> (forall a, P a -> Q a) -> keeps I m Q.
Proof. intros Hm HPQ d Hd. destruct (Hm d Hd). split; auto. Qed.

Lemma keeps_for_each {A} (I : resort_data -> Prop) (body : A -> step unit)
    (l : list A) :
  (forall x, keeps I (body x) (fun _ => True)) ->
  keeps I (for_each body l) (fun _ => True).
Proof.
  intros Hbody. induction l as [|x l IH]; simpl.
  - by apply keeps_pure.
  - eapply keeps_and_then; [apply Hbody|]. intros _ _. exact IH.
Qed.

Lemma keeps_skipping (I : resort_data -> Prop) (caught : list exn)
    (m : step unit) :
  keeps I m (fun _ => True) -> keeps I (skipping caught m) (fun _ => True).
Proof.
  intros Hm d Hd. unfold skipping. destruct (Hm d Hd) as (HI & _).
  destruct (m d) as [d' [[]|e]]; simpl in *; [done|].
  by destruct (bool_decide _).
Qed.

Section Passes.
Context `{RT : PyRuntime}.

(** The JSON-LD pass keeps every invariant that the four assignments of
    latitude, longitude, region and a sliced description keep. *)
Lemma read_item_keeps (I : resort_data -> Prop) (item : json) :
  (forall v d, I d -> I (set_latitude v d)) ->
  (forall v d, I d -> I (set_longitude v d)) ->
  (forall v d, I d -> I (set_region v d)) ->
  (forall v text d, slice_to 1000 v = Ok text -> I d ->
                    I (set_description text d)) ->
  keeps I (read_item item) (fun _ => True).
Proof.
  intros Hlat Hlng Hreg Hdesc. unfold read_item.
  eapply keeps_and_then; [by apply keeps_lift with (Q := fun _ => True)|].
  intros type _.
  eapply keeps_and_then with (P := fun _ => True).
  { destruct (json_eqb_str type "SkiResort");
      [by apply keeps_pure|by apply keeps_lift]. }
  intros [|] _; [|by apply keeps_pure].
  eapply keeps_and_then; [by apply keeps_lift with (Q := fun _ => True)|].
  intros geo _.
  eapply keeps_and_then with (P := fun _ => True).
  { destruct (truthy geo); [|by apply keeps_pure].
    eapply keeps_and_then; [by apply keeps_lift with (Q := fun _ => True)|].
    intros lat _.
    eapply keeps_and_then with (P := fun _ => True);
      [apply keeps_assign; [by apply Hlat|done]|].
    intros _ _.
    eapply keeps_and_then; [by apply keeps_lift with (Q := fun _ => True)|].
    intros lng _. apply keeps_assign; [by apply Hlng|done]. }
  intros _ _.
  eapply keeps_and_then; [by apply keeps_lift with (Q := fun _ => True)|].
  intros described _.
  eapply keeps_and_then with (P := fun _ => True).
  { destruct described; [|by apply keeps_pure].
    eapply keeps_and_then with
      (P := fun text => exists v, slice_to 1000 v = Ok text).
    - apply keeps_lift. intros text H.
      destruct (getitem item "description") as [v|]; [|discriminate].
      by exists v.
    - intros text [v Hv]. apply keeps_assign; [|done].
      intros d. by apply (Hdesc v). }
  intros _ _.
  eapply keeps_and_then; [by apply keeps_lift with (Q := fun _ => True)|].
  intros addressed _.
  destruct addressed; [|by apply keeps_pure].
  eapply keeps_and_then; [by apply keeps_lift with (Q := fun _ => True)|].
  intros area _. apply keeps_assign; [by apply Hreg|done].
Qed.

Lemma read_scripts_keep (I : resort_data -> Prop) (scripts : list script) :
  (forall v d, I d -> I (set_latitude v d)) ->
  (forall v d, I d -> I (set_longitude v d)) ->
  (forall v d, I d -> I (set_region v d)) ->
  (forall v text d, slice_to 1000 v = Ok text -> I d ->
                    I (set_description text d)) ->
  forall d, I d -> I (fst (for_each read_script scripts d)).
Proof.
  intros Hlat Hlng Hreg Hdesc d Hd.
  apply (keeps_for_each I read_script scripts); [|done].
  intros sc. unfold read_script. apply keeps_skipping.
  eapply keeps_and_then; [by apply keeps_lift with (Q := fun _ => True)|].
  intros js_data _. apply keeps_for_each.
  intros item. by apply read_item_keeps.
Qed.

(** The fields that the JSON-LD pass does not write. *)
Definition same_page_fields (d d' : resort_data) : Prop :=
  url d' = url d /\ name d' = name d /\
  altitude_min d' = altitude_min d /\ altitude_max d' = altitude_max d /\
  conditions d' = conditions d /\ forecasts d' = forecasts d.

Lemma read_scripts_frame (scripts : list script) (d : resort_data) :
  same_page_fields d (fst (for_each read_script scripts d)).
Proof.
  apply (read_scripts_keep (same_page_fields d)); try done;
    intros; unfold same_page_fields in *; simpl; done.
Qed.

Lemma str_take_length (n : nat) (s : string) :
  (String.length (str_take n s) <= n)%nat.
Proof.
  revert s. induction n as [|n IH]; intros [|c s]; simpl; try lia.
  specialize (IH s). lia.
Qed.

Lemma slice_to_bound (n : nat) (v : json) (text : string) :
  slice_to n v = Ok (JStr text) -> (String.length text <= n)%nat.
Proof.
  destruct v; try discriminate. unfold slice_to. intros [= <-].
  apply str_take_length.
Qed.

(** A description that is a string has at most 1000 characters. *)
Definition bounded_description (d : resort_data) : Prop :=
  forall text, description d = Some (JStr text) ->
    (String.length text <= 1000)%nat.

Lemma read_scripts_bound (scripts : list script) (d : resort_data) :
  bounded_description d ->
  bounded_description (fst (for_each read_script scripts d)).
Proof.
  apply (read_scripts_keep bounded_description); try done.
  intros v text d' Hslice _ t [= ->].
  by apply (slice_to_bound 1000 v).
Qed.

(** The document-reading statements of [scrape_resort], run to their
    end on the initial dictionary. *)
Lemma read_resort_fields (resort_url : string) (sp : soup) (data : resort_data) :
  read_resort sp (initial_data resort_url) = (data, Ok ()) ->
  url data = resort_url /\
  name data = h1 sp /\
  altitude_min data = fst <$> head (altitude_elem sp) /\
  altitude_max data = snd <$> head (altitude_elem sp) /\
  snow_depth_mountain (conditions data)
    = (if snow_info sp then None else labelled_value (mountain_label sp)) /\
  snow_depth_valley (conditions data)
    = (if snow_info sp then None else labelled_value (valley_label sp)) /\
  status (conditions data) = classify_status <$> status_elem sp /\
  forecasts data = [] /\
  bounded_description data.
Proof.
  unfold read_resort, and_then.
  set (d0 := initial_data resort_url).
  assert (Ht : read_title sp d0
               = (match h1 sp with Some t => set_name t d0 | None => d0 end,
                  Ok ())).
  { unfold read_title. by destruct (h1 sp). }
  rewrite Ht. clear Ht.
  set (d1 := match h1 sp with Some t => set_name t d0 | None => d0 end).
  assert (Hd1 : name d1 = h1 sp /\ url d1 = resort_url /\
                altitude_min d1 = None /\ altitude_max d1 = None /\
                conditions d1 = conditions d0 /\
                forecasts d1 = [] /\ bounded_description d1).
  { subst d1. destruct (h1 sp); repeat split; try done; by intros ? [=]. }
  destruct Hd1 as (Hname & Hurl & Hlo & Hhi & Hc & Hf & Hb).
  pose proof (read_scripts_frame (ld_json sp) d1)
    as (Furl & Fname & Flo & Fhi & Fc & Ff).
  pose proof (read_scripts_bound (ld_json sp) d1 Hb) as Fb.
  destruct (for_each read_script (ld_json sp) d1) as [d2 [[]|e]];
    [|discriminate].
  simpl in Furl, Fname, Flo, Fhi, Fc, Ff, Fb.
  rewrite Hurl in Furl. rewrite Hname in Fname. rewrite Hlo in Flo.
  rewrite Hhi in Fhi. rewrite Hc in Fc. rewrite Hf in Ff.
  clearbody d1. clear Hname Hurl Hlo Hhi Hc Hf Hb.
  unfold read_altitude, read_snow, read_status, and_then, assign, pure,
    bounded_description in *.
  destruct (altitude_elem sp) as [|[lo hi] ?];
    destruct (snow_info sp);
    destruct (labelled_value (mountain_label sp));
    destruct (labelled_value (valley_label sp));
    destruct (status_elem sp);
    intros [= <-]; simpl; rewrite ?Fc; simpl; repeat split; done.
Qed.

(** How [scrape_resort] comes to return a record. *)
Lemma scrape_resort_record `{PF : Platform} `{MK : Markup} (cfg : config.t)
    (net : nat -> reply) (resort_url : string) (s s1 s' : state)
    (html : json) (sp : soup) (record : resort_data) :
  fetch_url cfg net resort_url true s = Ok (s1, html) ->
  parse_html html = Ok sp ->
  scrape_resort cfg net resort_url s = Ok (s', Some record) ->
  exists data forecast_data,
    read_resort sp (initial_data resort_url) = (data, Ok ()) /\
    scrape_forecast cfg net resort_url s1 = (s', Ok forecast_data) /\
    record = match forecast_data with
             | [] => data
             | _ => set_forecasts forecast_data data
             end.
Proof.
  intros Hfetch Hparse. unfold scrape_resort. rewrite Hfetch. cbn.
  destruct (truthy html); cbn; [|discriminate].
  rewrite Hparse. cbn.
  destruct (read_resort sp (initial_data resort_url)) as [data [[]|e]];
    [|discriminate].
  destruct (scrape_forecast cfg net resort_url s1) as [s2 [fd|e]];
    [|discriminate].
  intros [= <- <-]. by exists data, fd.
Qed.

End Passes.

Section Scrape.
Context `{RT : PyRuntime} `{PF : Platform} `{MK : Markup}
  (cfg : config.t) (net : nat -> reply).

(** [X20] When [scrape_resort] returns a record for a page, the record
    holds what the title, altitude, snow and status passes read from the
    page: the URL, the text of the heading, the two numbers of the first
    altitude line, the integers next to the "Mountain:" and "Valley:"
    labels (none when the page has a current-conditions panel), and the
    classified status; a field whose element is missing is unset. *)
Theorem scraped_record_fields (resort_url : string) (s s1 s' : state)
    (html : json) (sp : soup) (record : resort_data) :
  fetch_url cfg net resort_url true s = Ok (s1, html) ->
  parse_html html = Ok sp ->
  scrape_resort cfg net resort_url s = Ok (s', Some record) ->
  url record = resort_url /\
  name record = h1 sp /\
  altitude_min record = fst <$> head (altitude_elem sp) /\
  altitude_max record = snd <$> head (altitude_elem sp) /\
  snow_depth_mountain (conditions record)
    = (if snow_info sp then None else labelled_value (mountain_label sp)) /\
  snow_depth_valley (conditions record)
    = (if snow_info sp then None else labelled_value (valley_label sp)) /\
  status (conditions record) = classify_status <$> status_elem sp.
Proof.
  intros Hfetch Hparse Hscrape.
  destruct (scrape_resort_record cfg net resort_url s s1 s' html sp record
              Hfetch Hparse Hscrape) as (data & fd & Hread & _ & ->).
  destruct (read_resort_fields resort_url sp data Hread)
    as (? & ? & ? & ? & ? & ? & ? & _).
  by destruct fd.
Qed.

(** [X21] In a record returned by [scrape_resort], a description that
    is a string has at most 1000 characters, and the forecasts are those
    that [scrape_forecast] returned for the resort. *)
Theorem scraped_record_bounds (resort_url : string) (s s1 s' : state)
    (html : json) (sp : soup) (record : resort_data) :
  fetch_url cfg net resort_url true s = Ok (s1, html) ->
  parse_html html = Ok sp ->
  scrape_resort cfg net resort_url s = Ok (s', Some record) ->
  (forall text, description record = Some (JStr text) ->
     (String.length text <= 1000)%nat) /\
  scrape_forecast cfg net resort_url s1 = (s', Ok (forecasts record)).
Proof.
  intros Hfetch Hparse Hscrape.
  destruct (scrape_resort_record cfg net resort_url s s1 s' html sp record
              Hfetch Hparse Hscrape) as (data & fd & Hread & Hfc & ->).
  destruct (read_resort_fields resort_url sp data Hread)
    as (_ & _ & _ & _ & _ & _ & _ & Hnone & Hb).
  destruct fd; simpl; [by rewrite Hnone|done].
Qed.

(** A JSON-LD block that the pass leaves behind without any effect: one
    without text, one that is not JSON, the empty list, and an object
    that is neither of type SkiResort nor has a [geo] member. *)
Definition skippable (sc : script) : Prop :=
  sc = NoString \/ sc = IllFormed \/ sc = Parsed (JArr []) \/
  exists kv, sc = Parsed (JObj kv) /\
             obj_get "@type" kv <> Some (JStr "SkiResort") /\
             obj_get "geo" kv = None.

(** [X22] JSON-LD blocks of these kinds are skipped: the pass over them
    ends normally and leaves the dictionary as it was. *)
Theorem skippable_blocks_change_nothing (scripts : list script)
    (d : resort_data) :
  Forall skippable scripts ->
  for_each read_script scripts d = (d, Ok ()).
Proof.
  induction 1 as [|sc scripts Hsc _ IH]; simpl; [done|].
  unfold and_then.
  assert (Hone : read_script sc d = (d, Ok ())).
  { destruct Hsc as [->|[->|[->|(kv & -> & Htype & Hgeo)]]]; try done.
    assert (Hitem : read_item (JObj kv) d = (d, Ok ())).
    { unfold read_item, and_then, lift, pure. simpl.
      assert (json_eqb_str (default JNull (obj_get "@type" kv)) "SkiResort"
              = false) as ->.
      { destruct (obj_get "@type" kv) as [[]|]; simpl; try done.
        destruct (String.eqb_spec s "SkiResort"); [congruence|done]. }
      rewrite Hgeo. rewrite bool_decide_eq_false_2; [done|].
      by intros [? ?]. }
    unfold read_script, skipping, and_then, lift. simpl.
    unfold and_then. by rewrite Hitem. }
  by rewrite Hone.
Qed.

(** [X23] A JSON-LD block that is a bare string, number, boolean or
    null makes the extraction fail: for a page that has one as its first
    block, [scrape_resort] returns [None], whatever else the page holds,
    and does not go on to the forecast. *)
Theorem scalar_block_fails_extraction (resort_url : string) (s s1 : state)
    (html : json) (sp : soup) (j : json) (rest : list script) :
  fetch_url cfg net resort_url true s = Ok (s1, html) ->
  truthy html = true ->
  parse_html html = Ok sp ->
  ld_json sp = Parsed j :: rest ->
  (forall kv, j <> JObj kv) -> (forall l, j <> JArr l) ->
  scrape_resort cfg net resort_url s = Ok (s1, None).
Proof.
  intros Hfetch Htruthy Hparse Hld Hobj Harr.
  unfold scrape_resort. rewrite Hfetch. cbn. rewrite Htruthy. cbn.
  rewrite Hparse. cbn.
  assert (Hraise : snd (read_resort sp (initial_data resort_url))
                   = Raise AttributeError).
  { unfold read_resort, and_then.
    assert (read_title sp (initial_data resort_url)
            = (fst (read_title sp (initial_data resort_url)), Ok ())) as ->.
    { unfold read_title. by destruct (h1 sp). }
    rewrite Hld. simpl. unfold and_then.
    destruct j; try done; [by destruct (Harr l)|by destruct (Hobj kv)]. }
  destruct (read_resort sp (initial_data resort_url)) as [data [[]|e]];
    simpl in Hraise; [discriminate|done].
Qed.

(** [X24] A resort that cannot be reached: when the cache has no file
    for the URL and all [max_retries] requests fail, [scrape_resort]
    returns [None] without raising, after exactly [max_retries] requests,
    all for the resort page. *)
Theorem unreachable_resort (resort_url : string) (s : state) :
  files s !! _get_cache_path resort_url = None ->
  (forall i, (i < config.SCRAPER_MAX_RETRIES cfg)%nat ->
     retry_props.failed (net (length (sent s) + i))) ->
  exists s' extra,
    scrape_resort cfg net resort_url s = Ok (s', None) /\
    sent s' = sent s ++ extra /\
    length extra = config.SCRAPER_MAX_RETRIES cfg /\
    Forall (fun e => fst e = resort_url) extra.
Proof.
  intros Hfile Hfail. unfold scrape_resort, fetch_url.
  rewrite (cache_props.get_cached_missing cfg s resort_url Hfile). cbn.
  assert (Hsent : sent (_rate_limit cfg s) = sent s).
  { unfold _rate_limit. by destruct (_ <? _). }
  destruct (retry_props.retry_loop_exhausted cfg net resort_url true
              (config.SCRAPER_MAX_RETRIES cfg) 0 (_rate_limit cfg s))
    as (s' & Hloop & Hlen & _); rewrite ?Hsent; try done.
  pose proof (retry_props.retry_loop_bound cfg net resort_url true
                (config.SCRAPER_MAX_RETRIES cfg) 0 (_rate_limit cfg s))
    as (extra & Hextra & _ & Hall).
  rewrite Hloop in Hextra. cbn [fst] in Hextra. rewrite Hsent in Hextra.
  rewrite Hloop. cbn.
  exists s', extra.
  split; [done|]. split; [done|]. split; [|done].
  rewrite ?Hsent in Hlen. rewrite Hextra, length_app in Hlen. lia.
Qed.

End Scrape.

(** A page whose only JSON-LD block is the JSON text of a string. *)
Definition quoted_text : string := "<html>Quoted</html>".

Definition quoted_page : soup := {|
  h1 := Some "Quoted"; ld_json := [Parsed (JStr "SkiResort")];
  altitude_elem := []; snow_info := false;
  mountain_label := None; valley_label := None; status_elem := None;
  forecast_container := None
|}.

Definition quoted_pages : Markup :=
  runtime.listed [(quoted_text, quoted_page)].

Lemma scraped_record_fields_witness :
  exists s1 s' record,
    fetch_url (PF := runtime.epoch_platform) config.shipped
      (samples.serves samples.verbier_text) samples.zermatt_url true
      samples.fresh = Ok (s1, JStr samples.verbier_text) /\
    scrape_resort (RT := runtime.decimal_runtime)
      (PF := runtime.epoch_platform) (MK := samples.pages) config.shipped
      (samples.serves samples.verbier_text) samples.zermatt_url samples.fresh
    = Ok (s', Some record) /\
    name record = Some "Verbier" /\
    altitude_min record = Some 1500 /\
    status (conditions record) = Some "open".
Proof.
  do 3 eexists.
  split; [vm_compute; reflexivity|].
  split; [vm_compute; reflexivity|].
  pose proof (fun s1 s' r Hf Hs =>
    scraped_record_fields (RT := runtime.decimal_runtime)
      (PF := runtime.epoch_platform) (MK := samples.pages)
      config.shipped (samples.serves samples.verbier_text)
      samples.zermatt_url samples.fresh s1 s'
      (JStr samples.verbier_text) samples.verbier_page r Hf eq_refl Hs)
    as Hfields.
  edestruct Hfields as (_ & Hname & Hlo & _ & _ & _ & Hstatus).
  - vm_compute. reflexivity.
  - vm_compute. reflexivity.
  - split; [exact Hname|]. split; [exact Hlo|exact Hstatus].
Defined.

(** A page whose JSON-LD block describes the resort in 1500 characters,
    served before the forecast page of one day. *)
Fixpoint repeated (n : nat) (s : string) : string :=
  match n with
  | O => EmptyString
  | S n' => s +:+ repeated n' s
  end.

Definition long_description : string := repeated 300 "snow ".

Definition described_text : string := "<html>Described</html>".

Definition described_page : soup := {|
  h1 := Some "Described";
  ld_json := [Parsed (JObj [ ("@type", JStr "SkiResort");
                             ("description", JStr long_description) ])];
  altitude_elem := []; snow_info := false;
  mountain_label := None; valley_label := None; status_elem := None;
  forecast_container := None
|}.

Definition described_pages : Markup :=
  runtime.listed [ (described_text, described_page);
                   (samples.forecast_text, samples.forecast_page) ].

Lemma scraped_record_bounds_witness :
  String.length long_description = 1500%nat /\
  exists s1 s' record text day,
    fetch_url (PF := runtime.epoch_platform) config.shipped
      (samples.serves_both described_text samples.forecast_text)
      samples.zermatt_url true samples.fresh = Ok (s1, JStr described_text) /\
    scrape_resort (RT := runtime.decimal_runtime)
      (PF := runtime.epoch_platform) (MK := described_pages) config.shipped
      (samples.serves_both described_text samples.forecast_text)
      samples.zermatt_url samples.fresh
    = Ok (s', Some record) /\
    description record = Some (JStr text) /\
    String.length text = 1000%nat /\
    (String.length text <= 1000)%nat /\
    forecasts record = [day] /\
    scrape_forecast (RT := runtime.decimal_runtime)
      (PF := runtime.epoch_platform) (MK := described_pages) config.shipped
      (samples.serves_both described_text samples.forecast_text)
      samples.zermatt_url s1 = (s', Ok [day]).
Proof.
  split; [vm_compute; reflexivity|].
  do 5 eexists.
  split; [vm_compute; reflexivity|].
  split; [vm_compute; reflexivity|].
  split; [reflexivity|].
  split; [vm_compute; reflexivity|].
  pose proof (fun s1 s' r Hf Hs =>
    scraped_record_bounds (RT := runtime.decimal_runtime)
      (PF := runtime.epoch_platform) (MK := described_pages)
      config.shipped
      (samples.serves_both described_text samples.forecast_text)
      samples.zermatt_url samples.fresh s1 s'
      (JStr described_text) described_page r Hf eq_refl Hs)
    as Hbounds.
  edestruct Hbounds as (Hbound & Hforecast).
  - vm_compute. reflexivity.
  - vm_compute. reflexivity.
  - split; [exact (Hbound _ eq_refl)|].
    split; [reflexivity|exact Hforecast].
Defined.

Lemma skippable_blocks_change_nothing_witness :
  Forall skippable [NoString; IllFormed; Parsed (JObj [("@type", JStr "WebSite")])] /\
  for_each (read_script (RT := runtime.decimal_runtime))
    [NoString; IllFormed; Parsed (JObj [("@type", JStr "WebSite")])]
    (initial_data samples.zermatt_url)
  = (initial_data samples.zermatt_url, Ok ()).
Proof.
  assert (H : Forall skippable
                [NoString; IllFormed; Parsed (JObj [("@type", JStr "WebSite")])]).
  { constructor; [by left|].
    constructor; [right; by left|].
    constructor; [|constructor].
    right. right. right. eexists. split; [reflexivity|].
    split; [discriminate|reflexivity]. }
  split; [exact H|].
  exact (skippable_blocks_change_nothing (RT := runtime.decimal_runtime) _ _ H).
Defined.

Lemma scalar_block_fails_extraction_witness :
  exists s1,
    fetch_url (PF := runtime.epoch_platform) config.shipped
      (samples.serves quoted_text) samples.zermatt_url true samples.fresh
    = Ok (s1, JStr quoted_text) /\
    scrape_resort (RT := runtime.decimal_runtime)
      (PF := runtime.epoch_platform) (MK := quoted_pages) config.shipped
      (samples.serves quoted_text) samples.zermatt_url samples.fresh
    = Ok (s1, None).
Proof.
  eexists. split; [vm_compute; reflexivity|].
  pose proof (fun s1 Hf =>
    scalar_block_fails_extraction (RT := runtime.decimal_runtime)
      (PF := runtime.epoch_platform) (MK := quoted_pages) config.shipped
      (samples.serves quoted_text) samples.zermatt_url samples.fresh s1
      (JStr quoted_text) quoted_page (JStr "SkiResort") [] Hf
      eq_refl eq_refl eq_refl) as Hfails.
  apply Hfails.
  - vm_compute. reflexivity.
  - discriminate.
  - discriminate.
Defined.

Lemma unreachable_resort_witness :
  files samples.fresh
    !! _get_cache_path (PF := runtime.epoch_platform) samples.zermatt_url
    = None /\
  exists s' extra,
    scrape_resort (RT := runtime.decimal_runtime)
      (PF := runtime.epoch_platform) (MK := samples.pages) config.shipped
      samples.down samples.zermatt_url samples.fresh = Ok (s', None) /\
    sent s' = sent samples.fresh ++ extra /\
    length extra = 3%nat.
Proof.
  assert (H : files samples.fresh
                !! _get_cache_path (PF := runtime.epoch_platform)
                     samples.zermatt_url = None) by reflexivity.
  split; [exact H|].
  destruct (unreachable_resort (RT := runtime.decimal_runtime)
              (PF := runtime.epoch_platform) (MK := samples.pages)
              config.shipped samples.down samples.zermatt_url samples.fresh H)
    as (s' & extra & Hs & Hsent & Hlen & _).
  - intros i _. by exists 0%N.
  - exists s', extra. split; [exact Hs|]. split; [exact Hsent|exact Hlen].
Defined.

End extract_more.

(** ** Forecast days read from a page *)

Module forecast_more.
Import base_scraper bergfex_scraper.

(** *** The order of the floats that are not NaN *)

Lemma float_le_refl (a : float) : a <> NaN -> float_le a a = true.
Proof.
  destruct a as [q|[|]|]; cbn; try done.
  intros _. apply Qle_bool_iff, Qle_refl.
Qed.

Lemma float_le_trans (a b c : float) :
  float_le a b = true -> float_le b c = true -> float_le a c = true.
Proof.
  destruct a as [p|[|]|], b as [q|[|]|], c as [r|[|]|]; cbn; try done.
  rewrite !Qle_bool_iff. apply Qle_trans.
Qed.

Lemma float_lt_le (a b : float) : float_lt a b = true -> float_le a b = true.
Proof.
  destruct a as [p|[|]|], b as [q|[|]|]; cbn; try done.
  intros H. apply negb_true_iff in H. apply Qle_bool_iff.
  apply Qlt_le_weak, Qnot_le_lt. intros Hle.
  apply Qle_bool_iff in Hle. congruence.
Qed.

Lemma float_not_lt_le (a b : float) :
  a <> NaN -> b <> NaN -> float_lt a b = false -> float_le b a = true.
Proof.
  destruct a as [p|[|]|], b as [q|[|]|]; cbn; try done.
  intros _ _ H. by apply negb_false_iff in H.
Qed.

Lemma max_float_cases (a b : float) :
  a <> NaN -> b <> NaN ->
  (max_float a b = a /\ float_le b a = true) \/
  (max_float a b = b /\ float_le a b = true).
Proof.
  intros Ha Hb. unfold max_float. destruct (float_lt a b) eqn:H.
  - right. split; [done|]. by apply float_lt_le.
  - left. split; [done|]. by apply float_not_lt_le.
Qed.

Lemma min_float_cases (a b : float) :
  a <> NaN -> b <> NaN ->
  (min_float a b = a /\ float_le a b = true) \/
  (min_float a b = b /\ float_le b a = true).
Proof.
  intros Ha Hb. unfold min_float. destruct (float_lt b a) eqn:H.
  - right. split; [done|]. by apply float_lt_le.
  - left. split; [done|]. by apply float_not_lt_le.
Qed.

(** [max(vals)] is one of the values and no value exceeds it. *)
Lemma max_list_spec (l : list float) (x : float) :
  Forall (fun v => v <> NaN) (x :: l) ->
  max_list x l ∈ x :: l /\
  Forall (fun v => float_le v (max_list x l) = true) (x :: l).
Proof.
  unfold max_list. revert x. induction l as [|a l IH]; intros x Hnum; simpl.
  - apply Forall_cons in Hnum as (Hx & _).
    split; [apply list_elem_of_here|]. repeat constructor.
    by apply float_le_refl.
  - apply Forall_cons in Hnum as (Hx & Hnum).
    pose proof Hnum as Hrest. apply Forall_cons in Hrest as (Ha & Hrest).
    destruct (max_float_cases x a Hx Ha) as [(Heq & Hle)|(Heq & Hle)];
      rewrite Heq.
    + destruct (IH x) as (Hin & Hall); [by apply Forall_cons|].
      apply Forall_cons in Hall as (Hm & Hall). split.
      * apply elem_of_cons in Hin as [->|Hin];
          [apply list_elem_of_here|by do 2 apply list_elem_of_further].
      * repeat (apply Forall_cons; split); try done.
        by apply float_le_trans with x.
    + destruct (IH a Hnum) as (Hin & Hall).
      apply Forall_cons in Hall as (Hm & Hall). split.
      * by apply list_elem_of_further.
      * repeat (apply Forall_cons; split); try done.
        by apply float_le_trans with a.
Qed.

(** [min(vals)] is one of the values and no value is below it. *)
Lemma min_list_spec (l : list float) (x : float) :
  Forall (fun v => v <> NaN) (x :: l) ->
  min_list x l ∈ x :: l /\
  Forall (fun v => float_le (min_list x l) v = true) (x :: l).
Proof.
  unfold min_list. revert x. induction l as [|a l IH]; intros x Hnum; simpl.
  - apply Forall_cons in Hnum as (Hx & _).
    split; [apply list_elem_of_here|]. repeat constructor.
    by apply float_le_refl.
  - apply Forall_cons in Hnum as (Hx & Hnum).
    pose proof Hnum as Hrest. apply Forall_cons in Hrest as (Ha & Hrest).
    destruct (min_float_cases x a Hx Ha) as [(Heq & Hle)|(Heq & Hle)];
      rewrite Heq.
    + destruct (IH x) as (Hin & Hall); [by apply Forall_cons|].
      apply Forall_cons in Hall as (Hm & Hall). split.
      * apply elem_of_cons in Hin as [->|Hin];
          [apply list_elem_of_here|by do 2 apply list_elem_of_further].
      * repeat (apply Forall_cons; split); try done.
        by apply float_le_trans with x.
    + destruct (IH a Hnum) as (Hin & Hall).
      apply Forall_cons in Hall as (Hm & Hall). split.
      * by apply list_elem_of_further.
      * repeat (apply Forall_cons; split); try done.
        by apply float_le_trans with a.
Qed.

Section Days.
Context `{RT : PyRuntime}.

(** The temperatures of a day: every text that holds a number, as
    [float] reads its digits. *)
Definition temperatures (el : day_el) : list float :=
  omap (fun t => float_of_digits <$> first_signed_int t) (temps el).

Lemma temperatures_numbers (el : day_el) :
  Forall (fun v => v <> NaN) (temperatures el).
Proof.
  unfold temperatures. induction (temps el) as [|t ts IH]; [constructor|].
  cbn [omap list_omap]. destruct (first_signed_int t) as [n|]; cbn; [|done].
  constructor; [|done]. unfold float_of_digits.
  by destruct (double (inject_Z n)).
Qed.


(** [X25] What a day of the page forecast holds when the day is read:
    its date is the current date plus its position; both temperatures
    are unset when fewer than two of its temperature texts hold a
    number, and otherwise they are the largest and the smallest of the
    floats that [float] makes of those numbers; the snow forecast is 0
    without a snow element and the first integer of the element when it
    has one; and the day has no symbol. *)
Theorem day_values (current_date : Z) (i : nat) (el : day_el) (f : forecast) :
  read_day current_date i el = Ok f ->
  let vals := temperatures el in
  date f = Naive (current_date + Z.of_nat i * day) /\
  ((length vals < 2)%nat -> temp_max f = None /\ temp_min f = None) /\
  ((2 <= length vals)%nat ->
   exists hi lo, temp_max f = Some (JNum hi) /\ temp_min f = Some (JNum lo) /\
                 hi ∈ vals /\ lo ∈ vals /\
                 Forall (fun v => float_le lo v = true /\
                                  float_le v hi = true) vals) /\
  (snow_el el = None -> snow_forecast_cm f = Some (JNum 0%Q)) /\
  (forall text n, snow_el el = Some text -> first_int text = Some n ->
     snow_forecast_cm f = Some (JNum (inject_Z n))) /\
  symbol f = None.
Proof.
  intros H vals. pose proof (temperatures_numbers el) as Hnum.
  fold vals in Hnum. unfold read_day in H. fold (temperatures el) in H.
  fold vals in H.
  destruct vals as [|v [|w rest]] eqn:Hvals;
    (destruct (img el); simpl in H; [discriminate|]); injection H as <-;
    simpl; repeat split; try done; try (intros; simpl in *; lia).
  all: try (intros Hs; by rewrite Hs).
  all: try (intros text n Hs Hn; by rewrite Hs, Hn).
  intros _.
  destruct (max_list_spec (w :: rest) v Hnum) as (Hmax_in & Hmax).
  destruct (min_list_spec (w :: rest) v Hnum) as (Hmin_in & Hmin).
  eexists _, _. repeat split; try done.
  apply Forall_forall. intros x Hx.
  rewrite Forall_forall in Hmax, Hmin. split; auto.
Qed.



End Days.

(** A day with the temperatures -3 and -10, a text without a number and
    12 cm of snow. *)
Definition cold_day : day_el :=
  {| temps := ["-3"; "-10"; "n/a"]; snow_el := Some "12 cm"; img := None |}.

Lemma day_values_witness :
  exists f,
    read_day (RT := runtime.decimal_runtime) 0 2 cold_day = Ok f /\
    date f = Naive (2 * day) /\
    temp_max f = Some (JNum (-3)%Q) /\
    temp_min f = Some (JNum (-10)%Q) /\
    snow_forecast_cm f = Some (JNum 12%Q) /\
    symbol f = None.
Proof.
  eexists. split; [vm_compute; reflexivity|].
  match goal with |- date ?g = _ /\ _ =>
    destruct (day_values (RT := runtime.decimal_runtime) 0 2 cold_day g eq_refl)
      as (Hdate & _ & _ & _ & Hsnow & Hsym)
  end.
  split; [exact Hdate|]. split; [reflexivity|]. split; [reflexivity|].
  split; [|exact Hsym].
  exact (Hsnow "12 cm" 12 eq_refl eq_refl).
Defined.

End forecast_more.

(** ** Forecast days obtained by coordinates *)

Module weather_more.
Import base_scraper bergfex_scraper weather_service forecast_props.

(** The symbols that [_map_weather_code] can return. *)
Definition symbols : list string := "unknown" :: map snd mapping.

Section Weather.
Context `{RT : PyRuntime} `{PF : Platform}.

Lemma lookup_code_symbol (q : Q) : lookup_code q ∈ symbols.
Proof.
  unfold lookup_code, symbols.
  destruct (List.find _ mapping) as [kv|] eqn:Hfind.
  - change (snd kv ∈ "unknown" :: (snd <$> mapping)).
    apply list_elem_of_further. apply find_some in Hfind as [Hin _].
    apply list_elem_of_fmap. exists kv. split; [done|].
    by apply list_elem_of_In.
  - apply list_elem_of_here.
Qed.

Lemma map_weather_code_symbol (code : json) (sym : string) :
  _map_weather_code code = Ok sym -> sym ∈ symbols.
Proof.
  destruct code as [| |[| |]| | |]; simpl; try discriminate; intros [= <-];
    try apply lookup_code_symbol; apply list_elem_of_here.
Qed.

(** What every day built by [forecast_at] holds. *)
Definition well_formed_day (f : forecast) : Prop :=
  integer_snow f /\
  exists sym, symbol f = Some (JStr sym) /\ sym ∈ symbols.

(** The day at position [i] carries the entries of the response at that
    position. *)
Definition copied_from (daily : json) (i : nat) (f : forecast) : Prop :=
  exists highs lows hi lo,
    getitem daily "temperature_2m_max" = Ok highs /\
    getindex highs i = Ok hi /\ temp_max f = Some hi /\
    getitem daily "temperature_2m_min" = Ok lows /\
    getindex lows i = Ok lo /\ temp_min f = Some lo.

Lemma forecast_at_well_formed (daily : json) (i : nat) (f : forecast) :
  forecast_at daily i = Ok f -> well_formed_day f /\ copied_from daily i f.
Proof.
  unfold forecast_at. intros H.
  do 3 (apply bind_ok in H as (? & _ & H)).
  apply bind_ok in H as (highs & Hhighs & H).
  apply bind_ok in H as (hi & Hhi & H).
  apply bind_ok in H as (lows & Hlows & H).
  apply bind_ok in H as (lo & Hlo & H).
  do 4 (apply bind_ok in H as (? & _ & H)).
  apply bind_ok in H as (code & _ & H).
  apply bind_ok in H as (sym & Hsym & H).
  injection H as <-. split; [split|].
  - by eexists.
  - exists sym. split; [done|]. by eapply map_weather_code_symbol.
  - by exists highs, lows, hi, lo.
Qed.

Lemma forecasts_from_shape (daily : json) (i count : nat) (l : list forecast) :
  forecasts_from daily i count = Ok l ->
  length l = count /\ Forall well_formed_day l /\
  forall k f, l !! k = Some f -> copied_from daily (i + k) f.
Proof.
  revert i l. induction count as [|count IH]; intros i l; simpl.
  - intros [= <-]. split; [done|]. split; [constructor|].
    intros k f Hk. by rewrite lookup_nil in Hk.
  - intros H. apply bind_ok in H as (f & Hf & H).
    apply bind_ok in H as (fs & Hfs & H). injection H as <-.
    destruct (IH _ _ Hfs) as (Hlen & Hall & Hcopy).
    destruct (forecast_at_well_formed _ _ _ Hf) as (Hwf & Hhere).
    split; [simpl; lia|]. split; [by constructor|].
    intros [|k] g Hk; simpl in Hk.
    + injection Hk as <-. by rewrite Nat.add_0_r.
    + replace (i + S k)%nat with (S i + k)%nat by lia. by apply Hcopy.
Qed.

(** [X27] [get_forecast] never raises and gives all days or none.
    Every day it returns has an integer snow forecast and a symbol out
    of the fixed set (the listed symbols and "unknown").  A result that
    is not empty has one day for every entry of the [time] array of the
    response, however many there are, and the temperatures of a day are
    the entries of the response at its position, whatever they are, a
    null included. *)
Theorem get_forecast_shape (response : option json) :
  Forall well_formed_day (get_forecast response) /\
  (get_forecast response <> [] ->
   exists data daily time,
     response = Some data /\
     getitem data "daily" = Ok daily /\
     getitem daily "time" = Ok time /\
     len time = Ok (length (get_forecast response)) /\
     forall k f, get_forecast response !! k = Some f ->
       copied_from daily k f).
Proof.
  unfold get_forecast.
  match goal with |- context [match ?b with Ok _ => _ | Raise _ => _ end] =>
    destruct b as [l|e] eqn:H end; [|split; [constructor|done]].
  apply bind_ok in H as (data & Hdata & H).
  apply bind_ok in H as (has & _ & H).
  destruct (negb has); [injection H as <-; split; [constructor|done]|].
  apply bind_ok in H as (daily & Hdaily & H).
  apply bind_ok in H as (time & Htime & H).
  apply bind_ok in H as (n & Hn & H).
  destruct (forecasts_from_shape _ _ _ _ H) as (Hlen & Hall & Hcopy).
  split; [done|]. intros _.
  exists data, daily, time. repeat split; try done.
  - by destruct response as [?|]; [injection Hdata as ->|].
  - by rewrite Hlen.
Qed.

End Weather.

(** A response with two days, the second without temperatures. *)
Definition two_days : json :=
  JObj [("daily", JObj [
    ("time", JArr [JStr "1700000000000000"; JStr "1700086400000000"]);
    ("temperature_2m_max", JArr [JNum 2%Q; JNull]);
    ("temperature_2m_min", JArr [JNum (-5)%Q; JNull]);
    ("snowfall_sum", JArr [JNum (7 # 2); JNum 0%Q]);
    ("weathercode", JArr [JNum 73%Q; JNum 4%Q])])].

Lemma get_forecast_shape_witness :
  exists first second,
    get_forecast (RT := runtime.decimal_runtime)
      (PF := runtime.epoch_platform) (Some two_days) = [first; second] /\
    snow_forecast_cm first = Some (JNum 3%Q) /\
    symbol first = Some (JStr "snow") /\
    symbol second = Some (JStr "unknown") /\
    temp_max second = Some JNull /\
    copied_from (JObj [
      ("time", JArr [JStr "1700000000000000"; JStr "1700086400000000"]);
      ("temperature_2m_max", JArr [JNum 2%Q; JNull]);
      ("temperature_2m_min", JArr [JNum (-5)%Q; JNull]);
      ("snowfall_sum", JArr [JNum (7 # 2); JNum 0%Q]);
      ("weathercode", JArr [JNum 73%Q; JNum 4%Q])]) 1 second.
Proof.
  do 2 eexists. split; [vm_compute; reflexivity|].
  do 4 (split; [reflexivity|]).
  destruct (get_forecast_shape (RT := runtime.decimal_runtime)
              (PF := runtime.epoch_platform) (Some two_days))
    as (_ & Hdays).
  destruct Hdays as (data & daily & time & Hdata & Hdaily & _ & _ & Hcopy);
    [vm_compute; discriminate|].
  injection Hdata as <-. vm_compute in Hdaily. injection Hdaily as <-.
  exact (Hcopy 1%nat _ eq_refl).
Defined.

End weather_more.

(** ** The list of resorts of a country *)

Module resort_list.
Import base_scraper bergfex_scraper.

(** *** The listing page

    As for the resort page, the parsed document is represented by the
    answers to the queries that [get_resort_list] puts to it. *)

(** An [a] element: [link.get('href')], the stripped text of its first
    [span] when it has one, and its own stripped text. *)
Record link : Type := {
  href : option string;
  span_text : option string;
  link_text : string
}.

Record listing : Type := {
  (** [soup.select('a.js-track')] *)
  js_track : list link;
  (** [soup.find_all('a', href=re.compile(r'/[^/]+/ski/'))] *)
  ski_links : list link
}.

(** [BaseScraper.parse_html] on a listing page. *)
Class ListingMarkup : Type := {
  parse_listing : json -> result listing
}.

(** One entry of the returned list. *)
Record entry : Type := {
  entry_name : string;
  entry_slug : string;
  entry_url : string;
  entry_country : string
}.

Definition BASE_URL : string := "https://www.bergfex.com".

(** The characters before the first ["/"], and the rest from it on. *)
Fixpoint split_slash (s : string) : string * string :=
  match s with
  | EmptyString => (EmptyString, EmptyString)
  | String c s' =>
      if Ascii.eqb c "/"%char then (EmptyString, s)
      else let '(a, b) := split_slash s' in (String c a, b)
  end.

Definition newline : string := String (ascii_of_nat 10) EmptyString.

(** [re.match(r'^/([^/]+)/$', href)], as [group(1)]; the end may be
    followed by one newline. *)
Definition match_resort (h : string) : option string :=
  match h with
  | String c rest =>
      if Ascii.eqb c "/"%char then
        let '(slug, tail) := split_slash rest in
        if String.eqb slug "" then None
        else if String.eqb tail "/" || String.eqb tail ("/" +:+ newline)
        then Some slug else None
      else None
  | EmptyString => None
  end.

(** [re.match(r'^/([^/]+)/ski/.*', href)], as [group(1)]. *)
Definition match_ski (h : string) : option string :=
  match h with
  | String c rest =>
      if Ascii.eqb c "/"%char then
        let '(slug, tail) := split_slash rest in
        if String.eqb slug "" then None
        else if is_prefix "/ski/" tail then Some slug else None
      else None
  | EmptyString => None
  end.

(** The two patterns tried in turn on an [href]. *)
Definition slug_of (h : string) : option string :=
  match match_resort h with
  | Some slug => Some slug
  | None => match_ski h
  end.

(** [(link.find('span') or link).get_text(strip=True)] *)
Definition name_of (l : link) : string :=
  default (link_text l) (span_text l).

(** [country.capitalize()] *)
Definition upper_ascii (c : ascii) : ascii :=
  let n := nat_of_ascii c in
  if (Nat.leb 97 n && Nat.leb n 122)%bool then ascii_of_nat (n - 32) else c.

Definition capitalize (s : string) : string :=
  match s with
  | EmptyString => EmptyString
  | String c s' => String (upper_ascii c) (lower s')
  end.

Definition resort_url_of (slug : string) : string :=
  BASE_URL +:+ "/" +:+ slug +:+ "/".

Definition listing_url (country : string) : string :=
  BASE_URL +:+ "/" +:+ country +:+ "/skigebiete/".

(** The loop [for link in links], with the set [seen_urls]. *)
Fixpoint collect (country : string) (links : list link) (seen_urls : gset string)
  : list entry :=
  match links with
  | [] => []
  | l :: rest =>
      match href l with
      | None => collect country rest seen_urls
      | Some h =>
          if String.eqb h "" then collect country rest seen_urls
          else
            match slug_of h with
            | Some slug =>
                let resort_url := resort_url_of slug in
                if bool_decide (resort_url ∈ seen_urls)
                then collect country rest seen_urls
                else
                  let name := name_of l in
                  if negb (String.eqb name "")
                     && Nat.ltb 2 (String.length name)
                  then {| entry_name := name; entry_slug := slug;
                          entry_url := resort_url;
                          entry_country := capitalize country |}
                       :: collect country rest ({[resort_url]} ∪ seen_urls)
                  else collect country rest seen_urls
            | None => collect country rest seen_urls
            end
      end
  end.

(** The links that the loop goes through: the [a.js-track] elements, or
    when there is none the links to a [/ski/] page. *)
Definition links_of (soup : listing) : list link :=
  match js_track soup with
  | [] => ski_links soup
  | found => found
  end.

(** A link that the loop can turn into an entry for [slug]: its [href]
    matches one of the patterns with that slug, and its name has more
    than two characters. *)
Definition usable (l : link) (slug : string) : Prop :=
  exists h, href l = Some h /\ slug_of h = Some slug /\
            (2 < String.length (name_of l))%nat.

(** What every entry of the list holds. *)
Definition well_formed (country : string) (e : entry) : Prop :=
  entry_url e = resort_url_of (entry_slug e) /\
  entry_slug e <> "" /\
  contains "/" (entry_slug e) = false /\
  (2 < String.length (entry_name e))%nat /\
  entry_country e = capitalize country.

(** The invariant of the loop, for the entries [out] appended from
    [links] when it starts with [seen]. *)
Definition collected (country : string) (links : list link)
  (seen : gset string) (out : list entry) : Prop :=
  NoDup (entry_url <$> out) /\
  Forall (fun e => (entry_url e ∉ seen) /\ well_formed country e /\
                   exists l, l ∈ links /\ usable l (entry_slug e) /\
                             entry_name e = name_of l) out /\
  (forall l slug, l ∈ links -> usable l slug ->
     resort_url_of slug ∈ seen \/ exists e, e ∈ out /\ entry_slug e = slug).

(** *** What the patterns match *)

Lemma split_slash_spec (s a b : string) :
  split_slash s = (a, b) -> s = a +:+ b /\ contains "/" a = false.
Proof.
  revert a b. induction s as [|c s IH]; intros a b; cbn [split_slash].
  - intros [= <- <-]. by split.
  - destruct (Ascii.eqb c "/") eqn:Hc.
    + intros [= <- <-]. by split.
    + destruct (split_slash s) as [a' b'] eqn:Hs. intros [= <- <-].
      destruct (IH _ _ eq_refl) as (-> & Hno). split; [done|].
      cbn [contains is_prefix]. rewrite Ascii.eqb_sym, Hc. exact Hno.
Qed.

Lemma is_prefix_common (a p s : string) :
  is_prefix (a +:+ p) (a +:+ s) = is_prefix p s.
Proof.
  induction a as [|c a IH]; [done|].
  simpl. by rewrite Ascii.eqb_refl.
Qed.

Lemma is_prefix_slash (p s : string) :
  is_prefix (String "/" p) s = true -> is_prefix "/" s = true.
Proof.
  destruct s as [|c s]; cbn [is_prefix]; [done|].
  by destruct (Ascii.eqb "/" c).
Qed.

Lemma match_resort_segment (h slug : string) :
  match_resort h = Some slug ->
  slug <> "" /\ contains "/" slug = false /\
  is_prefix ("/" +:+ slug +:+ "/") h = true.
Proof.
  destruct h as [|c rest]; [done|]. cbn [match_resort].
  destruct (Ascii.eqb c "/") eqn:Hc; [|done].
  apply Ascii.eqb_eq in Hc as ->.
  destruct (split_slash rest) as [a b] eqn:Hs.
  destruct (String.eqb a "") eqn:Ha; [done|].
  destruct (_ || _) eqn:Htail; [|done]. intros [= <-].
  destruct (split_slash_spec _ _ _ Hs) as (-> & Hno).
  apply String.eqb_neq in Ha. split; [done|]. split; [done|].
  change (is_prefix (a +:+ "/") (a +:+ b) = true).
  rewrite is_prefix_common.
  apply orb_true_iff in Htail as [H|H]; apply String.eqb_eq in H as ->; done.
Qed.

Lemma match_ski_segment (h slug : string) :
  match_ski h = Some slug ->
  slug <> "" /\ contains "/" slug = false /\
  is_prefix ("/" +:+ slug +:+ "/") h = true.
Proof.
  destruct h as [|c rest]; [done|]. cbn [match_ski].
  destruct (Ascii.eqb c "/") eqn:Hc; [|done].
  apply Ascii.eqb_eq in Hc as ->.
  destruct (split_slash rest) as [a b] eqn:Hs.
  destruct (String.eqb a "") eqn:Ha; [done|].
  destruct (is_prefix "/ski/" b) eqn:Htail; [|done]. intros [= <-].
  destruct (split_slash_spec _ _ _ Hs) as (-> & Hno).
  apply String.eqb_neq in Ha. split; [done|]. split; [done|].
  change (is_prefix (a +:+ "/") (a +:+ b) = true).
  rewrite is_prefix_common.
  by eapply is_prefix_slash.
Qed.

(** The slug is the first segment of the path: it is not empty, holds
    no ["/"], and the [href] begins with it between two ["/"]. *)
Lemma slug_of_segment (h slug : string) :
  slug_of h = Some slug ->
  slug <> "" /\ contains "/" slug = false /\
  is_prefix ("/" +:+ slug +:+ "/") h = true.
Proof.
  unfold slug_of. destruct (match_resort h) as [found|] eqn:Hm.
  - intros [= <-]. by apply match_resort_segment.
  - apply match_ski_segment.
Qed.

Lemma append_cancel_l (p x y : string) : p +:+ x = p +:+ y -> x = y.
Proof.
  induction p as [|c p IH]; [done|].
  simpl. intros [= H]. by apply IH.
Qed.

Lemma append_slash_cancel (x y : string) : x +:+ "/" = y +:+ "/" -> x = y.
Proof.
  revert y. induction x as [|c x IH]; intros [|d y]; simpl.
  - done.
  - intros [= <- H]. by destruct y.
  - intros [= -> H]. by destruct x.
  - intros [= -> H]. f_equal. by apply IH.
Qed.

Lemma resort_url_of_inj (slug slug' : string) :
  resort_url_of slug = resort_url_of slug' -> slug = slug'.
Proof.
  unfold resort_url_of. intros H.
  apply append_slash_cancel, (append_cancel_l "/"), (append_cancel_l BASE_URL).
  exact H.
Qed.

(** *** The loop *)

Lemma collected_nil (country : string) (seen : gset string) :
  collected country [] seen [].
Proof.
  split; [constructor|]. split; [constructor|].
  intros l slug Hin. by apply elem_of_nil in Hin.
Qed.

Lemma collected_skip (country : string) (l : link) (rest : list link)
  (seen : gset string) (out : list entry) :
  (forall slug, usable l slug -> resort_url_of slug ∈ seen) ->
  collected country rest seen out ->
  collected country (l :: rest) seen out.
Proof.
  intros Hl (Hnd & Hall & Hcov). split; [done|]. split.
  - eapply Forall_impl; [exact Hall|].
    intros e (Hnot & Hwf & l' & Hin & Hus & Hname).
    split; [done|]. split; [done|].
    exists l'. split; [by apply list_elem_of_further|done].
  - intros l' slug Hin Hus. apply elem_of_cons in Hin as [->|Hin].
    + left. by apply Hl.
    + by eapply Hcov.
Qed.

Lemma collected_take (country : string) (l : link) (rest : list link)
  (seen : gset string) (out : list entry) (slug : string) :
  usable l slug -> resort_url_of slug ∉ seen ->
  collected country rest ({[resort_url_of slug]} ∪ seen) out ->
  collected country (l :: rest) seen
    ({| entry_name := name_of l; entry_slug := slug;
        entry_url := resort_url_of slug;
        entry_country := capitalize country |} :: out).
Proof.
  intros Hus Hnot (Hnd & Hall & Hcov). split; [|split].
  - rewrite fmap_cons. cbn [entry_url]. constructor; [|done].
    intros Hin. apply list_elem_of_fmap in Hin as (e & Heq & Hin).
    rewrite Forall_forall in Hall. destruct (Hall e Hin) as (Hout & _).
    apply Hout. rewrite <- Heq. apply elem_of_union_l. by apply elem_of_singleton.
  - constructor.
    + cbn [entry_url entry_slug entry_name entry_country].
      split; [done|]. split.
      * destruct Hus as (h & Hh & Hslug & Hlen).
        destruct (slug_of_segment _ _ Hslug) as (Hne & Hno & _).
        by repeat split.
      * exists l. split; [apply list_elem_of_here|done].
    + eapply Forall_impl; [exact Hall|].
      intros e (Hout & Hwf & l' & Hin & Hus' & Hname).
      split; [intros Hseen; apply Hout; by apply elem_of_union_r|].
      split; [done|].
      exists l'. split; [by apply list_elem_of_further|done].
  - intros l' slug' Hin Hus'. apply elem_of_cons in Hin as [->|Hin].
    + right. eexists. split; [apply list_elem_of_here|].
      cbn [entry_slug].
      destruct Hus as (h & Hh & Hslug & _), Hus' as (h' & Hh' & Hslug' & _).
      congruence.
    + destruct (Hcov _ _ Hin Hus') as [Hseen|(e & He & Heq)].
      * apply elem_of_union in Hseen as [Hhere|Hseen]; [|by left].
        apply elem_of_singleton in Hhere.
        apply resort_url_of_inj in Hhere as ->.
        right. eexists. split; [apply list_elem_of_here|done].
      * right. exists e. split; [by apply list_elem_of_further|done].
Qed.

Lemma collect_spec (country : string) (links : list link) (seen : gset string) :
  collected country links seen (collect country links seen).
Proof.
  revert seen. induction links as [|l rest IH]; intros seen;
    [apply collected_nil|].
  cbn [collect]. destruct (href l) as [h|] eqn:Hh.
  2: { apply collected_skip; [|done]. intros slug (h & Hh' & _). congruence. }
  destruct (String.eqb h "") eqn:He.
  { apply collected_skip; [|done]. intros slug (h' & Hh' & Hslug & _).
    apply String.eqb_eq in He. subst h.
    assert (h' = "") as -> by congruence. discriminate Hslug. }
  destruct (slug_of h) as [slug|] eqn:Hslug.
  2: { apply collected_skip; [|done].
       intros slug (h' & Hh' & Hslug' & _). congruence. }
  case_bool_decide as Hseen.
  { apply collected_skip; [|done]. intros slug' (h' & Hh' & Hslug' & _).
    assert (slug' = slug) as -> by congruence. done. }
  destruct (negb _ && _) eqn:Hname.
  - apply collected_take; [|done|done].
    exists h. split; [done|]. split; [done|].
    apply andb_true_iff in Hname as [_ Hlen]. by apply Nat.ltb_lt in Hlen.
  - apply collected_skip; [|done]. intros slug' (h' & _ & _ & Hlen).
    exfalso. apply andb_false_iff in Hname as [Hname|Hname].
    + apply negb_false_iff, String.eqb_eq in Hname.
      rewrite Hname in Hlen. cbn in Hlen. lia.
    + apply Nat.ltb_ge in Hname. lia.
Qed.

Lemma urls_of_slugs (country : string) (out : list entry) :
  Forall (well_formed country) out ->
  entry_url <$> out = resort_url_of <$> (entry_slug <$> out).
Proof.
  induction 1 as [|e out (Hurl & _) _ IH]; [done|].
  rewrite !fmap_cons. by f_equal.
Qed.

Section List.
Context `{PF : Platform} `{LM : ListingMarkup} (cfg : config.t)
  (net : nat -> reply).

(** [get_resort_list] *)
Definition get_resort_list (country : string) (s : state)
  : result (state * list entry) :=
  let url := listing_url country in
  '(s, html) ← fetch_url cfg net url true s;
  if negb (truthy html) then Ok (s, [])
  else
    soup ← parse_listing html;
    Ok (s, collect country (links_of soup) ∅).

(** [X28] The list that [get_resort_list] returns never holds a resort
    twice: the URLs of its entries are pairwise different, and so are
    the slugs.  Every entry has a slug that is not empty and holds no
    ["/"], the URL made of the base URL and that slug, a name of more
    than two characters, and the capitalized country. *)
Theorem listed_resorts_distinct (country : string) (s s' : state)
  (out : list entry) :
  get_resort_list country s = Ok (s', out) ->
  NoDup (entry_url <$> out) /\ NoDup (entry_slug <$> out) /\
  Forall (well_formed country) out.
Proof.
  unfold get_resort_list. intros H.
  apply forecast_props.bind_ok in H as ([s1 html] & Hfetch & H).
  destruct (negb (truthy html)).
  - injection H as <- <-. split; [constructor|]. split; constructor.
  - apply forecast_props.bind_ok in H as (soup & Hsoup & H). injection H as <- <-.
    destruct (collect_spec country (links_of soup) ∅) as (Hnd & Hall & _).
    assert (Hwf : Forall (well_formed country)
                    (collect country (links_of soup) ∅)).
    { eapply Forall_impl; [exact Hall|]. by intros e (_ & Hwf & _). }
    split; [done|]. split; [|done].
    apply (NoDup_fmap_1 resort_url_of).
    by rewrite <- (urls_of_slugs country).
Qed.

(** [X29] When the listing page is obtained and parsed,
    [get_resort_list] returns an entry for a slug exactly when some
    link of the page has an [href] with that slug and a name of more
    than two characters; and the name of every entry is the name of
    such a link. *)
Theorem listed_resorts_cover (country : string) (s s1 : state) (html : json)
  (soup : listing) :
  fetch_url cfg net (listing_url country) true s = Ok (s1, html) ->
  truthy html = true ->
  parse_listing html = Ok soup ->
  exists out,
    get_resort_list country s = Ok (s1, out) /\
    (forall slug,
       (exists l, l ∈ links_of soup /\ usable l slug) <->
       (exists e, e ∈ out /\ entry_slug e = slug)) /\
    (forall e, e ∈ out ->
       exists l, l ∈ links_of soup /\ usable l (entry_slug e) /\
                 entry_name e = name_of l).
Proof.
  intros Hfetch Htruthy Hsoup. exists (collect country (links_of soup) ∅).
  split.
  { unfold get_resort_list. rewrite Hfetch. cbn. rewrite Htruthy. cbn.
    by rewrite Hsoup. }
  destruct (collect_spec country (links_of soup) ∅) as (_ & Hall & Hcov).
  rewrite Forall_forall in Hall. split.
  - intros slug. split.
    + intros (l & Hin & Hus).
      destruct (Hcov _ _ Hin Hus) as [Hseen|?]; [|done].
      by apply elem_of_empty in Hseen.
    + intros (e & He & <-).
      destruct (Hall e He) as (_ & _ & l & Hin & Hus & _). eauto.
  - intros e He. destruct (Hall e He) as (_ & _ & H). exact H.
Qed.

End List.

(** *** A listing page *)

Definition no_links : listing := {| js_track := []; ski_links := [] |}.

(** A parser that knows the listed pages by their text. *)
Definition parse_table (pages : list (string * listing)) (html : json)
  : result listing :=
  match html with
  | JStr text =>
      Ok (default no_links
            (snd <$> List.find (fun p => String.eqb (fst p) text) pages))
  | _ => Raise TypeError
  end.

Definition zermatt_link : link := {|
  href := Some "/zermatt/"; span_text := Some "Zermatt";
  link_text := "Zermatt 1620 m"
|}.

Definition zermatt_slopes_link : link := {|
  href := Some "/zermatt/ski/pisten/"; span_text := None;
  link_text := "Pisten"
|}.

Definition verbier_link : link := {|
  href := Some "/verbier/ski/"; span_text := None; link_text := "Verbier"
|}.

Definition short_link : link := {|
  href := Some "/laax/"; span_text := Some "LX"; link_text := "Laax"
|}.

Definition plain_link : link := {|
  href := None; span_text := None; link_text := "Impressum"
|}.

Definition listing_text : string := "<html>Skigebiete Schweiz</html>".

Definition listing_page : listing := {|
  js_track := [zermatt_link; plain_link; zermatt_slopes_link; short_link;
               verbier_link];
  ski_links := [zermatt_slopes_link; verbier_link]
|}.

Definition listings : ListingMarkup :=
  {| parse_listing := parse_table [(listing_text, listing_page)] |}.

Lemma listed_resorts_distinct_witness :
  exists s' out,
    get_resort_list (PF := runtime.epoch_platform) (LM := listings)
      config.shipped (samples.serves listing_text) "schweiz" samples.fresh
    = Ok (s', out) /\
    entry_slug <$> out = ["zermatt"; "verbier"] /\
    NoDup (entry_slug <$> out).
Proof.
  do 2 eexists.
  split; [vm_compute; reflexivity|].
  split; [reflexivity|].
  pose proof (fun s' out H =>
    listed_resorts_distinct (PF := runtime.epoch_platform) (LM := listings)
      config.shipped (samples.serves listing_text) "schweiz" samples.fresh
      s' out H) as Hdistinct.
  edestruct Hdistinct as (_ & Hslugs & _).
  - vm_compute. reflexivity.
  - exact Hslugs.
Defined.

Lemma listed_resorts_cover_witness :
  exists s1,
    fetch_url (PF := runtime.epoch_platform) config.shipped
      (samples.serves listing_text) (listing_url "schweiz") true samples.fresh
    = Ok (s1, JStr listing_text) /\
    exists out,
      get_resort_list (PF := runtime.epoch_platform) (LM := listings)
        config.shipped (samples.serves listing_text) "schweiz" samples.fresh
      = Ok (s1, out) /\
      exists e, e ∈ out /\ entry_slug e = "verbier".
Proof.
  eexists. split; [vm_compute; reflexivity|].
  pose proof (fun s1 Hf =>
    listed_resorts_cover (PF := runtime.epoch_platform) (LM := listings)
      config.shipped (samples.serves listing_text) "schweiz" samples.fresh
      s1 (JStr listing_text) listing_page Hf eq_refl eq_refl) as Hcover.
  edestruct Hcover as (out & Hget & Hslugs & _).
  - vm_compute. reflexivity.
  - exists out. split; [exact Hget|].
    apply Hslugs. exists verbier_link. split.
    + do 4 apply list_elem_of_further. apply list_elem_of_here.
    + exists "/verbier/ski/". split; [reflexivity|].
      split; [reflexivity|]. cbn. lia.
Defined.

End resort_list.
